(** * Admin dashboard: table controller, HTTP client and session storage

    A shallow embedding of the TypeScript sources (DataTableShell,
    ServerDataTable, httpClient, authStorage and the reporting hooks)
    together with the properties claimed for them.

    Conventions used throughout:
    - a JS [number] that the code uses as an integer (page index, page
      size, record counts, HTTP status, the clock) is a [Z]; a number
      read from JSON is a rational [Q];
    - a JS string is a Rocq [string], one [ascii] per code unit (so code
      units are restricted to 0..255);
    - [string | null | undefined] is an [option string]; [null] and
      [undefined] are merged because the code only ever tests them
      together (with [!x], [x ?? y] or [x === null || x === undefined]);
    - a React hook is a record of its state cells plus explicit
      transition functions for "the effect runs" and "the awaited promise
      settles". *)

From Stdlib Require Import ZArith QArith String Ascii List Lia.
From Stdlib Require Import DecimalString.
From stdpp Require Import gmap strings list sorting.

Open Scope Z_scope.

(** ** JavaScript primitives used by the sources *)

Module Js.

(** White space and line terminators removed by [String.prototype.trim],
    restricted to code units below 256: TAB, LF, VT, FF, CR, SP, NBSP. *)
Definition is_white_space (c : ascii) : bool :=
  let n := N_of_ascii c in
  (N.eqb n 9 || N.eqb n 10 || N.eqb n 11 || N.eqb n 12 || N.eqb n 13
   || N.eqb n 32 || N.eqb n 160)%bool.

Fixpoint trimStart (s : string) : string :=
  match s with
  | EmptyString => EmptyString
  | String c r => if is_white_space c then trimStart r else s
  end.

Fixpoint trimEnd (s : string) : string :=
  match s with
  | EmptyString => EmptyString
  | String c r =>
      match trimEnd r with
      | EmptyString => if is_white_space c then EmptyString else String c EmptyString
      | r' => String c r'
      end
  end.

(** [s.trim()] *)
Definition trim (s : string) : string := trimEnd (trimStart s).

(** Truthiness of a string: every string but the empty one. *)
Definition truthy (s : string) : bool :=
  match s with EmptyString => false | String _ _ => true end.

(** Truthiness of [string | null | undefined]. *)
Definition truthy_opt (o : option string) : bool :=
  match o with Some s => truthy s | None => false end.

(** [s.startsWith(p)] *)
Fixpoint startsWith (s p : string) {struct p} : bool :=
  match p with
  | EmptyString => true
  | String b p' =>
      match s with
      | EmptyString => false
      | String a s' => Ascii.eqb a b && startsWith s' p'
      end
  end.

(** [s.length] *)
Definition length (s : string) : Z := Z.of_nat (String.length s).

(** [String(n)] for an integer [n]. *)
Definition String_of_number (n : Z) : string :=
  NilZero.string_of_int (Z.to_int n).

(** [Number(s)] for a decimal integer literal; [None] otherwise. *)
Definition Number_of_string (s : string) : option Z :=
  option_map Z.of_int (NilZero.int_of_string s).

(** [a ?? b] *)
Definition nullish {A} (a : option A) (b : A) : A :=
  match a with Some x => x | None => b end.

(** [s.split(sep)] for a one-character separator: the pieces between
    the separators, always at least one. *)
Fixpoint split (sep : ascii) (s : string) : list string :=
  match s with
  | EmptyString => [EmptyString]
  | String c r =>
      if Ascii.eqb c sep then EmptyString :: split sep r
      else match split sep r with
           | p :: ps => String c p :: ps
           | [] => [String c EmptyString]
           end
  end.

(** [s.replace(/a/g, b)] for single characters. *)
Fixpoint replaceAll (a b : ascii) (s : string) : string :=
  match s with
  | EmptyString => EmptyString
  | String c r => String (if Ascii.eqb c a then b else c) (replaceAll a b r)
  end.

End Js.

(** ** lib/httpClient.ts *)

Module HttpClient.

Record ApiError := {
  status : Z;
  statusText : string;
  bodyText : option string
}.

(** A value caught by [catch (err)]: an [ApiError] instance or anything
    else (a network failure, a [TypeError], ...). *)
Inductive Thrown :=
| ThrownApiError (e : ApiError)
| ThrownOther.

Record ApiErrorMessageOptions := {
  defaultMessage : string;
  unauthorizedMessage : option string;
  badRequestMessage : option string;
  notFoundMessage : option string;
  rateLimitMessage : option string;
  serverErrorMessage : option string
}.

(** [status === code && message], then [return message]. *)
Definition pick (cond : bool) (message : option string) : option string :=
  if cond then (if Js.truthy_opt message then message else None) else None.

Definition mapApiErrorToMessage (err : Thrown) (o : ApiErrorMessageOptions) : string :=
  match err with
  | ThrownOther => defaultMessage o
  | ThrownApiError e =>
      match pick (status e =? 400) (badRequestMessage o) with
      | Some m => m
      | None =>
      match pick (status e =? 401) (unauthorizedMessage o) with
      | Some m => m
      | None =>
      match pick (status e =? 404) (notFoundMessage o) with
      | Some m => m
      | None =>
      match pick (status e =? 429) (rateLimitMessage o) with
      | Some m => m
      | None =>
      match pick (status e >=? 500) (serverErrorMessage o) with
      | Some m => m
      | None => defaultMessage o
      end end end end end
  end.

(** The error thrown for a response [401 Unauthorized] with an unreadable
    body. *)
Definition unauthorized : ApiError :=
  {| status := 401; statusText := "Unauthorized"; bodyText := None |}.

(** [buildAuthHeader(token)] *)
Definition buildAuthHeader (token : option string) : option string :=
  match token with
  | None => None
  | Some t =>
      if Js.truthy t
      then Some (if Js.startsWith t "Bearer " then t else "Bearer " ++ t)%string
      else None
  end.

(** What [apiRequest] hands to [fetch]: the path, and the
    [Authorization] header it attaches when [token] is truthy. *)
Record Request := {
  path : string;
  query : list (string * string);
  authorization : option string
}.

Definition apiRequest_send (p : string) (q : list (string * string))
    (token : option string) : Request :=
  {| path := p;
     query := q;
     authorization :=
       match token with
       | Some t =>
           if Js.truthy t
           then Some (if Js.startsWith t "Bearer " then t else "Bearer " ++ t)%string
           else None
       | None => None
       end |}.

(** The HTTP response as [apiRequest] looks at it; [body] is the parsed
    JSON, [None] when parsing failed. *)
Record Response (T : Type) := {
  res_status : Z;
  res_statusText : string;
  res_text : option string;
  res_json : option T
}.
Arguments res_status {T}.
Arguments res_statusText {T}.
Arguments res_text {T}.
Arguments res_json {T}.

(** [response.ok]: a status in 200..299. *)
Definition ok {T} (r : Response T) : bool :=
  (200 <=? res_status r) && (res_status r <=? 299).

(** The second half of [apiRequest]: the awaited response becomes a
    value ([inl], [None] for [undefined]) or a thrown [ApiError]
    ([inr]); the boolean tells whether the registered unauthorized
    handler was invoked. *)
Definition apiRequest_receive {T} (token : option string)
    (handlerRegistered : bool) (r : Response T)
    : (option T + Thrown) * bool :=
  if negb (ok r) then
    (inr (ThrownApiError {| status := res_status r;
                            statusText := res_statusText r;
                            bodyText := res_text r |}),
     (res_status r =? 401) && Js.truthy_opt token && handlerRegistered)
  else if res_status r =? 204 then (inl None, false)
  else (inl (res_json r), false).

End HttpClient.

(** ** components/tables/DataTableShell: paging calculator *)

Module DataTableShell.

Record DataTablePagingInfo := {
  currentFrom : Z;
  currentTo : Z;
  totalForDisplay : Z;
  totalPages : Z;
  currentPage : Z;
  (** the index [goToPage(page)] passes to [onPageIndexChange] *)
  goToPage : Z -> Z
}.

(** [Math.ceil(a / b)] for integers [a] and [b > 0]. *)
Definition ceil_div (a b : Z) : Z := - ((- a) / b).

Definition getDataTablePaging
    (pageIndex pageSize recordsTotal recordsFiltered : Z) : DataTablePagingInfo :=
  let totalForDisplay :=
    if recordsFiltered =? 0 then recordsTotal else recordsFiltered in
  let totalPages :=
    if pageSize >? 0 then Z.max 1 (ceil_div totalForDisplay pageSize) else 1 in
  let currentPage := pageIndex + 1 in
  let start := pageIndex * pageSize in
  let currentFrom := if totalForDisplay =? 0 then 0 else start + 1 in
  let currentTo := Z.min (start + pageSize) totalForDisplay in
  {| currentFrom := currentFrom;
     currentTo := currentTo;
     totalForDisplay := totalForDisplay;
     totalPages := totalPages;
     currentPage := currentPage;
     goToPage := fun page => Z.min (Z.max page 1) totalPages - 1 |}.


(** *** useDebouncedSearch *)

Record DebouncedSearchOptions := {
  initialValue : string;
  minLength : Z;
  delayMs : Z
}.

(** The defaults of the destructured argument. *)
Definition defaultSearchOptions : DebouncedSearchOptions :=
  {| initialValue := ""; minLength := 3; delayMs := 2500 |}.

(** The two state cells, the timer armed by the effect (milliseconds
    left and the value captured by its callback) and the log of
    [onCommit] calls, oldest first. *)
Record SearchState := {
  search : string;
  pendingSearch : string;
  timer : option (Z * string);
  commits : list string
}.

(** The cleanup returned by the previous effect run: [clearTimeout]. *)
Definition clearTimeout (st : SearchState) : SearchState :=
  {| search := search st; pendingSearch := pendingSearch st;
     timer := None; commits := commits st |}.

(** [setSearch(v); onCommit?.(v)] *)
Definition commit (v : string) (st : SearchState) : SearchState :=
  {| search := v; pendingSearch := pendingSearch st;
     timer := timer st; commits := commits st ++ [v] |}.

(** The condition of the effect's [if], as a proposition. *)
Definition immediate (o : DebouncedSearchOptions) (trimmed : string) : Prop :=
  Js.length trimmed >= minLength o \/ Js.length trimmed = 0.

(** One run of the effect: the previous cleanup, then the body. *)
Definition searchEffect (o : DebouncedSearchOptions) (st : SearchState) : SearchState :=
  let st := clearTimeout st in
  let value := pendingSearch st in
  let trimmed := Js.trim value in
  if (Js.length trimmed >=? minLength o) || (Js.length trimmed =? 0)
  then commit trimmed st
  else {| search := search st; pendingSearch := pendingSearch st;
          timer := Some (delayMs o, trimmed); commits := commits st |}.

(** First render: both cells hold [initialValue] and the effect runs. *)
Definition mountSearch (o : DebouncedSearchOptions) : SearchState :=
  searchEffect o {| search := initialValue o; pendingSearch := initialValue o;
                    timer := None; commits := [] |}.

(** [setPendingSearch(v)]: an unchanged value re-runs nothing; a changed
    one re-renders and, [pendingSearch] being a dependency, re-runs the
    effect. *)
Definition setPendingSearch (o : DebouncedSearchOptions) (v : string)
    (st : SearchState) : SearchState :=
  if String.eqb v (pendingSearch st) then st
  else searchEffect o {| search := search st; pendingSearch := v;
                         timer := timer st; commits := commits st |}.

(** [ms] milliseconds pass without any call: an armed timer fires once
    its delay is used up. *)
Definition elapse (ms : Z) (st : SearchState) : SearchState :=
  match timer st with
  | None => st
  | Some (remaining, v) =>
      if remaining <=? ms then commit v (clearTimeout st)
      else {| search := search st; pendingSearch := pendingSearch st;
              timer := Some (remaining - ms, v); commits := commits st |}
  end.

(** [reset()], followed by the effect when [pendingSearch] changed. *)
Definition reset (o : DebouncedSearchOptions) (st : SearchState) : SearchState :=
  let st' := {| search := ""; pendingSearch := "";
                timer := timer st; commits := commits st ++ [""%string] |} in
  if String.eqb (pendingSearch st) "" then st' else searchEffect o st'.

Inductive SearchEvent :=
| TypeText (v : string)
| Wait (ms : Z)
| ResetSearch.

Definition searchStep (o : DebouncedSearchOptions) (st : SearchState)
    (e : SearchEvent) : SearchState :=
  match e with
  | TypeText v => setPendingSearch o v st
  | Wait ms => elapse ms st
  | ResetSearch => reset o st
  end.

Definition searchRun (o : DebouncedSearchOptions) (es : list SearchEvent) : SearchState :=
  fold_left (searchStep o) es (mountSearch o).

(** An armed timer waits for the current pending value, and only when
    that value is neither long enough nor empty. *)
Definition timer_tracks_pending (o : DebouncedSearchOptions) (st : SearchState) : Prop :=
  match timer st with
  | Some (_, t) => t = Js.trim (pendingSearch st) /\ ~ immediate o t
  | None => True
  end.

(** *** buildDataTablesQueryParams *)

(** [URLSearchParams]: the ordered list of name/value pairs. *)
Definition URLSearchParams := list (string * string).

(** [params.set(name, value)]: the first pair of that name takes the
    value and the others are removed; a new name is appended. *)
Fixpoint params_set (name value : string) (ps : URLSearchParams) : URLSearchParams :=
  match ps with
  | [] => [(name, value)]
  | (n, v) :: r =>
      if String.eqb n name
      then (name, value) :: List.filter (fun p => negb (String.eqb (fst p) name)) r
      else (n, v) :: params_set name value r
  end.

(** [params.get(name)] *)
Fixpoint params_get (name : string) (ps : URLSearchParams) : option string :=
  match ps with
  | [] => None
  | (n, v) :: r => if String.eqb n name then Some v else params_get name r
  end.

(** A value of [Record<string, string | number | null | undefined>]. *)
Inductive FilterValue :=
| FString (s : string)
| FNumber (n : Z)
| FNullish.

(** [String(value)] *)
Definition String_of_value (v : FilterValue) : string :=
  match v with
  | FString s => s
  | FNumber n => Js.String_of_number n
  | FNullish => ""
  end.

(** A plain object built by successive assignments, in insertion order
    (the order [Object.entries] follows for non-index keys). *)
Definition JsRecord (V : Type) := list (string * V).

(** [obj[key] = value] *)
Fixpoint record_assign {V} (key : string) (value : V) (obj : JsRecord V) : JsRecord V :=
  match obj with
  | [] => [(key, value)]
  | (k, v) :: r =>
      if String.eqb k key then (k, value) :: r
      else (k, v) :: record_assign key value r
  end.

(** [obj[key]] *)
Fixpoint record_get {V} (key : string) (obj : JsRecord V) : option V :=
  match obj with
  | [] => None
  | (k, v) :: r => if String.eqb k key then Some v else record_get key r
  end.

Inductive SortDir := asc | desc.

Definition SortDir_to_string (d : SortDir) : string :=
  match d with asc => "asc" | desc => "desc" end.

Record DataTablesQueryOptions := {
  start : Z;
  length : Z;
  q_search : option string;
  sortColumn : Z;
  sortDir : SortDir;
  extraFilters : option (JsRecord FilterValue)
}.

(** The body of the [for ... of Object.entries(extraFilters)] loop. *)
Definition addFilter (ps : URLSearchParams) (entry : string * FilterValue)
    : URLSearchParams :=
  let (key, value) := entry in
  match value with
  | FNullish => ps
  | _ =>
      let str := Js.trim (String_of_value value) in
      if Js.truthy str then params_set key str ps else ps
  end.

Definition buildDataTablesQueryParams (o : DataTablesQueryOptions) : URLSearchParams :=
  let params := [] in
  let params := params_set "draw" "1" params in
  let params := params_set "start" (Js.String_of_number (start o)) params in
  let params := params_set "length" (Js.String_of_number (length o)) params in
  let trimmedSearch := option_map Js.trim (q_search o) in
  let params :=
    match trimmedSearch with
    | Some t => if Js.truthy t then params_set "search[value]" t params else params
    | None => params
    end in
  let params :=
    match extraFilters o with
    | Some fs => fold_left addFilter fs params
    | None => params
    end in
  let params := params_set "order[0][column]" (Js.String_of_number (sortColumn o)) params in
  let params := params_set "order[0][dir]" (SortDir_to_string (sortDir o)) params in
  params.

(** The entry of [extraFilters] passes the loop's two guards and sets
    the parameter [name]. *)
Definition sets_param (name : string) (entry : string * FilterValue) : bool :=
  String.eqb (fst entry) name
  && match snd entry with
     | FNullish => false
     | v => Js.truthy (Js.trim (String_of_value v))
     end.

(** The [draw] parameter of a query, read as a number. *)
Definition draw_number (ps : URLSearchParams) : option Z :=
  match params_get "draw" ps with
  | Some d => Js.Number_of_string d
  | None => None
  end.

(** *** useServerDataTable *)

Section UseServerDataTable.
Variable TData : Type.

Record DataTablesApiResponse := {
  data : option (list TData);
  recordsTotal : option Z;
  recordsFiltered : option Z
}.

(** [deps] only decides when the effect runs again; here that is the
    caller's choice of invoking [tableEffect]. *)
Record UseServerDataTableOptions := {
  endpoint : string;
  token : option string;
  pageSizeInitial : option Z;
  buildQueryOptions : Z -> Z -> DataTablesQueryOptions;
  mapErrorMessage : option (HttpClient.Thrown -> option string)
}.

Record TableState := {
  st_data : list TData;
  st_pageSize : Z;
  st_pageIndex : Z;
  st_recordsTotal : Z;
  st_recordsFiltered : Z;
  st_loading : bool;
  st_error : option string
}.

(** One call of [fetchData]: its [AbortController], the
    [mapErrorMessage] its closure captured, the request it sent and
    whether its promise has settled. *)
Record Attempt := {
  aborted : bool;
  settled : bool;
  att_mapErrorMessage : option (HttpClient.Thrown -> option string);
  att_request : HttpClient.Request
}.

(** The hook instance: its state cells, every attempt made so far (the
    n-th effect run that got past the endpoint guard is attempt n), the
    attempt whose cleanup is registered, and a ghost log of the
    attempts that wrote into the state cells after their [await],
    oldest first. *)
Record Hook := {
  state : TableState;
  attempts : list Attempt;
  active : option nat;
  writers : list nat
}.

Definition mountTable (o : UseServerDataTableOptions) : Hook :=
  {| state := {| st_data := [];
                 st_pageSize := Js.nullish (pageSizeInitial o) 10;
                 st_pageIndex := 0;
                 st_recordsTotal := 0;
                 st_recordsFiltered := 0;
                 st_loading := false;
                 st_error := None |};
     attempts := [];
     active := None;
     writers := [] |}.

Definition abort (a : Attempt) : Attempt :=
  {| aborted := true; settled := settled a;
     att_mapErrorMessage := att_mapErrorMessage a;
     att_request := att_request a |}.

(** The cleanup of the previous effect run: [controller.abort()]. *)
Definition tableCleanup (h : Hook) : Hook :=
  match active h with
  | Some i =>
      {| state := state h;
         attempts := match attempts h !! i with
                     | Some a => <[i := abort a]> (attempts h)
                     | None => attempts h
                     end;
         active := None;
         writers := writers h |}
  | None => h
  end.

(** One run of the effect: the previous cleanup, the endpoint guard, a
    fresh controller and the synchronous part of [fetchData] up to the
    [await]. The path [`${endpoint}?${params}`] is kept as its two
    parts. *)
Definition tableEffect (o : UseServerDataTableOptions) (h : Hook) : Hook :=
  let h := tableCleanup h in
  if negb (Js.truthy (endpoint o)) then h
  else
    let s := state h in
    let queryOptions := buildQueryOptions o (st_pageIndex s) (st_pageSize s) in
    let params := buildDataTablesQueryParams queryOptions in
    {| state := {| st_data := st_data s;
                   st_pageSize := st_pageSize s;
                   st_pageIndex := st_pageIndex s;
                   st_recordsTotal := st_recordsTotal s;
                   st_recordsFiltered := st_recordsFiltered s;
                   st_loading := true;
                   st_error := None |};
       attempts := attempts h ++
         [{| aborted := false; settled := false;
             att_mapErrorMessage := mapErrorMessage o;
             att_request := HttpClient.apiRequest_send (endpoint o) params (token o) |}];
       active := Some (List.length (attempts h));
       writers := writers h |}.

(** The [catch] block followed by [finally]. *)
Definition tableCatch (a : Attempt) (err : HttpClient.Thrown) (s : TableState)
    : TableState :=
  let message :=
    match att_mapErrorMessage a with
    | Some f => f err
    | None =>
        match err with
        | HttpClient.ThrownApiError _ => Some "Failed to load data from server."%string
        | HttpClient.ThrownOther =>
            Some "An unexpected error occurred while loading data."%string
        end
    end in
  {| st_data := st_data s;
     st_pageSize := st_pageSize s;
     st_pageIndex := st_pageIndex s;
     st_recordsTotal := st_recordsTotal s;
     st_recordsFiltered := st_recordsFiltered s;
     st_loading := false;
     st_error := message |}.

(** The rest of [fetchData] once the awaited [apiRequest] settles with
    a value ([inl]; [None] is [undefined], on which [response.data]
    throws a [TypeError] inside the [try]) or a thrown error ([inr]).
    The controller is not consulted. *)
Definition tableResume (a : Attempt) (outcome : option DataTablesApiResponse + HttpClient.Thrown)
    (s : TableState) : TableState :=
  match outcome with
  | inl (Some response) =>
      {| st_data := Js.nullish (data response) [];
         st_pageSize := st_pageSize s;
         st_pageIndex := st_pageIndex s;
         st_recordsTotal := Js.nullish (recordsTotal response) 0;
         st_recordsFiltered := Js.nullish (recordsFiltered response) 0;
         st_loading := false;
         st_error := st_error s |}
  | inl None => tableCatch a HttpClient.ThrownOther s
  | inr err => tableCatch a err s
  end.

(** The promise of attempt [i] settles; a promise settles once. *)
Definition tableSettle (i : nat) (outcome : option DataTablesApiResponse + HttpClient.Thrown)
    (h : Hook) : Hook :=
  match attempts h !! i with
  | Some a =>
      if settled a then h
      else {| state := tableResume a outcome (state h);
              attempts := <[i := {| aborted := aborted a; settled := true;
                                   att_mapErrorMessage := att_mapErrorMessage a;
                                   att_request := att_request a |}]> (attempts h);
              active := active h;
              writers := writers h ++ [i] |}
  | None => h
  end.

Inductive TableEvent :=
| Effect (o : UseServerDataTableOptions)
| Settle (i : nat) (outcome : option DataTablesApiResponse + HttpClient.Thrown).

Definition tableStep (h : Hook) (e : TableEvent) : Hook :=
  match e with
  | Effect o => tableEffect o h
  | Settle i outcome => tableSettle i outcome h
  end.

Definition tableRun (o : UseServerDataTableOptions) (es : list TableEvent) : Hook :=
  fold_left tableStep es (mountTable o).

End UseServerDataTable.

Arguments data {TData}.
Arguments recordsTotal {TData}.
Arguments recordsFiltered {TData}.
Arguments st_data {TData}.
Arguments st_pageSize {TData}.
Arguments st_pageIndex {TData}.
Arguments st_recordsTotal {TData}.
Arguments st_recordsFiltered {TData}.
Arguments st_loading {TData}.
Arguments st_error {TData}.
Arguments state {TData}.
Arguments attempts {TData}.
Arguments active {TData}.
Arguments writers {TData}.
Arguments mountTable {TData}.
Arguments tableCleanup {TData}.
Arguments tableEffect {TData}.
Arguments tableCatch {TData}.
Arguments tableResume {TData}.
Arguments tableSettle {TData}.
Arguments Effect {TData}.
Arguments Settle {TData}.
Arguments tableStep {TData}.
Arguments tableRun {TData}.

End DataTableShell.

(** ** components/tables/ServerDataTable.tsx *)

Module ServerDataTable.

Import DataTableShell.

(** [filterState]: [Record<string, string>] read by key and replaced
    by spread-and-override. *)
Abbreviation FilterState := (gmap string string).

(** [DataTableFilterConfigDefinition]; a select option keeps its value
    only (the label is markup). *)
Inductive DataTableFilterConfigDefinition :=
| DefText (placeholder queryKey : option string)
| DefSelect (options : list string) (queryKey : option string)
| DefNumberRange (minPlaceholder maxPlaceholder minQueryKey maxQueryKey : option string)
| DefDateRange (fromQueryKey toQueryKey : option string).

(** [DataTableFilterConfig]: the definition plus its getters (closures
    over the current [filterState]) and setters (the updater handed to
    [setFilterState]). *)
Inductive DataTableFilterConfig :=
| CfgText (getValue : unit -> string) (setValue : string -> FilterState -> FilterState)
    (placeholder queryKey : option string)
| CfgSelect (getValue : unit -> string) (setValue : string -> FilterState -> FilterState)
    (options : list string) (queryKey : option string)
| CfgNumberRange
    (getMin : unit -> string) (setMin : string -> FilterState -> FilterState)
    (getMax : unit -> string) (setMax : string -> FilterState -> FilterState)
    (minPlaceholder maxPlaceholder minQueryKey maxQueryKey : option string)
| CfgDateRange
    (getFrom : unit -> string) (setFrom : string -> FilterState -> FilterState)
    (getTo : unit -> string) (setTo : string -> FilterState -> FilterState)
    (fromQueryKey toQueryKey : option string).

(** The fields of a column that the filter logic reads. *)
Record ServerDataTableColumn := {
  id : string;
  sortable : bool;
  filterConfigHeader : option DataTableFilterConfigDefinition;
  filterConfigFooter : option DataTableFilterConfigDefinition
}.

Record DataTableColumn := {
  col_id : string;
  col_sortable : bool;
  col_filterConfigHeader : option DataTableFilterConfig;
  col_filterConfigFooter : option DataTableFilterConfig
}.

(** [() => filterState[key] ?? ""] *)
Definition getter (filterState : FilterState) (key : string) : unit -> string :=
  fun _ => Js.nullish (filterState !! key) ""%string.

(** [(value) => setFilterState((prev) => ({ ...prev, [key]: value }))] *)
Definition setter (key : string) : string -> FilterState -> FilterState :=
  fun value prev => <[key := value]> prev.

Definition buildConfig (filterState : FilterState) (column : ServerDataTableColumn)
    (config : option DataTableFilterConfigDefinition) : option DataTableFilterConfig :=
  match config with
  | None => None
  | Some (DefText placeholder queryKey) =>
      let key := Js.nullish queryKey (id column) in
      Some (CfgText (getter filterState key) (setter key) placeholder queryKey)
  | Some (DefSelect options queryKey) =>
      let key := Js.nullish queryKey (id column) in
      Some (CfgSelect (getter filterState key) (setter key) options queryKey)
  | Some (DefNumberRange minPlaceholder maxPlaceholder minQueryKey maxQueryKey) =>
      let minKey := Js.nullish minQueryKey (id column ++ ":min")%string in
      let maxKey := Js.nullish maxQueryKey (id column ++ ":max")%string in
      Some (CfgNumberRange (getter filterState minKey) (setter minKey)
                           (getter filterState maxKey) (setter maxKey)
                           minPlaceholder maxPlaceholder minQueryKey maxQueryKey)
  | Some (DefDateRange fromQueryKey toQueryKey) =>
      let fromKey := Js.nullish fromQueryKey (id column ++ ":from")%string in
      let toKey := Js.nullish toQueryKey (id column ++ ":to")%string in
      Some (CfgDateRange (getter filterState fromKey) (setter fromKey)
                         (getter filterState toKey) (setter toKey)
                         fromQueryKey toQueryKey)
  end.

(** The function mapped over the columns by [columnsWithState]. *)
Definition columnWithState (filterState : FilterState)
    (column : ServerDataTableColumn) : DataTableColumn :=
  {| col_id := id column;
     col_sortable := sortable column;
     col_filterConfigHeader := buildConfig filterState column (filterConfigHeader column);
     col_filterConfigFooter := buildConfig filterState column (filterConfigFooter column) |}.

(** [columnsWithState] *)
Definition columnsWithState (filterState : FilterState)
    (columns : list ServerDataTableColumn) : list DataTableColumn :=
  map (columnWithState filterState) columns.

(** [column.filterConfigHeader ?? column.filterConfigFooter] *)
Definition getConfigForColumn (column : DataTableColumn) : option DataTableFilterConfig :=
  match col_filterConfigHeader column with
  | Some c => Some c
  | None => col_filterConfigFooter column
  end.

(** [if (key && trimmed) extraFilters[key] = trimmed] *)
Definition assignRange (key : option string) (trimmed : string)
    (extraFilters : JsRecord FilterValue) : JsRecord FilterValue :=
  match key with
  | Some k =>
      if Js.truthy k && Js.truthy trimmed
      then record_assign k (FString trimmed) extraFilters
      else extraFilters
  | None => extraFilters
  end.

(** The body of the loop over the columns, on the pair
    [(extraFilters, filterDeps)]. *)
Definition filterStep (acc : JsRecord FilterValue * list string) (column : DataTableColumn)
    : JsRecord FilterValue * list string :=
  let (extraFilters, filterDeps) := acc in
  match getConfigForColumn column with
  | None => acc
  | Some (CfgText getValue _ _ queryKey)
  | Some (CfgSelect getValue _ _ queryKey) =>
      let key := Js.nullish queryKey (col_id column) in
      let rawValue := getValue tt in
      let filterDeps := filterDeps ++ [rawValue] in
      let trimmed := Js.trim rawValue in
      (if Js.truthy trimmed then record_assign key (FString trimmed) extraFilters
       else extraFilters,
       filterDeps)
  | Some (CfgNumberRange getMin _ getMax _ _ _ minQueryKey maxQueryKey) =>
      let minKey := minQueryKey in
      let maxKey := maxQueryKey in
      let rawMin := getMin tt in
      let filterDeps := filterDeps ++ [rawMin] in
      let trimmedMin := Js.trim rawMin in
      let extraFilters := assignRange minKey trimmedMin extraFilters in
      let rawMax := getMax tt in
      let filterDeps := filterDeps ++ [rawMax] in
      let trimmedMax := Js.trim rawMax in
      let extraFilters := assignRange maxKey trimmedMax extraFilters in
      (extraFilters, filterDeps)
  | Some (CfgDateRange getFrom _ getTo _ fromQueryKey toQueryKey) =>
      let fromKey := fromQueryKey in
      let toKey := toQueryKey in
      let rawFrom := getFrom tt in
      let filterDeps := filterDeps ++ [rawFrom] in
      let trimmedFrom := Js.trim rawFrom in
      let extraFilters := assignRange fromKey trimmedFrom extraFilters in
      let rawTo := getTo tt in
      let filterDeps := filterDeps ++ [rawTo] in
      let trimmedTo := Js.trim rawTo in
      let extraFilters := assignRange toKey trimmedTo extraFilters in
      (extraFilters, filterDeps)
  end.

Definition getFilterStateFromColumns (columns : list DataTableColumn)
    : JsRecord FilterValue * list string :=
  fold_left filterStep columns ([], []).

(** The [extraFilters] the component derives from its props and state. *)
Definition derivedExtraFilters (filterState : FilterState)
    (columns : list ServerDataTableColumn) : JsRecord FilterValue :=
  fst (getFilterStateFromColumns (columnsWithState filterState columns)).

(** The definition a column's filter is driven by: the header's, else
    the footer's. *)
Definition effectiveDefinition (column : ServerDataTableColumn)
    : option DataTableFilterConfigDefinition :=
  match filterConfigHeader column with
  | Some d => Some d
  | None => filterConfigFooter column
  end.

(** The query keys a range definition declares for its two bounds. *)
Definition range_keys (d : DataTableFilterConfigDefinition) : list (option string) :=
  match d with
  | DefNumberRange _ _ minQueryKey maxQueryKey => [minQueryKey; maxQueryKey]
  | DefDateRange fromQueryKey toQueryKey => [fromQueryKey; toQueryKey]
  | _ => []
  end.

(** The value held in [filterState] under [key], trimmed. *)
Definition trimmedValue (filterState : FilterState) (key : string) : string :=
  Js.trim (getter filterState key tt).

(** [extraFilters] holds, under [k], the trimmed value that
    [filterState] holds under [k]. *)
Definition in_sync (fs : FilterState) (k : string) (ef : JsRecord FilterValue) : Prop :=
  record_get k ef = Some (FString (trimmedValue fs k)).

Definition defaultMapErrorMessage (err : HttpClient.Thrown) : option string :=
  match err with
  | HttpClient.ThrownApiError e =>
      if HttpClient.status e =? 401
      then Some "Your session has expired. Please sign in again."%string
      else Some "Failed to load data from server."%string
  | HttpClient.ThrownOther =>
      Some "An unexpected error occurred while loading data."%string
  end.

(** The props and state of the component that reach the hook. *)
Record ServerDataTableProps := {
  columns : list ServerDataTableColumn;
  p_endpoint : string;
  p_token : option string;
  p_pageSizeInitial : option Z;
  p_mapErrorMessage : option (HttpClient.Thrown -> option string)
}.

Record ComponentState := {
  c_sortColumn : Z;
  c_sortDir : SortDir;
  c_filterState : FilterState;
  c_search : string
}.

(** First render: sort on column 0 descending, no filter, no search. *)
Definition initialComponentState : ComponentState :=
  {| c_sortColumn := 0; c_sortDir := desc; c_filterState := ∅; c_search := "" |}.

(** The options the component passes to [useServerDataTable];
    [authToken] is the token of the auth context. *)
Definition hookOptions (props : ServerDataTableProps)
    (authToken : option string) (c : ComponentState)
    : UseServerDataTableOptions :=
  let effectiveToken :=
    match p_token props with Some t => Some t | None => authToken end in
  let effectiveMapErrorMessage :=
    Js.nullish (p_mapErrorMessage props) defaultMapErrorMessage in
  let extraFilters := derivedExtraFilters (c_filterState c) (columns props) in
  {| endpoint := p_endpoint props;
     token := effectiveToken;
     pageSizeInitial := Some (Js.nullish (p_pageSizeInitial props) 10);
     buildQueryOptions := fun qPageIndex qPageSize =>
       {| start := qPageIndex * qPageSize;
          length := qPageSize;
          q_search := Some (c_search c);
          sortColumn := c_sortColumn c;
          sortDir := c_sortDir c;
          extraFilters := Some extraFilters |};
     mapErrorMessage := Some effectiveMapErrorMessage |}.

End ServerDataTable.

(** ** components/tables/Transactions/TransactionsTable.tsx *)

Module TransactionsTable.

Import ServerDataTable.

Definition typeOptions : list string := [""; "DEBIT"; "CREDIT"]%string.

Definition columns : list ServerDataTableColumn :=
  [ {| id := "createdAt"; sortable := true;
       filterConfigHeader := Some (DefDateRange (Some "dateFrom") (Some "dateTo"));
       filterConfigFooter := Some (DefDateRange (Some "dateFrom") (Some "dateTo")) |};
    {| id := "from"; sortable := true;
       filterConfigHeader := Some (DefText (Some "From username") (Some "from"));
       filterConfigFooter := Some (DefText (Some "From username") (Some "from")) |};
    {| id := "to"; sortable := true;
       filterConfigHeader := Some (DefText (Some "To username") (Some "to"));
       filterConfigFooter := Some (DefText (Some "To username") (Some "to")) |};
    {| id := "type"; sortable := true;
       filterConfigHeader := Some (DefSelect typeOptions (Some "type"));
       filterConfigFooter := Some (DefSelect typeOptions (Some "type")) |};
    {| id := "amount"; sortable := true;
       filterConfigHeader :=
         Some (DefNumberRange (Some "Min") (Some "Max") (Some "minAmount") (Some "maxAmount"));
       filterConfigFooter :=
         Some (DefNumberRange (Some "Min") (Some "Max") (Some "minAmount") (Some "maxAmount")) |}
  ]%string.

(** The props [TransactionsTable] passes to [ServerDataTable]. *)
Definition props : ServerDataTableProps :=
  {| ServerDataTable.columns := columns;
     p_endpoint := "/transactions";
     p_token := None;
     p_pageSizeInitial := Some 10;
     p_mapErrorMessage := None |}.

End TransactionsTable.

(** ** hooks/useReporting.ts *)

Module Reporting.

(** What the three reporting hooks differ in, as far as the request
    life cycle goes: the endpoint and the messages given to
    [mapApiErrorToMessage]. The three share the token guard, the
    [cancelled] flag, the [catch] block and the [finally] block word for
    word. What their [try] blocks compute from the response (the row
    array, or for [useTransactionsVolume] the pages fetched in a loop and
    summed into date buckets) enters the model as the outcome of the
    [try] block. *)
Record ReportingHook := {
  r_endpoint : string;
  r_messages : HttpClient.ApiErrorMessageOptions
}.

Definition messages (dflt rate server : string) : HttpClient.ApiErrorMessageOptions :=
  {| HttpClient.defaultMessage := dflt;
     HttpClient.unauthorizedMessage := None;
     HttpClient.badRequestMessage := None;
     HttpClient.notFoundMessage := None;
     HttpClient.rateLimitMessage := Some rate;
     HttpClient.serverErrorMessage := Some server |}.

Definition useTopTransactionsPerUser : ReportingHook :=
  {| r_endpoint := "/top_transactions_per_user";
     r_messages := messages
       "Failed to load top transactions."
       "Too many requests while loading top transactions. Please wait a moment and try again."
       "Server error while loading top transactions. Please try again later." |}.

Definition useTransactionsVolume : ReportingHook :=
  {| r_endpoint := "/transactions";
     r_messages := messages
       "Failed to load transactions volume."
       "Too many requests while loading transactions volume. Please wait a moment and try again."
       "Server error while loading transactions volume. Please try again later." |}.

Definition useTopUsersLeaderboard : ReportingHook :=
  {| r_endpoint := "/top_users";
     r_messages := messages
       "Failed to load top users."
       "Too many requests while loading top users. Please wait a moment and try again."
       "Server error while loading top users. Please try again later." |}.

Section Hook.
Variable T : Type.

Record ReportState := {
  data : list T;
  loading : bool;
  error : option string
}.

(** One call of [load]: the [cancelled] flag of its closure and
    whether its [try] block has finished. *)
Record LoadCall := {
  cancelled : bool;
  finished : bool
}.

(** The hook instance: its state cells, the calls of [load] so far,
    the call whose cleanup is registered, the first request of each
    call (by endpoint and token) and the balance of the global loading
    counter ([startLoading] minus [stopLoading]). *)
Record Hook := {
  state : ReportState;
  loads : list LoadCall;
  active : option nat;
  requests : list (string * string);
  globalLoading : Z
}.

Definition mountReport : Hook :=
  {| state := {| data := []; loading := false; error := None |};
     loads := []; active := None; requests := []; globalLoading := 0 |}.

(** The cleanup of the previous effect run: [cancelled = true]. *)
Definition reportCleanup (h : Hook) : Hook :=
  match active h with
  | Some i =>
      {| state := state h;
         loads := match loads h !! i with
                  | Some l => <[i := {| cancelled := true; finished := finished l |}]> (loads h)
                  | None => loads h
                  end;
         active := None;
         requests := requests h;
         globalLoading := globalLoading h |}
  | None => h
  end.

(** One run of the effect with the current [token]: the previous
    cleanup, the token guard, then [load] up to its first [await]. *)
Definition reportEffect (k : ReportingHook) (token : option string) (h : Hook) : Hook :=
  let h := reportCleanup h in
  match token with
  | Some t =>
      if Js.truthy t then
        {| state := {| data := data (state h); loading := true; error := None |};
           loads := loads h ++ [{| cancelled := false; finished := false |}];
           active := Some (List.length (loads h));
           requests := requests h ++ [(r_endpoint k, t)];
           globalLoading := globalLoading h + 1 |}
      else
        {| state := {| data := []; loading := false; error := None |};
           loads := loads h; active := None;
           requests := requests h; globalLoading := globalLoading h |}
  | None =>
      {| state := {| data := []; loading := false; error := None |};
         loads := loads h; active := None;
         requests := requests h; globalLoading := globalLoading h |}
  end.

(** The rest of [load] once its [try] block ends with the rows to
    store ([inl]) or a thrown error ([inr]), then [finally]. *)
Definition reportResume (k : ReportingHook) (l : LoadCall) (outcome : list T + HttpClient.Thrown)
    (s : ReportState) : ReportState :=
  let s :=
    match outcome with
    | inl rows =>
        if cancelled l then s
        else {| data := rows; loading := loading s; error := error s |}
    | inr err =>
        if cancelled l then s
        else match err with
             | HttpClient.ThrownApiError e =>
                 if HttpClient.status e =? 401 then s
                 else {| data := data s; loading := loading s;
                         error := Some (HttpClient.mapApiErrorToMessage err (r_messages k)) |}
             | HttpClient.ThrownOther =>
                 {| data := data s; loading := loading s;
                    error := Some (HttpClient.mapApiErrorToMessage err (r_messages k)) |}
             end
    end in
  if cancelled l then s
  else {| data := data s; loading := false; error := error s |}.

Definition reportSettle (k : ReportingHook) (i : nat) (outcome : list T + HttpClient.Thrown)
    (h : Hook) : Hook :=
  match loads h !! i with
  | Some l =>
      if finished l then h
      else {| state := reportResume k l outcome (state h);
              loads := <[i := {| cancelled := cancelled l; finished := true |}]> (loads h);
              active := active h;
              requests := requests h;
              globalLoading := globalLoading h - 1 |}
  | None => h
  end.

End Hook.

Arguments data {T}.
Arguments loading {T}.
Arguments error {T}.
Arguments state {T}.
Arguments loads {T}.
Arguments active {T}.
Arguments requests {T}.
Arguments globalLoading {T}.
Arguments mountReport {T}.
Arguments reportCleanup {T}.
Arguments reportEffect {T}.
Arguments reportResume {T}.
Arguments reportSettle {T}.

End Reporting.

(** ** lib/authStorage.ts *)

Module AuthStorage.

Definition TOKEN_KEY : string := "authToken".
Definition USER_KEY : string := "authUser".

(** A value produced by [JSON.parse]. Strings are lists of code units,
    numbers exact rationals. *)
#[local] Unset Elimination Schemes.
Inductive json :=
| JNull
| JBool (b : bool)
| JNumber (n : Q)
| JString (s : list N)
| JArray (items : list json)
| JObject (members : list (list N * json)).
#[local] Set Elimination Schemes.

(** The two platform functions [decodeJwtExp] calls; [None] stands for
    the exception they throw on bad input. *)
Record Platform := {
  atob : string -> option string;
  JSON_parse : string -> option json
}.

(** The code units of ["exp"]. *)
Definition exp_key : list N := [101; 120; 112]%N.

Definition key_eqb (a b : list N) : bool :=
  if decide (a = b) then true else false.

(** The member of that name that [JSON.parse] keeps: the last one. *)
Fixpoint member (name : list N) (ms : list (list N * json)) : option json :=
  match ms with
  | [] => None
  | (k, v) :: r =>
      match member name r with
      | Some v' => Some v'
      | None => if key_eqb k name then Some v else None
      end
  end.

(** [payload.exp]: [None] is the [TypeError] thrown on [null],
    [Some None] is [undefined]. *)
Definition payload_exp (payload : json) : option (option json) :=
  match payload with
  | JNull => None
  | JObject ms => Some (member exp_key ms)
  | _ => Some None
  end.

Section WithPlatform.
Variable platform : Platform.
(** [Date.now()], in milliseconds. *)
Variable now : Z.

Definition decodeJwtExp (token : string) : option Q :=
  let parts := Js.split "." token in
  if Z.of_nat (List.length parts) <? 2 then None
  else
    match parts !! 1%nat with
    | None => None
    | Some part =>
        let payloadBase64 := Js.replaceAll "_" "/" (Js.replaceAll "-" "+" part) in
        match atob platform payloadBase64 with
        | None => None
        | Some payloadJson =>
            match JSON_parse platform payloadJson with
            | None => None
            | Some payload =>
                match payload_exp payload with
                | Some (Some (JNumber exp)) => Some exp
                | _ => None
                end
            end
        end
    end.

Definition isTokenExpired (token : string) : bool :=
  match decodeJwtExp token with
  | None => false
  | Some exp =>
      if Qeq_bool exp 0 then false
      else
        let nowInSeconds := now / 1000 in
        Qle_bool exp (inject_Z nowInSeconds)
  end.

(** [loadAuthToken()] on a given [localStorage]: the returned token
    and the storage afterwards. [window] tells whether [window] is
    defined. *)
Definition loadAuthToken (window : bool) (localStorage : gmap string string)
    : option string * gmap string string :=
  if negb window then (None, localStorage)
  else
    match localStorage !! TOKEN_KEY with
    | None => (None, localStorage)
    | Some token =>
        if negb (Js.truthy token) then (None, localStorage)
        else if isTokenExpired token
        then (None, delete USER_KEY (delete TOKEN_KEY localStorage))
        else (Some token, localStorage)
    end.

End WithPlatform.

End AuthStorage.

(** ** The browser's [atob] and [JSON.parse]

    One concrete [Platform], used to run the storage code on actual
    tokens. Number literals are read exactly; their rounding to a double
    is not modelled. *)

Module Browser.

Import AuthStorage.

Definition code (c : ascii) : N := N_of_ascii c.

(** *** [atob]: forgiving base64 decoding *)

Definition is_ascii_whitespace (c : ascii) : bool :=
  let n := code c in
  (N.eqb n 9 || N.eqb n 10 || N.eqb n 12 || N.eqb n 13 || N.eqb n 32)%bool.

Definition base64_value (c : ascii) : option N :=
  let n := code c in
  if (N.leb 65 n && N.leb n 90)%bool then Some (n - 65)%N
  else if (N.leb 97 n && N.leb n 122)%bool then Some (n - 71)%N
  else if (N.leb 48 n && N.leb n 57)%bool then Some (n + 4)%N
  else if N.eqb n 43 then Some 62%N
  else if N.eqb n 47 then Some 63%N
  else None.

(** Removes one or two trailing ['='] (the list is reversed). *)
Definition strip_padding_rev (rcs : list ascii) : list ascii :=
  match rcs with
  | c1 :: c2 :: r =>
      if N.eqb (code c1) 61
      then (if N.eqb (code c2) 61 then r else c2 :: r)
      else rcs
  | [c1] => if N.eqb (code c1) 61 then [] else rcs
  | [] => []
  end.

Fixpoint base64_values (cs : list ascii) : option (list N) :=
  match cs with
  | [] => Some []
  | c :: r =>
      match base64_value c, base64_values r with
      | Some v, Some vs => Some (v :: vs)
      | _, _ => None
      end
  end.

Definition byte (n : N) : ascii := ascii_of_N (n mod 256).

Fixpoint base64_bytes (vs : list N) : list ascii :=
  match vs with
  | a :: b :: c :: d :: r =>
      let w := (a * 262144 + b * 4096 + c * 64 + d)%N in
      byte (w / 65536) :: byte (w / 256) :: byte w :: base64_bytes r
  | [a; b; c] =>
      let w := ((a * 4096 + b * 64 + c) / 4)%N in
      [byte (w / 256); byte w]
  | [a; b] =>
      let w := ((a * 64 + b) / 16)%N in
      [byte w]
  | _ => []
  end.

Definition atob (s : string) : option string :=
  let cs := List.filter (fun c => negb (is_ascii_whitespace c)) (list_ascii_of_string s) in
  let cs := if Nat.eqb (List.length cs mod 4) 0
            then rev (strip_padding_rev (rev cs)) else cs in
  if Nat.eqb (List.length cs mod 4) 1 then None
  else match base64_values cs with
       | Some vs => Some (string_of_list_ascii (base64_bytes vs))
       | None => None
       end.

(** *** [JSON.parse] *)

Definition is_json_whitespace (c : ascii) : bool :=
  let n := code c in
  (N.eqb n 32 || N.eqb n 9 || N.eqb n 10 || N.eqb n 13)%bool.

Fixpoint skip_ws (cs : list ascii) : list ascii :=
  match cs with
  | c :: r => if is_json_whitespace c then skip_ws r else cs
  | [] => []
  end.

(** Strips the literal [lit] from the front of [cs]. *)
Fixpoint expect (lit cs : list ascii) : option (list ascii) :=
  match lit with
  | [] => Some cs
  | l :: lit' =>
      match cs with
      | c :: r => if Ascii.eqb c l then expect lit' r else None
      | [] => None
      end
  end.

Definition digit (c : ascii) : option Z :=
  let n := code c in
  if (N.leb 48 n && N.leb n 57)%bool then Some (Z.of_N n - 48) else None.

Definition hex_digit (c : ascii) : option N :=
  let n := code c in
  if (N.leb 48 n && N.leb n 57)%bool then Some (n - 48)%N
  else if (N.leb 65 n && N.leb n 70)%bool then Some (n - 55)%N
  else if (N.leb 97 n && N.leb n 102)%bool then Some (n - 87)%N
  else None.

(** The longest run of digits at the front: its digits and the rest. *)
Fixpoint take_digits (cs : list ascii) : list Z * list ascii :=
  match cs with
  | c :: r =>
      match digit c with
      | Some d => let (ds, rest) := take_digits r in (d :: ds, rest)
      | None => ([], cs)
      end
  | [] => ([], [])
  end.

Definition digits_value (ds : list Z) : Z :=
  fold_left (fun acc d => 10 * acc + d) ds 0.

(** The integer part: a lone [0], or a run of digits not starting
    with [0]. *)
Definition parse_int (cs : list ascii) : option (Z * list ascii) :=
  match cs with
  | c :: r =>
      match digit c with
      | Some 0 => Some (0, r)
      | Some _ => let (ds, rest) := take_digits cs in Some (digits_value ds, rest)
      | None => None
      end
  | [] => None
  end.

(** The optional fraction: its digits (none when absent) and the rest. *)
Definition parse_frac (cs : list ascii) : option (list Z * list ascii) :=
  match cs with
  | c :: r =>
      if N.eqb (code c) 46
      then match take_digits r with
           | ([], _) => None
           | (ds, rest) => Some (ds, rest)
           end
      else Some ([], cs)
  | [] => Some ([], [])
  end.

(** The optional exponent (0 when absent) and the rest. *)
Definition parse_exp (cs : list ascii) : option (Z * list ascii) :=
  match cs with
  | c :: r =>
      if (N.eqb (code c) 101 || N.eqb (code c) 69)%bool
      then
        let (sign, r') :=
          match r with
          | s :: r' =>
              if N.eqb (code s) 45 then (-1, r')
              else if N.eqb (code s) 43 then (1, r')
              else (1, r)
          | [] => (1, r)
          end in
        match take_digits r' with
        | ([], _) => None
        | (ds, rest) => Some (sign * digits_value ds, rest)
        end
      else Some (0, cs)
  | [] => Some (0, [])
  end.

Definition parse_number (cs : list ascii) : option (Q * list ascii) :=
  let (sign, cs) :=
    match cs with
    | c :: r => if N.eqb (code c) 45 then (-1, r) else (1, cs)
    | [] => (1, cs)
    end in
  match parse_int cs with
  | None => None
  | Some (i, cs) =>
      match parse_frac cs with
      | None => None
      | Some (fs, cs) =>
          match parse_exp cs with
          | None => None
          | Some (e, cs) =>
              let mantissa := sign * (i * 10 ^ Z.of_nat (List.length fs) + digits_value fs) in
              Some (Qmult (inject_Z mantissa)
                          (Qpower (inject_Z 10) (e - Z.of_nat (List.length fs))),
                    cs)
          end
      end
  end.

(** The characters of a string after its opening quote, up to and
    including the closing one. *)
Fixpoint parse_string (cs : list ascii) : option (list N * list ascii) :=
  match cs with
  | [] => None
  | c :: r =>
      if N.eqb (code c) 34 then Some ([], r)
      else if N.eqb (code c) 92 then
        match r with
        | e :: r' =>
            let simple (u : N) :=
              match parse_string r' with
              | Some (s, rest) => Some (u :: s, rest)
              | None => None
              end in
            let n := code e in
            if N.eqb n 34 then simple 34%N
            else if N.eqb n 92 then simple 92%N
            else if N.eqb n 47 then simple 47%N
            else if N.eqb n 98 then simple 8%N
            else if N.eqb n 102 then simple 12%N
            else if N.eqb n 110 then simple 10%N
            else if N.eqb n 114 then simple 13%N
            else if N.eqb n 116 then simple 9%N
            else if N.eqb n 117 then
              match r' with
              | h1 :: h2 :: h3 :: h4 :: r'' =>
                  match hex_digit h1, hex_digit h2, hex_digit h3, hex_digit h4 with
                  | Some a, Some b, Some c', Some d =>
                      match parse_string r'' with
                      | Some (s, rest) =>
                          Some ((a * 4096 + b * 256 + c' * 16 + d)%N :: s, rest)
                      | None => None
                      end
                  | _, _, _, _ => None
                  end
              | _ => None
              end
            else None
        | [] => None
        end
      else if N.ltb (code c) 32 then None
      else match parse_string r with
           | Some (s, rest) => Some (code c :: s, rest)
           | None => None
           end
  end.

(** A value, then (in [parse_elements] and [parse_members]) what
    follows the first element or member of an array or object. *)
Fixpoint parse_value (fuel : nat) (cs : list ascii) : option (json * list ascii) :=
  match fuel with
  | O => None
  | S fuel =>
      match skip_ws cs with
      | [] => None
      | c :: r =>
          let n := code c in
          if N.eqb n 110 then
            match expect (list_ascii_of_string "ull") r with
            | Some rest => Some (JNull, rest) | None => None end
          else if N.eqb n 116 then
            match expect (list_ascii_of_string "rue") r with
            | Some rest => Some (JBool true, rest) | None => None end
          else if N.eqb n 102 then
            match expect (list_ascii_of_string "alse") r with
            | Some rest => Some (JBool false, rest) | None => None end
          else if N.eqb n 34 then
            match parse_string r with
            | Some (s, rest) => Some (JString s, rest) | None => None end
          else if N.eqb n 91 then
            match skip_ws r with
            | c' :: r' =>
                if N.eqb (code c') 93 then Some (JArray [], r')
                else match parse_elements fuel r with
                     | Some (items, rest) => Some (JArray items, rest)
                     | None => None
                     end
            | [] => None
            end
          else if N.eqb n 123 then
            match skip_ws r with
            | c' :: r' =>
                if N.eqb (code c') 125 then Some (JObject [], r')
                else match parse_members fuel r with
                     | Some (ms, rest) => Some (JObject ms, rest)
                     | None => None
                     end
            | [] => None
            end
          else
            match parse_number (c :: r) with
            | Some (q, rest) => Some (JNumber q, rest) | None => None end
      end
  end
with parse_elements (fuel : nat) (cs : list ascii) : option (list json * list ascii) :=
  match fuel with
  | O => None
  | S fuel =>
      match parse_value fuel cs with
      | None => None
      | Some (v, rest) =>
          match skip_ws rest with
          | c :: r =>
              if N.eqb (code c) 93 then Some ([v], r)
              else if N.eqb (code c) 44 then
                match parse_elements fuel r with
                | Some (vs, rest') => Some (v :: vs, rest')
                | None => None
                end
              else None
          | [] => None
          end
      end
  end
with parse_members (fuel : nat) (cs : list ascii)
    : option (list (list N * json) * list ascii) :=
  match fuel with
  | O => None
  | S fuel =>
      match skip_ws cs with
      | q :: r =>
          if N.eqb (code q) 34 then
            match parse_string r with
            | None => None
            | Some (k, rest) =>
                match skip_ws rest with
                | colon :: r' =>
                    if N.eqb (code colon) 58 then
                      match parse_value fuel r' with
                      | None => None
                      | Some (v, rest') =>
                          match skip_ws rest' with
                          | c :: r'' =>
                              if N.eqb (code c) 125 then Some ([(k, v)], r'')
                              else if N.eqb (code c) 44 then
                                match parse_members fuel r'' with
                                | Some (ms, rest'') => Some ((k, v) :: ms, rest'')
                                | None => None
                                end
                              else None
                          | [] => None
                          end
                      end
                    else None
                | [] => None
                end
            end
          else None
      | [] => None
      end
  end.

(** [JSON.parse(text)]: one value, then nothing but white space. Of two
    nested calls at least one follows a consumed character, so a fuel of
    twice the length of the text is never what stops the parser. *)
Definition JSON_parse (text : string) : option json :=
  let cs := list_ascii_of_string text in
  match parse_value (2 * List.length cs + 2) cs with
  | Some (v, rest) =>
      match skip_ws rest with
      | [] => Some v
      | _ => None
      end
  | None => None
  end.

Definition platform : Platform :=
  {| AuthStorage.atob := atob; AuthStorage.JSON_parse := JSON_parse |}.

End Browser.

(** ** components/tables/DataTableShell: the pagination control *)

Module Pagination.

Import DataTableShell.

Inductive PageItem :=
| Page (page : Z)
| Ellipsis (key : string).

(** The page sizes offered by the selector. *)
Definition pageSizes (pageSizeOptions : option (list Z)) : list Z :=
  match pageSizeOptions with
  | Some (size :: sizes) => size :: sizes
  | _ => [10; 25; 50; 100]
  end.

Definition safeTotalPages (totalPages : Z) : Z :=
  if totalPages >? 0 then totalPages else 1.

Definition safeCurrentPage (currentPage totalPages : Z) : Z :=
  Z.min (Z.max currentPage 1) (safeTotalPages totalPages).

Definition canPrev (currentPage totalPages : Z) : bool :=
  safeCurrentPage currentPage totalPages >? 1.

Definition canNext (currentPage totalPages : Z) : bool :=
  safeCurrentPage currentPage totalPages <? safeTotalPages totalPages.

(** [for (let page = a; page <= b; page++) addPage(page)] *)
Definition addPages (a b : Z) : list PageItem :=
  map (fun i => Page (a + Z.of_nat i)) (seq 0 (Z.to_nat (b - a + 1))).

Definition pageItems (currentPage totalPages : Z) : list PageItem :=
  let safeTotalPages := safeTotalPages totalPages in
  let safeCurrentPage := safeCurrentPage currentPage totalPages in
  if safeTotalPages <=? 7 then
    map (fun index => Page (Z.of_nat index + 1)) (seq 0 (Z.to_nat safeTotalPages))
  else if safeCurrentPage <=? 4 then
    addPages 1 5 ++ [Ellipsis "end"; Page safeTotalPages]
  else if safeCurrentPage >=? safeTotalPages - 3 then
    [Page 1; Ellipsis "start"] ++ addPages (safeTotalPages - 4) safeTotalPages
  else
    [Page 1; Ellipsis "start"]
    ++ addPages (safeCurrentPage - 1) (safeCurrentPage + 1)
    ++ [Ellipsis "end"; Page safeTotalPages].

(** The page numbers among the items, in order. *)
Fixpoint pageNumbers (items : list PageItem) : list Z :=
  match items with
  | [] => []
  | Page p :: rest => p :: pageNumbers rest
  | Ellipsis _ :: rest => pageNumbers rest
  end.

(** The five click handlers: the page each passes to [onPageChange], or
    [None] when it returns early. *)
Definition handleFirst (currentPage totalPages : Z) : option Z :=
  if negb (canPrev currentPage totalPages) then None else Some 1.

Definition handlePrev (currentPage totalPages : Z) : option Z :=
  if negb (canPrev currentPage totalPages) then None
  else Some (safeCurrentPage currentPage totalPages - 1).

Definition handleNext (currentPage totalPages : Z) : option Z :=
  if negb (canNext currentPage totalPages) then None
  else Some (safeCurrentPage currentPage totalPages + 1).

Definition handleLast (currentPage totalPages : Z) : option Z :=
  if negb (canNext currentPage totalPages) then None
  else Some (safeTotalPages totalPages).

Definition handlePageClick (currentPage totalPages page : Z) : option Z :=
  if page =? safeCurrentPage currentPage totalPages then None else Some page.

Inductive PagerClick :=
| ClickFirst
| ClickPrev
| ClickNext
| ClickLast
| ClickPage (page : Z).

Definition handleClick (currentPage totalPages : Z) (c : PagerClick) : option Z :=
  match c with
  | ClickFirst => handleFirst currentPage totalPages
  | ClickPrev => handlePrev currentPage totalPages
  | ClickNext => handleNext currentPage totalPages
  | ClickLast => handleLast currentPage totalPages
  | ClickPage page => handlePageClick currentPage totalPages page
  end.

(** The control as [ServerDataTable] wires it: [currentPage] and
    [totalPages] come from [getDataTablePaging], [onPageChange] is its
    [goToPage], and the result is the page index handed to
    [setPageIndex] (the current one when the handler returns early). *)
Definition navigate (pageIndex pageSize recordsTotal recordsFiltered : Z)
    (c : PagerClick) : Z :=
  let p := getDataTablePaging pageIndex pageSize recordsTotal recordsFiltered in
  match handleClick (currentPage p) (totalPages p) c with
  | Some page => goToPage p page
  | None => pageIndex
  end.

End Pagination.

(** ** components/tables/ServerDataTable.tsx: the event handlers *)

Module TableHandlers.

Import DataTableShell ServerDataTable.

(** The state of the component that the handlers write: its own cells
    and the page index and page size cells of the hook. *)
Record Controller := {
  component : ComponentState;
  pageIndex : Z;
  pageSize : Z
}.

(** [handleSort(columnIndex)] *)
Definition handleSort (columnIndex : Z) (t : Controller) : Controller :=
  let c := component t in
  {| component :=
       if c_sortColumn c =? columnIndex
       then {| c_sortColumn := c_sortColumn c;
               c_sortDir := match c_sortDir c with asc => desc | desc => asc end;
               c_filterState := c_filterState c;
               c_search := c_search c |}
       else {| c_sortColumn := columnIndex;
               c_sortDir := asc;
               c_filterState := c_filterState c;
               c_search := c_search c |};
     pageIndex := 0;
     pageSize := pageSize t |}.

(** The updater [handleResetFilters] hands to [setFilterState]. *)
Definition resetFilterState (prev : FilterState) : FilterState :=
  if decide (size prev = 0%nat) then prev
  else (fun _ => ""%string) <$> prev.

(** [handleResetFilters()]; [resetSearch()] leaves the committed search
    empty. *)
Definition handleResetFilters (t : Controller) : Controller :=
  let c := component t in
  {| component := {| c_sortColumn := c_sortColumn c;
                     c_sortDir := c_sortDir c;
                     c_filterState := resetFilterState (c_filterState c);
                     c_search := "" |};
     pageIndex := 0;
     pageSize := pageSize t |}.

(** [onPageSizeChange] *)
Definition onPageSizeChange (nextSize : Z) (t : Controller) : Controller :=
  {| component := component t; pageIndex := 0; pageSize := nextSize |}.

(** The query the hook builds for the controller's state. *)
Definition currentQuery (props : ServerDataTableProps) (authToken : option string)
    (t : Controller) : URLSearchParams :=
  buildDataTablesQueryParams
    (buildQueryOptions (hookOptions props authToken (component t))
                       (pageIndex t) (pageSize t)).

(** What every entry of the derived extraFilters satisfies: no key
    twice, and under each key the trimmed, non-blank value of the state. *)
Definition faithful (fs : FilterState) (ef : JsRecord FilterValue) : Prop :=
  NoDup (map fst ef)
  /\ forall k v, record_get k ef = Some v ->
       v = FString (trimmedValue fs k) /\ trimmedValue fs k <> ""%string.

(** The base query of a table: first page, no search, no filter. *)
Definition baseQuery (pageSize sortColumn : Z) (sortDir : SortDir) : URLSearchParams :=
  [("draw", "1"); ("start", "0"); ("length", Js.String_of_number pageSize);
   ("order[0][column]", Js.String_of_number sortColumn);
   ("order[0][dir]", SortDir_to_string sortDir)]%string.

(** [setPageIndex(index)] as given to the pagination control, to
    [goToPage] and to the handlers. *)
Definition setPageIndex (index : Z) (t : Controller) : Controller :=
  {| component := component t; pageIndex := index; pageSize := pageSize t |}.

(** The effect of [useDebouncedSearch] as it runs inside
    [ServerDataTable]. The component passes [onCommit: () =>
    setPageIndex(0)], a closure created anew by every render; it is a
    dependency of the effect, so the effect runs after every render of
    the component, whatever caused the render. The committed search is
    the [search] cell the component reads back. *)
Definition renderEffect (o : DebouncedSearchOptions) (ts : Controller * SearchState)
    : Controller * SearchState :=
  let (t, st) := ts in
  let st := clearTimeout st in
  let trimmed := Js.trim (pendingSearch st) in
  if (Js.length trimmed >=? minLength o) || (Js.length trimmed =? 0)
  then
    let c := component t in
    ({| component := {| c_sortColumn := c_sortColumn c;
                        c_sortDir := c_sortDir c;
                        c_filterState := c_filterState c;
                        c_search := trimmed |};
        pageIndex := 0;
        pageSize := pageSize t |},
     commit trimmed st)
  else
    (t, {| search := search st; pendingSearch := pendingSearch st;
           timer := Some (delayMs o, trimmed); commits := commits st |}).

(** A click on the pagination control, then the render it causes. *)
Definition clickAndRender (o : DebouncedSearchOptions)
    (recordsTotal recordsFiltered : Z) (c : Pagination.PagerClick)
    (ts : Controller * SearchState) : Controller * SearchState :=
  let (t, st) := ts in
  renderEffect o
    (setPageIndex
       (Pagination.navigate (pageIndex t) (pageSize t) recordsTotal recordsFiltered c) t,
     st).

End TableHandlers.

(** ** Shape of the queries of the builder *)

Module QueryShape.

Import DataTableShell.

(** The two invariants of the builder's parameter list: each name once,
    no empty value. *)
Definition well_formed (ps : URLSearchParams) : Prop :=
  NoDup (map fst ps) /\ Forall (fun p => snd p <> ""%string) ps.

(** The parameter names the builder sets itself. *)
Definition fixed_names : list string :=
  ["draw"; "start"; "length"; "search[value]"; "order[0][column]"; "order[0][dir]"]%string.

End QueryShape.

(** ** Invariants of the debounced search *)

Module SearchInvariants.

Import DataTableShell.

(** No event of the run lets time go backwards. *)
Definition forward (e : SearchEvent) : Prop :=
  match e with
  | Wait ms => 0 <= ms
  | _ => True
  end.

(** With no commit scheduled the committed search is the trimmed pending
    value; a scheduled commit is for the trimmed pending value and is
    due within [delayMs]. *)
Definition settled_or_due (o : DebouncedSearchOptions) (st : SearchState) : Prop :=
  match timer st with
  | Some (remaining, t) =>
      t = Js.trim (pendingSearch st) /\ ~ immediate o t /\ remaining <= delayMs o
  | None => search st = Js.trim (pendingSearch st)
  end.

(** Every value handed to [onCommit] so far, and the value of a
    scheduled commit, is its own trimmed form. *)
Definition commits_trimmed (st : SearchState) : Prop :=
  Forall (fun v => Js.trim v = v) (commits st)
  /\ match timer st with
     | Some (_, t) => Js.trim t = t
     | None => True
     end.

End SearchInvariants.

(** ** components/common/GlobalLoadingProvider.tsx *)

Module GlobalLoading.

(** The two operations of the provider on its [count] cell. *)
Definition startLoading (count : Z) : Z := count + 1.

Definition stopLoading (count : Z) : Z := if count >? 0 then count - 1 else 0.

Definition isLoading (count : Z) : bool := count >? 0.

Inductive Call :=
| Start
| Stop.

Definition call (count : Z) (c : Call) : Z :=
  match c with
  | Start => startLoading count
  | Stop => stopLoading count
  end.

(** The count after a sequence of calls, from a given count. *)
Definition countAfter (count : Z) (calls : list Call) : Z :=
  fold_left call calls count.

End GlobalLoading.

(** ** Runs of a reporting hook *)

Module ReportingRun.

Import Reporting.

Section Run.
Variable T : Type.

Inductive ReportEvent :=
| EffectRun (token : option string)
| SettleLoad (i : nat) (outcome : list T + HttpClient.Thrown).

Definition reportStep (k : ReportingHook) (h : Hook T) (e : ReportEvent) : Hook T :=
  match e with
  | EffectRun token => reportEffect k token h
  | SettleLoad i outcome => reportSettle k i outcome h
  end.

Definition reportRun (k : ReportingHook) (es : list ReportEvent) : Hook T :=
  fold_left (reportStep k) es mountReport.

(** The calls a step makes on the global loading provider:
    [startLoading()] at the start of [load], [stopLoading()] in its
    [finally]. *)
Definition stepCalls (h : Hook T) (e : ReportEvent) : list GlobalLoading.Call :=
  match e with
  | EffectRun token => if Js.truthy_opt token then [GlobalLoading.Start] else []
  | SettleLoad i _ =>
      match loads h !! i with
      | Some l => if finished l then [] else [GlobalLoading.Stop]
      | None => []
      end
  end.

(** The calls of a sequence of events, from the hook state [h]. *)
Fixpoint runCalls (k : ReportingHook) (h : Hook T) (es : list ReportEvent)
    : list GlobalLoading.Call :=
  match es with
  | [] => []
  | e :: es => stepCalls h e ++ runCalls k (reportStep k h e) es
  end.

(** The number of loads whose [try] block has not finished. *)
Definition inFlight (h : Hook T) : nat :=
  List.length (List.filter (fun l => negb (finished l)) (loads h)).

(** Only the load of the last effect run is not cancelled. *)
Definition latest_only (h : Hook T) : Prop :=
  forall i l, loads h !! i = Some l ->
    (cancelled l = false <-> active h = Some i).

(** The loading flag is on exactly while the load of the last effect
    run is unfinished. *)
Definition loading_tracks (h : Hook T) : Prop :=
  loading (state h) = true
  <-> exists n l, active h = Some n /\ loads h !! n = Some l /\ finished l = false.

End Run.

Arguments EffectRun {T}.
Arguments SettleLoad {T}.
Arguments reportStep {T}.
Arguments reportRun {T}.
Arguments stepCalls {T}.
Arguments runCalls {T}.
Arguments inFlight {T}.
Arguments latest_only {T}.
Arguments loading_tracks {T}.

(** The three hooks of the file. *)
Definition hooks : list ReportingHook :=
  [useTopTransactionsPerUser; useTransactionsVolume; useTopUsersLeaderboard].

End ReportingRun.

(** ** lib/authStorage.ts: the stored session, and context/AuthContext.tsx *)

Module AuthSession.

Import AuthStorage.

Record AuthUserData := { username : string }.

(** The code units of a string. *)
Definition code_units (s : string) : list N :=
  map N_of_ascii (list_ascii_of_string s).

(** The value [JSON.parse] yields for a stringified user. *)
Definition user_json (u : AuthUserData) : json :=
  JObject [(code_units "username", JString (code_units (username u)))].

Section WithPlatform.
Variable platform : Platform.
(** [JSON.stringify] on a user. *)
Variable JSON_stringify : AuthUserData -> string.
(** [Date.now()], in milliseconds. *)
Variable now : Z.

(** [loadAuthUser()]: the parsed value, [None] for [null]. *)
Definition loadAuthUser (window : bool) (localStorage : gmap string string)
    : option json :=
  if negb window then None
  else
    match localStorage !! USER_KEY with
    | None => None
    | Some storedUser =>
        if negb (Js.truthy storedUser) then None
        else
          match JSON_parse platform storedUser with
          | Some JNull => None
          | Some v => Some v
          | None => None
          end
    end.

Definition saveAuthSession (window : bool) (user : AuthUserData) (token : string)
    (localStorage : gmap string string) : gmap string string :=
  if negb window then localStorage
  else <[USER_KEY := JSON_stringify user]> (<[TOKEN_KEY := token]> localStorage).

Definition clearAuthSession (window : bool) (localStorage : gmap string string)
    : gmap string string :=
  if negb window then localStorage
  else delete USER_KEY (delete TOKEN_KEY localStorage).

(** The two state cells of [AuthProvider]. *)
Record AuthState := {
  user : option json;
  token : option string
}.

(** The lazy initialisers of the two cells, run in order on the first
    render: the state, and the storage [loadAuthToken] leaves. *)
Definition initAuth (localStorage : gmap string string)
    : AuthState * gmap string string :=
  let (token, localStorage) := loadAuthToken platform now true localStorage in
  ({| user := loadAuthUser true localStorage; token := token |}, localStorage).

Definition login (nextUser : AuthUserData) (nextToken : string)
    (localStorage : gmap string string) : AuthState * gmap string string :=
  ({| user := Some (user_json nextUser); token := Some nextToken |},
   saveAuthSession true nextUser nextToken localStorage).

Definition logout (localStorage : gmap string string)
    : AuthState * gmap string string :=
  ({| user := None; token := None |}, clearAuthSession true localStorage).

End WithPlatform.

(** No character of the string is a dot. *)
Fixpoint dot_free (s : string) : Prop :=
  match s with
  | EmptyString => True
  | String c r => c <> "."%char /\ dot_free r
  end.

(** [JSON.stringify] on a string: quotes, with the escapes of the
    characters that need one. *)
Definition hex_digit (n : N) : ascii :=
  ascii_of_N (if N.ltb n 10 then 48 + n else 87 + n).

Definition quote_char (c : ascii) : string :=
  let n := N_of_ascii c in
  if N.eqb n 34 then "\" ++ String c ""
  else if N.eqb n 92 then "\\"
  else if N.eqb n 8 then "\b"
  else if N.eqb n 12 then "\f"
  else if N.eqb n 10 then "\n"
  else if N.eqb n 13 then "\r"
  else if N.eqb n 9 then "\t"
  else if N.ltb n 32
       then "\u00" ++ String (hex_digit (n / 16)) (String (hex_digit (n mod 16)) "")
  else String c "".

Fixpoint quote_chars (s : string) : string :=
  match s with
  | EmptyString => EmptyString
  | String c r => quote_char c ++ quote_chars r
  end.

Definition quote (s : string) : string :=
  String (ascii_of_N 34) (quote_chars s ++ String (ascii_of_N 34) "").

(** [JSON.stringify(user)] for a user object. *)
Definition stringify_user (u : AuthUserData) : string :=
  ("{" ++ quote "username" ++ ":" ++ quote (username u) ++ "}")%string.

End AuthSession.

(** ** hooks/useReporting.ts: the [try] block of [useTransactionsVolume] *)

Module TransactionsVolume.

Inductive TxTypeFilter :=
| ALL
| DEBIT
| CREDIT.

(** A row of the transactions endpoint, as far as the hook reads it.
    The amount is an integer, so that sums are exact, as they are for
    JS numbers holding integers below 2^53. *)
Record Tx := {
  createdAt : string;
  amount : Z;
  tx_type : string
}.

Record VolumePoint := {
  date : string;
  totalAmount : Z;
  count : Z
}.

Definition pageSize : Z := 100.

Definition maxPages : nat := 20.

(** [s.padStart(2, "0")] *)
Definition padStart2 (s : string) : string :=
  match String.length s with
  | O => "00"
  | S O => "0" ++ s
  | _ => s
  end.

(** [formatDateForQuery(date)] on the local year, month (from 0) and
    day of the date. *)
Definition formatDateForQuery (d : Z * Z * Z) : string :=
  let '(year, month0, day0) := d in
  let month := padStart2 (Js.String_of_number (month0 + 1)) in
  let day := padStart2 (Js.String_of_number day0) in
  (Js.String_of_number year ++ "-" ++ month ++ "-" ++ day)%string.

(** The value [apiRequest] resolves to, as far as the loop reads it:
    [undefined] (a 204, a body that is not JSON) or [null], on which
    [response.data] throws a TypeError, or a value whose [data] is an
    array ([Some]) or anything else ([None]). *)
Inductive Response :=
| Nullish
| Value (data : option (list Tx)).

(** How the [await apiRequest(...)] of one page settles. *)
Inductive Settled :=
| Rejected (err : HttpClient.Thrown)
| Resolved (response : Response).

(** How [load] leaves the paging loop: past its end (by [break] or after
    [maxPages] pages) with the rows collected, by [if (cancelled)
    return], or by an exception on its way to the [catch] block. *)
Inductive LoopExit :=
| Completed (allRows : list Tx)
| Returned
| Caught (err : HttpClient.Thrown).

(** [Array.isArray(response.data) ? response.data : []] *)
Definition rowsOf (data : option (list Tx)) : list Tx :=
  match data with Some rows => rows | None => [] end.

(** The paging loop: [pages] iterations are left, [server start] is how
    the request with the given [start] settles, [cancelled start] is the
    flag the effect's cleanup sets, as read when that request has
    resolved, and [allRows] holds the rows pushed so far. Returns how the
    loop is left and the [start] of every request made. *)
Fixpoint fetchPages (pages : nat) (server : Z -> Settled) (cancelled : Z -> bool)
    (start : Z) (allRows : list Tx) : LoopExit * list Z :=
  match pages with
  | O => (Completed allRows, [])
  | S pages =>
      match server start with
      | Rejected err => (Caught err, [start])
      | Resolved response =>
          if cancelled start then (Returned, [start])
          else
            match response with
            | Nullish => (Caught HttpClient.ThrownOther, [start])
            | Value data =>
                let rows := rowsOf data in
                let allRows := allRows ++ rows in
                if Z.of_nat (List.length rows) <? pageSize then (Completed allRows, [start])
                else
                  let (exit, starts) :=
                    fetchPages pages server cancelled (start + pageSize) allRows in
                  (exit, start :: starts)
            end
      end
  end.

(** The loop as [load] runs it: [allRows] empty, [start] 0, [maxPages]
    iterations at most. *)
Definition loadPages (server : Z -> Settled) (cancelled : Z -> bool) : LoopExit * list Z :=
  fetchPages maxPages server cancelled 0 [].

(** The rows a request with the given [start] contributes: [rows] in the
    loop, nothing when the request does not get that far. *)
Definition page (server : Z -> Settled) (start : Z) : list Tx :=
  match server start with
  | Resolved (Value data) => rowsOf data
  | _ => []
  end.

(** What the loop needs of a request to go on to the next: it resolved,
    no cleanup was seen, and it brought at least [pageSize] rows. *)
Definition fullPage (server : Z -> Settled) (cancelled : Z -> bool) (s : Z) : Prop :=
  cancelled s = false
  /\ (exists data, server s = Resolved (Value data))
  /\ pageSize <= Z.of_nat (List.length (page server s)).

(** What a row adds to its bucket; [None] where the loop says
    [continue]. *)
Definition contribution (typeFilter : TxTypeFilter) (tx : Tx) : option Z :=
  let amountAbs := Z.abs (amount tx) in
  match typeFilter with
  | ALL =>
      if String.eqb (tx_type tx) "CREDIT" then Some amountAbs
      else if String.eqb (tx_type tx) "DEBIT" then Some (- amountAbs)
      else None
  | DEBIT => if negb (String.eqb (tx_type tx) "DEBIT") then None else Some amountAbs
  | CREDIT => if negb (String.eqb (tx_type tx) "CREDIT") then None else Some amountAbs
  end.

Section Aggregation.
(** [new Date(s)]: the local year, month (from 0) and day, or [None] for
    an invalid date. *)
Variable localDate : string -> option (Z * Z * Z).

(** The bucket key of a row, when the row is counted at all. *)
Definition bucketKey (tx : Tx) : option string :=
  option_map formatDateForQuery (localDate (createdAt tx)).

(** The body of the loop over [allRows], on the [buckets] map. *)
Definition addTx (typeFilter : TxTypeFilter) (buckets : gmap string (Z * Z)) (tx : Tx)
    : gmap string (Z * Z) :=
  match localDate (createdAt tx) with
  | None => buckets
  | Some created =>
      let key := formatDateForQuery created in
      let prev := match buckets !! key with Some b => b | None => (0, 0) end in
      match contribution typeFilter tx with
      | None => buckets
      | Some c => <[key := (fst prev + c, snd prev + 1)]> buckets
      end
  end.

Definition aggregate (typeFilter : TxTypeFilter) (rows : list Tx) : gmap string (Z * Z) :=
  fold_left (addTx typeFilter) rows ∅.

(** [a <= b] on strings as [sort()] compares them, code unit by code
    unit. *)
Definition string_le (a b : string) : Prop := String.leb a b = true.

#[export] Instance string_le_dec (a b : string) : Decision (string_le a b) :=
  decide (String.leb a b = true).

(** [Array.from(buckets.keys()).sort()] *)
Definition sortedDates (buckets : gmap string (Z * Z)) : list string :=
  merge_sort string_le (map fst (map_to_list buckets)).

Definition points (typeFilter : TxTypeFilter) (rows : list Tx) : list VolumePoint :=
  let buckets := aggregate typeFilter rows in
  map (fun d =>
         let bucket := match buckets !! d with Some b => b | None => (0, 0) end in
         {| date := d; totalAmount := fst bucket; count := snd bucket |})
      (sortedDates buckets).

(** The rows of day [d] that are counted, and what they add. *)
Definition counted (typeFilter : TxTypeFilter) (d : string) (rows : list Tx) : list Z :=
  omap (fun tx =>
          match bucketKey tx with
          | Some key => if String.eqb key d then contribution typeFilter tx else None
          | None => None
          end) rows.

Definition sum (l : list Z) : Z := fold_right Z.add 0 l.

(** A bucket after further contributions [cs]. *)
Definition extend (prev : option (Z * Z)) (cs : list Z) : option (Z * Z) :=
  match cs with
  | [] => prev
  | _ =>
      let b := match prev with Some b => b | None => (0, 0) end in
      Some (fst b + sum cs, snd b + Z.of_nat (List.length cs))
  end.

End Aggregation.

(** A server that pages through the rows [all], [pageSize] at a time,
    and answers every request. *)
Definition pager (all : list Tx) (start : Z) : Settled :=
  Resolved (Value (Some (take (Z.to_nat pageSize) (drop (Z.to_nat start) all)))).

End TransactionsVolume.

(* ================================================================== *)
(** * Properties *)

(** ** Paging calculator *)

Section PagingCalculator.
Import DataTableShell.

Lemma ceil_div_lt (a b k : Z) : 0 < b -> k < ceil_div a b -> k * b < a.
Proof.
  unfold ceil_div. intros Hb Hk.
  destruct (Z_lt_le_dec (k * b) a) as [|Hge]; [assumption|exfalso].
  assert (H : - k <= (- a) / b) by (apply Z.div_le_lower_bound; lia).
  lia.
Qed.

(** The end-to-end scenario of the specification: 57 records in total,
    none reported as filtered, ten rows a page. *)
Example paging_falls_back_to_recordsTotal :
  let p := getDataTablePaging 0 10 57 0 in
  totalForDisplay p = 57 /\ totalPages p = 6 /\ currentFrom p = 1 /\ currentTo p = 10.
Proof. vm_compute. repeat split. Qed.

(** C2, as stated, fails: on page index 5 with page size 10 and 7 records
    in total the range reads "51 to 7". *)
Lemma C2_currentFrom_le_currentTo_counterexample :
  let p := getDataTablePaging 5 10 7 0 in
  0 <= 5 /\ 0 < 10 /\ 0 < totalForDisplay p /\ ~ (currentFrom p <= currentTo p).
Proof. vm_compute. repeat split; congruence. Qed.

(** C2 (amended): for every pageIndex >= 0 and pageSize > 0, whenever
    totalForDisplay > 0 and the current page is one of the existing pages
    (currentPage <= totalPages), currentFrom <= currentTo. *)
Theorem C2_currentFrom_le_currentTo (pageIndex pageSize recordsTotal recordsFiltered : Z) :
  let p := getDataTablePaging pageIndex pageSize recordsTotal recordsFiltered in
  0 <= pageIndex -> 0 < pageSize -> 0 < totalForDisplay p ->
  currentPage p <= totalPages p ->
  currentFrom p <= currentTo p.
Proof.
  intros p Hi Hs Ht Hp. subst p. unfold getDataTablePaging in *. simpl in *.
  set (t := if recordsFiltered =? 0 then recordsTotal else recordsFiltered) in *.
  destruct (Z.gtb_spec pageSize 0) as [_|]; [|lia].
  destruct (Z.eqb_spec t 0) as [|_]; [lia|].
  assert (Hlt : pageIndex * pageSize < t).
  { apply ceil_div_lt; [lia|].
    destruct (Z.max_spec 1 (ceil_div t pageSize)) as [[? E]|[? E]]; rewrite E in Hp; [lia|].
    assert (pageIndex = 0) by lia. subst pageIndex.
    unfold ceil_div. assert ((- t) / pageSize < 0); [|lia].
    apply Z.div_lt_upper_bound; lia. }
  apply Z.min_glb; nia.
Qed.

Lemma C2_currentFrom_le_currentTo_witness :
  let p := getDataTablePaging 5 10 57 0 in
  (0 <= 5 /\ 0 < 10 /\ 0 < totalForDisplay p /\ currentPage p <= totalPages p)
  /\ currentFrom p <= currentTo p.
Proof.
  split; [vm_compute; repeat split; congruence|].
  apply (C2_currentFrom_le_currentTo 5 10 57 0); vm_compute; congruence.
Defined.

End PagingCalculator.

(** ** Authorization header *)

Section AuthorizationHeader.
Import HttpClient.

Lemma startsWith_app (p s : string) : Js.startsWith (p ++ s) p = true.
Proof.
  induction p as [|c p IH]; [reflexivity|].
  change (Js.startsWith (String c p ++ s) (String c p))
    with (Ascii.eqb c c && Js.startsWith (p ++ s) p).
  now rewrite Ascii.eqb_refl.
Qed.

(** C10: buildAuthHeader is idempotent. For every non-empty token the
    result starts with "Bearer " and is a fixed point of buildAuthHeader;
    for an empty or null token no header is returned. *)
Theorem C10_buildAuthHeader_idempotent :
  (forall t : string, t <> EmptyString ->
     exists h, buildAuthHeader (Some t) = Some h
               /\ Js.startsWith h "Bearer " = true
               /\ buildAuthHeader (Some h) = Some h)
  /\ buildAuthHeader (Some EmptyString) = None
  /\ buildAuthHeader None = None.
Proof.
  split; [|split; reflexivity].
  intros t Ht. unfold buildAuthHeader.
  destruct t as [|c t]; [congruence|]. cbn [Js.truthy].
  destruct (Js.startsWith (String c t) "Bearer ") eqn:E.
  - exists (String c t). cbn [Js.truthy]. now rewrite E.
  - exists ("Bearer " ++ String c t)%string.
    assert (P : Js.startsWith ("Bearer " ++ String c t) "Bearer " = true)
      by apply startsWith_app.
    split; [reflexivity|]. split; [exact P|].
    change (Js.truthy ("Bearer " ++ String c t)) with true. cbv iota.
    now rewrite P.
Qed.

(** [apiRequest] attaches exactly the header [buildAuthHeader] computes. *)
Lemma apiRequest_send_authorization (p : string) (q : list (string * string))
    (token : option string) :
  authorization (apiRequest_send p q token) = buildAuthHeader token.
Proof. reflexivity. Qed.

End AuthorizationHeader.

(** ** Debounced search *)

Section DebouncedSearch.
Import DataTableShell.

Lemma immediate_test (o : DebouncedSearchOptions) (t : string) :
  (Js.length t >=? minLength o) || (Js.length t =? 0) = true <-> immediate o t.
Proof.
  unfold immediate. rewrite orb_true_iff, Z.geb_le, Z.eqb_eq. lia.
Qed.

Lemma searchEffect_immediate (o : DebouncedSearchOptions) (st : SearchState) :
  immediate o (Js.trim (pendingSearch st)) ->
  searchEffect o st =
    {| search := Js.trim (pendingSearch st); pendingSearch := pendingSearch st;
       timer := None; commits := commits st ++ [Js.trim (pendingSearch st)] |}.
Proof.
  intros H. apply immediate_test in H.
  unfold searchEffect, clearTimeout, commit. cbn [pendingSearch search timer commits].
  now rewrite H.
Qed.

Lemma searchEffect_deferred (o : DebouncedSearchOptions) (st : SearchState) :
  ~ immediate o (Js.trim (pendingSearch st)) ->
  searchEffect o st =
    {| search := search st; pendingSearch := pendingSearch st;
       timer := Some (delayMs o, Js.trim (pendingSearch st)); commits := commits st |}.
Proof.
  intros H. rewrite <- immediate_test in H. apply not_true_is_false in H.
  unfold searchEffect, clearTimeout, commit. cbn [pendingSearch search timer commits].
  now rewrite H.
Qed.

Lemma immediate_dec (o : DebouncedSearchOptions) (t : string) :
  immediate o t \/ ~ immediate o t.
Proof. unfold immediate. lia. Qed.

Lemma trim_empty_immediate (o : DebouncedSearchOptions) : immediate o (Js.trim "").
Proof. right. reflexivity. Qed.

(** C7: on every change of pendingSearch the value is trimmed; a trimmed
    value of length >= minLength or of length 0 is committed to search at
    once; any other is committed after delayMs without a further change
    and not before; the commit scheduled earlier is cancelled (the old
    timer has no influence on the outcome); reset() clears both values
    and commits the empty string at once. *)
Theorem C7_debounced_search (o : DebouncedSearchOptions) (st : SearchState) (v : string) :
  v <> pendingSearch st ->
  let trimmed := Js.trim v in
  let st' := setPendingSearch o v st in
  pendingSearch st' = v
  /\ (immediate o trimmed ->
        search st' = trimmed /\ commits st' = commits st ++ [trimmed]
        /\ timer st' = None)
  /\ (~ immediate o trimmed ->
        search st' = search st /\ commits st' = commits st
        /\ timer st' = Some (delayMs o, trimmed)
        /\ (forall ms, ms < delayMs o ->
              search (elapse ms st') = search st
              /\ commits (elapse ms st') = commits st)
        /\ (forall ms, delayMs o <= ms ->
              search (elapse ms st') = trimmed
              /\ commits (elapse ms st') = commits st ++ [trimmed]
              /\ timer (elapse ms st') = None))
  /\ st' = setPendingSearch o v (clearTimeout st)
  /\ (search (reset o st) = ""%string
      /\ pendingSearch (reset o st) = ""%string
      /\ exists again, commits (reset o st) = commits st ++ ""%string :: again).
Proof.
  intros Hv trimmed st'.
  assert (E : st' = searchEffect o {| search := search st; pendingSearch := v;
                                      timer := timer st; commits := commits st |}).
  { subst st'. unfold setPendingSearch.
    destruct (String.eqb_spec v (pendingSearch st)); [contradiction|reflexivity]. }
  split; [|split; [|split; [|split]]].
  - rewrite E. destruct (immediate_dec o (Js.trim v)) as [H|H].
    + now rewrite searchEffect_immediate.
    + now rewrite searchEffect_deferred.
  - intros Hi. rewrite E, searchEffect_immediate by exact Hi. cbn. repeat split.
  - intros Hd. rewrite E, searchEffect_deferred by exact Hd. cbn.
    repeat split; unfold elapse; cbn.
    + destruct (Z.leb_spec (delayMs o) ms); [lia|reflexivity].
    + destruct (Z.leb_spec (delayMs o) ms); [lia|reflexivity].
    + destruct (Z.leb_spec (delayMs o) ms); [reflexivity|lia].
    + destruct (Z.leb_spec (delayMs o) ms); [reflexivity|lia].
    + destruct (Z.leb_spec (delayMs o) ms); [reflexivity|lia].
  - subst st'. unfold setPendingSearch. cbn.
    destruct (String.eqb_spec v (pendingSearch st)); [contradiction|reflexivity].
  - unfold reset.
    destruct (String.eqb (pendingSearch st) ""); cbn.
    + repeat split. exists []. reflexivity.
    + rewrite searchEffect_immediate by apply trim_empty_immediate. cbn.
      repeat split. exists [""%string]. now rewrite <- app_assoc.
Qed.

Lemma C7_debounced_search_witness :
  let o := defaultSearchOptions in
  let st := mountSearch o in
  "ab"%string <> pendingSearch st
  /\ timer (setPendingSearch o "ab" st) = Some (2500, "ab"%string)
  /\ search (elapse 2500 (setPendingSearch o "ab" st)) = "ab"%string.
Proof.
  intros o st.
  assert (Hne : "ab"%string <> pendingSearch st) by (vm_compute; congruence).
  split; [exact Hne|].
  destruct (C7_debounced_search o st "ab" Hne) as (_ & _ & Hd & _).
  assert (Hn : ~ immediate o (Js.trim "ab")).
  { unfold immediate. vm_compute. intros [H|H]; [apply H; reflexivity|discriminate]. }
  destruct (Hd Hn) as (_ & _ & Ht & _ & Hlate).
  split; [exact Ht|].
  apply (Hlate 2500). vm_compute. congruence.
Defined.

Lemma searchEffect_tracks (o : DebouncedSearchOptions) (st : SearchState) :
  timer_tracks_pending o (searchEffect o st).
Proof.
  destruct (immediate_dec o (Js.trim (pendingSearch st))) as [H|H].
  - rewrite searchEffect_immediate by exact H. exact I.
  - rewrite searchEffect_deferred by exact H. split; [reflexivity|exact H].
Qed.


Lemma setPendingSearch_tracks (o : DebouncedSearchOptions) (v : string) (st : SearchState) :
  timer_tracks_pending o st -> timer_tracks_pending o (setPendingSearch o v st).
Proof.
  intros H. unfold setPendingSearch.
  destruct (String.eqb v (pendingSearch st)); [exact H|apply searchEffect_tracks].
Qed.

Lemma elapse_tracks (o : DebouncedSearchOptions) (ms : Z) (st : SearchState) :
  timer_tracks_pending o st -> timer_tracks_pending o (elapse ms st).
Proof.
  unfold timer_tracks_pending, elapse. destruct (timer st) as [[r t]|] eqn:E.
  - intros H. destruct (r <=? ms); cbn; [exact I|exact H].
  - intros _. now rewrite E.
Qed.

Lemma reset_no_timer (o : DebouncedSearchOptions) (st : SearchState) :
  timer_tracks_pending o st -> timer (reset o st) = None.
Proof.
  intros H. unfold reset. destruct (String.eqb_spec (pendingSearch st) "") as [E|_].
  - cbn. unfold timer_tracks_pending in H. destruct (timer st) as [[r t]|]; [|reflexivity].
    destruct H as [-> H]. rewrite E in H. destruct H. apply trim_empty_immediate.
  - now rewrite searchEffect_immediate by apply trim_empty_immediate.
Qed.

Lemma searchStep_tracks (o : DebouncedSearchOptions) (st : SearchState) (e : SearchEvent) :
  timer_tracks_pending o st -> timer_tracks_pending o (searchStep o st e).
Proof.
  intros H. destruct e as [v|ms|]; cbn.
  - now apply setPendingSearch_tracks.
  - now apply elapse_tracks.
  - unfold timer_tracks_pending. now rewrite reset_no_timer.
Qed.

(** Every state reached from the first render keeps the invariant, so
    after reset() no commit remains scheduled. *)
Lemma searchRun_tracks (o : DebouncedSearchOptions) (es : list SearchEvent) :
  timer_tracks_pending o (searchRun o es).
Proof.
  unfold searchRun. generalize (searchEffect_tracks o
    {| search := initialValue o; pendingSearch := initialValue o;
       timer := None; commits := [] |}).
  fold (mountSearch o). generalize (mountSearch o).
  induction es as [|e es IH]; intros st H; cbn; [exact H|].
  apply IH. now apply searchStep_tracks.
Qed.

Lemma reset_after_run_no_timer (o : DebouncedSearchOptions) (es : list SearchEvent) :
  timer (reset o (searchRun o es)) = None.
Proof. apply reset_no_timer, searchRun_tracks. Qed.

(** The scenario of the specification: with minLength 3 and delayMs 2500,
    "a" then "ab" inside the window commit nothing; 2500 ms after the last
    keystroke "ab" is committed; a third character commits at once; and
    clearing the field commits at once. *)
Example debounce_scenario :
  let o := defaultSearchOptions in
  commits (searchRun o [TypeText "a"; Wait 1000; TypeText "ab"; Wait 2499]) = [""%string]
  /\ commits (searchRun o [TypeText "a"; Wait 1000; TypeText "ab"; Wait 2500])
     = [""; "ab"]%string
  /\ commits (searchRun o [TypeText "a"; Wait 1000; TypeText "ab"; TypeText "abc"])
     = [""; "abc"]%string
  /\ commits (searchRun o [TypeText "a"; Wait 1000; TypeText ""]) = [""; ""]%string.
Proof. vm_compute. repeat split. Qed.

End DebouncedSearch.

(** ** Query builder *)

Section QueryBuilder.
Import DataTableShell.

Lemma params_get_filter_ne (k k' : string) (ps : URLSearchParams) :
  k <> k' ->
  params_get k (List.filter (fun p => negb (String.eqb (fst p) k')) ps) = params_get k ps.
Proof.
  intros Hne. induction ps as [|[n v] r IH]; [reflexivity|]. cbn.
  destruct (String.eqb_spec n k') as [->|Hn]; cbn.
  - destruct (String.eqb_spec k' k); [congruence|exact IH].
  - now rewrite IH.
Qed.

Lemma params_get_set_eq (k v : string) (ps : URLSearchParams) :
  params_get k (params_set k v ps) = Some v.
Proof.
  induction ps as [|[n v'] r IH]; cbn.
  - now rewrite String.eqb_refl.
  - destruct (String.eqb_spec n k) as [->|Hn]; cbn.
    + now rewrite String.eqb_refl.
    + destruct (String.eqb_spec n k); [congruence|exact IH].
Qed.

Lemma params_get_set_ne (k k' v : string) (ps : URLSearchParams) :
  k <> k' -> params_get k (params_set k' v ps) = params_get k ps.
Proof.
  intros Hne. induction ps as [|[n v'] r IH]; cbn.
  - destruct (String.eqb_spec k' k); [congruence|reflexivity].
  - destruct (String.eqb_spec n k') as [->|Hn]; cbn.
    + destruct (String.eqb_spec k' k); [congruence|].
      now apply params_get_filter_ne.
    + now rewrite IH.
Qed.

Lemma addFilter_keeps (k : string) (ps : URLSearchParams) (e : string * FilterValue) :
  sets_param k e = false -> params_get k (addFilter ps e) = params_get k ps.
Proof.
  destruct e as [key value]. unfold sets_param, addFilter. cbn [fst snd].
  destruct (String.eqb_spec key k) as [->|Hne]; cbn [andb].
  - destruct value; intros H; try rewrite H; reflexivity.
  - intros _. destruct value; try reflexivity;
      (match goal with |- context [Js.truthy ?t] => destruct (Js.truthy t) end;
       [apply params_get_set_ne; congruence|reflexivity]).
Qed.

Lemma fold_addFilter_keeps (k : string) (fs : JsRecord FilterValue) (ps : URLSearchParams) :
  existsb (sets_param k) fs = false ->
  params_get k (fold_left addFilter fs ps) = params_get k ps.
Proof.
  revert ps. induction fs as [|e fs IH]; intros ps H; [reflexivity|].
  cbn in H. apply orb_false_iff in H as [He Hfs]. cbn.
  rewrite IH by exact Hfs. now apply addFilter_keeps.
Qed.

(** C3, as stated, fails: the queries for page 0 and then page 1 of the
    same table both carry draw=1. *)
Lemma C3_draw_strictly_increases_counterexample :
  let first := {| start := 0; length := 10; q_search := Some ""%string;
                  sortColumn := 0; sortDir := desc; extraFilters := Some [] |} in
  let second := {| start := 10; length := 10; q_search := Some ""%string;
                   sortColumn := 0; sortDir := desc; extraFilters := Some [] |} in
  ~ (exists d1 d2,
       draw_number (buildDataTablesQueryParams first) = Some d1
       /\ draw_number (buildDataTablesQueryParams second) = Some d2
       /\ d1 < d2).
Proof.
  intros first second (d1 & d2 & H1 & H2 & Hlt).
  vm_compute in H1, H2. injection H1 as <-. injection H2 as <-. lia.
Qed.

(** C3 (amended): the query builder keeps no counter. The draw parameter
    of every emitted query is the constant "1", unless an extra filter is
    itself keyed "draw", so from one call to the next it never increases. *)
Theorem C3_draw_is_constant (o : DataTablesQueryOptions) :
  (forall fs, extraFilters o = Some fs -> existsb (sets_param "draw") fs = false) ->
  params_get "draw" (buildDataTablesQueryParams o) = Some "1"%string
  /\ draw_number (buildDataTablesQueryParams o) = Some 1.
Proof.
  intros H.
  assert (G : params_get "draw" (buildDataTablesQueryParams o) = Some "1"%string).
  { unfold buildDataTablesQueryParams.
    rewrite !params_get_set_ne by discriminate.
    destruct (extraFilters o) as [fs|] eqn:E.
    - rewrite fold_addFilter_keeps by (now apply H).
      destruct (option_map Js.trim (q_search o)) as [t|]; [destruct (Js.truthy t)|];
        rewrite ?params_get_set_ne by discriminate; reflexivity.
    - destruct (option_map Js.trim (q_search o)) as [t|]; [destruct (Js.truthy t)|];
        rewrite ?params_get_set_ne by discriminate; reflexivity. }
  split; [exact G|]. unfold draw_number. now rewrite G.
Qed.

Lemma C3_draw_is_constant_witness :
  let o := {| start := 40; length := 10; q_search := Some "alice"%string;
              sortColumn := 2; sortDir := asc;
              extraFilters := Some [("type", FString "DEBIT"); ("minAmount", FNumber 5)]%string |} in
  (forall fs, extraFilters o = Some fs -> existsb (sets_param "draw") fs = false)
  /\ params_get "draw" (buildDataTablesQueryParams o) = Some "1"%string.
Proof.
  intros o.
  assert (H : forall fs, extraFilters o = Some fs -> existsb (sets_param "draw") fs = false).
  { intros fs E. injection E as <-. vm_compute. reflexivity. }
  split; [exact H|]. exact (proj1 (C3_draw_is_constant o H)).
Defined.

(** The one way a query carries another draw value: an extra filter keyed
    "draw". *)
Example draw_overridden_by_filter :
  params_get "draw"
    (buildDataTablesQueryParams
       {| start := 0; length := 10; q_search := None; sortColumn := 0; sortDir := asc;
          extraFilters := Some [("draw", FString "7")]%string |})
  = Some "7"%string.
Proof. reflexivity. Qed.

End QueryBuilder.

(** ** Filter state and extra filters *)

Section ExtraFilters.
Import DataTableShell ServerDataTable.

Lemma record_get_assign_eq {V} (k : string) (v : V) (r : JsRecord V) :
  record_get k (record_assign k v r) = Some v.
Proof.
  induction r as [|[k' v'] r IH]; cbn.
  - now rewrite String.eqb_refl.
  - destruct (String.eqb_spec k' k) as [->|Hne]; cbn.
    + now rewrite String.eqb_refl.
    + destruct (String.eqb_spec k' k); [congruence|exact IH].
Qed.

Lemma record_get_assign_ne {V} (k k' : string) (v : V) (r : JsRecord V) :
  k <> k' -> record_get k (record_assign k' v r) = record_get k r.
Proof.
  intros Hne. induction r as [|[n v'] r IH]; cbn.
  - destruct (String.eqb_spec k' k); [congruence|reflexivity].
  - destruct (String.eqb_spec n k') as [->|Hn]; cbn.
    + destruct (String.eqb_spec k' k); [congruence|reflexivity].
    + now rewrite IH.
Qed.

Lemma truthy_iff (s : string) : Js.truthy s = true <-> s <> ""%string.
Proof. destruct s; cbn; split; congruence. Qed.

Lemma getConfig_columnWithState (fs : FilterState) (c : ServerDataTableColumn) :
  getConfigForColumn (columnWithState fs c) = buildConfig fs c (effectiveDefinition c).
Proof.
  unfold getConfigForColumn, effectiveDefinition, columnWithState. cbn.
  destruct (filterConfigHeader c) as [[]|]; reflexivity.
Qed.

Lemma assign_in_sync (fs : FilterState) (k k' : string) (ef : JsRecord FilterValue) :
  in_sync fs k ef ->
  in_sync fs k (record_assign k' (FString (trimmedValue fs k')) ef).
Proof.
  unfold in_sync. intros H. destruct (string_dec k k') as [<-|Hne].
  - apply record_get_assign_eq.
  - now rewrite record_get_assign_ne.
Qed.

Lemma assignRange_in_sync (fs : FilterState) (k dflt : string) (key : option string)
    (ef : JsRecord FilterValue) :
  in_sync fs k ef ->
  in_sync fs k (assignRange key (Js.trim (getter fs (Js.nullish key dflt) tt)) ef).
Proof.
  intros H. unfold assignRange. destruct key as [k'|]; [|exact H]. cbn [Js.nullish].
  destruct (Js.truthy k' && Js.truthy _); [|exact H].
  now apply assign_in_sync.
Qed.

Lemma assignRange_sets (fs : FilterState) (k dflt : string) (ef : JsRecord FilterValue) :
  k <> ""%string -> trimmedValue fs k <> ""%string ->
  in_sync fs k (assignRange (Some k) (Js.trim (getter fs (Js.nullish (Some k) dflt) tt)) ef).
Proof.
  intros Hk Hv. unfold assignRange. cbn [Js.nullish].
  apply truthy_iff in Hk. apply truthy_iff in Hv. unfold trimmedValue in Hv.
  rewrite Hk, Hv. apply record_get_assign_eq.
Qed.

Lemma filterStep_in_sync (fs : FilterState) (k : string) (c : ServerDataTableColumn)
    (acc : JsRecord FilterValue * list string) :
  in_sync fs k (fst acc) -> in_sync fs k (fst (filterStep acc (columnWithState fs c))).
Proof.
  destruct acc as [ef deps]. intros H. unfold filterStep.
  rewrite getConfig_columnWithState.
  destruct (effectiveDefinition c) as [[ph qk|opts qk|p1 p2 mn mx|fk tk]|];
    cbn [buildConfig fst]; try exact H.
  - destruct (Js.truthy _); [|exact H]. now apply assign_in_sync.
  - destruct (Js.truthy _); [|exact H]. now apply assign_in_sync.
  - now apply assignRange_in_sync, assignRange_in_sync.
  - now apply assignRange_in_sync, assignRange_in_sync.
Qed.

Lemma fold_filterStep_in_sync (fs : FilterState) (k : string)
    (cols : list ServerDataTableColumn) (acc : JsRecord FilterValue * list string) :
  in_sync fs k (fst acc) ->
  in_sync fs k (fst (fold_left filterStep (columnsWithState fs cols) acc)).
Proof.
  revert acc. induction cols as [|c cols IH]; intros acc H; [exact H|].
  cbn. apply IH. now apply filterStep_in_sync.
Qed.

Lemma filterStep_sets (fs : FilterState) (k : string) (c : ServerDataTableColumn)
    (d : DataTableFilterConfigDefinition) (acc : JsRecord FilterValue * list string) :
  effectiveDefinition c = Some d -> In (Some k) (range_keys d) ->
  k <> ""%string -> trimmedValue fs k <> ""%string ->
  in_sync fs k (fst (filterStep acc (columnWithState fs c))).
Proof.
  destruct acc as [ef deps]. intros Hd Hin Hk Hv. unfold filterStep.
  rewrite getConfig_columnWithState, Hd.
  destruct d as [ph qk|opts qk|p1 p2 mn mx|fk tk]; cbn in Hin; try contradiction;
    cbn [buildConfig fst];
    destruct Hin as [->|[->|[]]];
    first [ apply assignRange_in_sync; now apply assignRange_sets
          | now apply assignRange_sets ].
Qed.

(** C4, as stated, fails: an Amount column whose number-range filter
    declares no query keys holds the value "5" for its lower bound, and
    the derived extraFilters are empty. *)
Lemma C4_range_filter_without_key_counterexample :
  let column := {| id := "amount"; sortable := true;
                   filterConfigHeader := Some (DefNumberRange None None None None);
                   filterConfigFooter := None |} in
  let filterState : FilterState := setter "amount:min" "5"%string ∅ in
  match getConfigForColumn (columnWithState ∅ column) with
  | Some (CfgNumberRange _ setMin _ _ _ _ _ _) => setMin "5"%string ∅ = filterState
  | _ => False
  end
  /\ match getConfigForColumn (columnWithState filterState column) with
     | Some (CfgNumberRange getMin _ _ _ _ _ _ _) => Js.trim (getMin tt) = "5"%string
     | _ => False
     end
  /\ record_get "amount:min" (derivedExtraFilters filterState [column]) = None
  /\ derivedExtraFilters filterState [column] = [].
Proof. vm_compute. repeat split. Qed.

(** C4 (amended): the filter that drives a column is its header filter
    or, when it has none, its footer filter. For a number-range or
    date-range filter that drives a column, a bound that declares a
    non-empty query key and holds a non-blank value is included in the
    derived extraFilters under that declared key, with the value
    trimmed; a driving range filter that declares no query keys adds
    nothing to extraFilters (its values live in the filter state under
    the derived keys only). The footer filter of a column that has a
    header filter is not read at all: whatever it declares and holds,
    it adds nothing. *)
Theorem C4_range_filter_entries (fs : FilterState) (cols : list ServerDataTableColumn)
    (c : ServerDataTableColumn) (d : DataTableFilterConfigDefinition) :
  In c cols -> effectiveDefinition c = Some d ->
  (forall k, In (Some k) (range_keys d) -> k <> ""%string ->
     trimmedValue fs k <> ""%string ->
     record_get k (derivedExtraFilters fs cols) = Some (FString (trimmedValue fs k)))
  /\ (range_keys d = [None; None] ->
      forall acc, fst (filterStep acc (columnWithState fs c)) = fst acc)
  /\ (filterConfigHeader c = Some d ->
      forall footer acc,
        filterStep acc (columnWithState fs {| id := id c; sortable := sortable c;
                                              filterConfigHeader := Some d;
                                              filterConfigFooter := footer |})
        = filterStep acc (columnWithState fs c)).
Proof.
  intros Hc Hd. split; [|split].
  - intros k Hin Hk Hv.
    apply in_split in Hc as (l1 & l2 & ->).
    unfold derivedExtraFilters, getFilterStateFromColumns, columnsWithState.
    rewrite map_app, fold_left_app. cbn [map fold_left].
    apply (fold_filterStep_in_sync fs k l2).
    now apply (filterStep_sets fs k c d).
  - intros Hn [ef deps]. unfold filterStep.
    rewrite getConfig_columnWithState, Hd.
    destruct d as [ph qk|opts qk|p1 p2 mn mx|fk tk]; cbn in Hn; try discriminate;
      injection Hn as -> ->; reflexivity.
  - intros Hh footer acc. unfold filterStep.
    rewrite !getConfig_columnWithState, Hd.
    unfold effectiveDefinition. cbn [filterConfigHeader].
    destruct d; reflexivity.
Qed.

(** The masked footer: a column whose header is a text filter and whose
    footer is a number-range filter with declared keys. The footer's
    lower bound holds "5" in the filter state, and the derived
    extraFilters are empty. *)
Example masked_footer_range_filter :
  let column := {| id := "amount"; sortable := true;
                   filterConfigHeader := Some (DefText None (Some "q"));
                   filterConfigFooter :=
                     Some (DefNumberRange None None (Some "minAmount") (Some "maxAmount")) |}%string in
  let filterState : FilterState := setter "minAmount" "5"%string ∅ in
  match col_filterConfigFooter (columnWithState filterState column) with
  | Some (CfgNumberRange getMin _ _ _ _ _ _ _) => Js.trim (getMin tt) = "5"%string
  | _ => False
  end
  /\ derivedExtraFilters filterState [column] = [].
Proof. vm_compute. repeat split. Qed.

Lemma C4_range_filter_entries_witness :
  let amount := {| id := "amount"; sortable := true;
                   filterConfigHeader :=
                     Some (DefNumberRange (Some "Min") (Some "Max")
                                          (Some "minAmount") (Some "maxAmount"))%string;
                   filterConfigFooter :=
                     Some (DefNumberRange (Some "Min") (Some "Max")
                                          (Some "minAmount") (Some "maxAmount"))%string |} in
  let fs : FilterState := setter "minAmount" " 5 "%string ∅ in
  In amount TransactionsTable.columns
  /\ record_get "minAmount" (derivedExtraFilters fs TransactionsTable.columns)
     = Some (FString "5").
Proof.
  intros amount fs.
  assert (Hin : In amount TransactionsTable.columns)
    by (do 4 right; left; reflexivity).
  split; [exact Hin|].
  refine (proj1 (C4_range_filter_entries fs TransactionsTable.columns amount _ Hin eq_refl)
                "minAmount"%string _ _ _).
  - left. reflexivity.
  - discriminate.
  - vm_compute. discriminate.
Defined.

End ExtraFilters.

(** ** Request life cycle of the hooks *)

Section RequestLifeCycle.
Import HttpClient DataTableShell ServerDataTable.

(** An attempt that was aborted still writes its response into the
    state once it settles: the controller is never consulted. *)
Lemma tableSettle_ignores_abort {TData} (h : Hook TData) (i : nat) (a : Attempt)
    (r : DataTablesApiResponse TData) :
  attempts h !! i = Some a -> settled a = false -> aborted a = true ->
  let h' := tableSettle i (inl (Some r)) h in
  st_data (state h') = Js.nullish (data r) []
  /\ st_recordsTotal (state h') = Js.nullish (recordsTotal r) 0
  /\ st_recordsFiltered (state h') = Js.nullish (recordsFiltered r) 0
  /\ writers h' = writers h ++ [i].
Proof.
  intros Ha Hs _. unfold tableSettle. rewrite Ha, Hs. cbn. repeat split.
Qed.

(** The sibling hooks do discard: a cancelled load leaves the state of a
    reporting hook as it is. *)
Lemma reportSettle_cancelled_discarded {T} (k : Reporting.ReportingHook)
    (h : Reporting.Hook T) (i : nat) (l : Reporting.LoadCall)
    (outcome : list T + Thrown) :
  Reporting.loads h !! i = Some l -> Reporting.cancelled l = true ->
  Reporting.state (Reporting.reportSettle k i outcome h) = Reporting.state h.
Proof.
  intros Hl Hc. unfold Reporting.reportSettle. rewrite Hl.
  destruct (Reporting.finished l); [reflexivity|]. cbn.
  unfold Reporting.reportResume. rewrite Hc. now destruct outcome.
Qed.

(** C1 (the code departs from it): two effect runs in a row, the second
    for a new search term; the response of the second arrives first and
    the response of the first, already aborted, arrives later. Both are
    written, and the table ends up showing the rows of the superseded
    request. *)
Theorem C1_superseded_attempt_commits :
  let first := hookOptions TransactionsTable.props (Some "jwt"%string) initialComponentState in
  let second := hookOptions TransactionsTable.props (Some "jwt"%string)
                  {| c_sortColumn := 0; c_sortDir := desc;
                     c_filterState := ∅; c_search := "alice" |} in
  let stale := {| data := Some ["row of the first query"%string];
                  recordsTotal := Some 57; recordsFiltered := Some 57 |} in
  let fresh := {| data := Some ["row for alice"%string];
                  recordsTotal := Some 57; recordsFiltered := Some 1 |} in
  let h := tableRun first [Effect first; Effect second;
                           Settle 1 (inl (Some fresh)); Settle 0 (inl (Some stale))] in
  aborted <$> attempts h !! 0%nat = Some true
  /\ aborted <$> attempts h !! 1%nat = Some false
  /\ st_data (state h) = ["row of the first query"%string]
  /\ st_recordsFiltered (state h) = 57
  /\ st_error (state h) = None
  /\ writers h = [1; 0]%nat.
Proof. vm_compute. repeat split. Qed.

Lemma reportCleanup_requests {T} (r : Reporting.Hook T) :
  Reporting.requests (Reporting.reportCleanup r) = Reporting.requests r.
Proof. unfold Reporting.reportCleanup. now destruct (Reporting.active r). Qed.

(** C5, as stated, fails for the table hook: with no token anywhere, the
    first effect run of the transactions table sends its request, without
    an Authorization header, and the table shows as loading. *)
Lemma C5_table_hook_fetches_without_token_counterexample :
  let o := hookOptions TransactionsTable.props None initialComponentState in
  let h := @tableRun string o [Effect o] in
  token o = None
  /\ (path ∘ att_request <$> attempts h) = ["/transactions"%string]
  /\ (authorization ∘ att_request <$> attempts h) = [None]
  /\ st_loading (state h) = true.
Proof. vm_compute. repeat split. Qed.

(** C5 (amended): a reporting hook without a token sends no request and
    its state is empty (no rows, no error, not loading). The table hook
    does not look at the token: whenever its endpoint is non-empty the
    effect sends the request, and without a token the request carries no
    Authorization header. *)
Theorem C5_token_guard {T TData} (tok : option string)
    (k : Reporting.ReportingHook) (r : Reporting.Hook T)
    (o : UseServerDataTableOptions) (h : Hook TData) :
  Js.truthy_opt tok = false ->
  token o = tok -> Js.truthy (endpoint o) = true ->
  (let r' := Reporting.reportEffect k tok r in
   Reporting.requests r' = Reporting.requests r
   /\ Reporting.data (Reporting.state r') = []
   /\ Reporting.error (Reporting.state r') = None
   /\ Reporting.loading (Reporting.state r') = false)
  /\ (let h' := tableEffect o h in
      exists a, attempts h' = attempts (tableCleanup h) ++ [a]
                /\ path (att_request a) = endpoint o
                /\ authorization (att_request a) = None
                /\ settled a = false
                /\ st_loading (state h') = true).
Proof.
  intros Ht Ho He. split.
  - unfold Reporting.reportEffect.
    destruct tok as [t|]; cbn in Ht; [rewrite Ht|];
      cbn; repeat split; apply reportCleanup_requests.
  - unfold tableEffect. rewrite He. cbn.
    eexists. split; [reflexivity|]. cbn. rewrite Ho.
    repeat split. destruct tok as [t|]; [cbn in Ht; now rewrite Ht|reflexivity].
Qed.

Lemma C5_token_guard_witness :
  let o := hookOptions TransactionsTable.props None initialComponentState in
  let r := Reporting.reportEffect Reporting.useTopTransactionsPerUser None
             (@Reporting.mountReport string) in
  (Js.truthy_opt None = false /\ token o = None /\ Js.truthy (endpoint o) = true)
  /\ Reporting.requests r = []
  /\ Reporting.data (Reporting.state r) = [].
Proof.
  intros o r.
  assert (Ht : Js.truthy_opt None = false) by reflexivity.
  assert (Ho : token o = None) by reflexivity.
  assert (He : Js.truthy (endpoint o) = true) by reflexivity.
  split; [repeat split; assumption|].
  destruct (C5_token_guard None Reporting.useTopTransactionsPerUser
              (@Reporting.mountReport string) o (@mountTable string o) Ht Ho He)
    as [(Hreq & Hdata & _) _].
  split; assumption.
Defined.

(** A response with status 401 makes [apiRequest] throw an [ApiError] of
    status 401, after calling the registered handler when a token was
    sent. *)
Lemma apiRequest_receive_401 {T} (tok : option string) (registered : bool) (r : Response T) :
  res_status r = 401 ->
  exists e, apiRequest_receive tok registered r
            = (inr (ThrownApiError e), Js.truthy_opt tok && registered)
            /\ status e = 401.
Proof.
  intros H. unfold apiRequest_receive, ok. rewrite H. cbn.
  eexists. split; reflexivity.
Qed.

(** C6, as stated, fails for the table hook: with the default error
    mapper of the table component a 401 ends up as the table's error. *)
Lemma C6_table_hook_surfaces_401_counterexample :
  let o := hookOptions TransactionsTable.props (Some "jwt"%string) initialComponentState in
  let h := @tableRun string o [Effect o; Settle 0 (inr (ThrownApiError unauthorized))] in
  st_error (state h) = Some "Your session has expired. Please sign in again."%string.
Proof. reflexivity. Qed.

Lemma reportEffect_load {T} (k : Reporting.ReportingHook) (t : string)
    (r : Reporting.Hook T) :
  Js.truthy t = true ->
  let r' := Reporting.reportEffect k (Some t) r in
  exists n, Reporting.active r' = Some n
            /\ Reporting.loads r' !! n
               = Some {| Reporting.cancelled := false; Reporting.finished := false |}
            /\ Reporting.error (Reporting.state r') = None.
Proof.
  intros Ht. unfold Reporting.reportEffect. rewrite Ht. cbn.
  eexists. split; [reflexivity|]. split; [|reflexivity].
  now rewrite lookup_app_r, Nat.sub_diag.
Qed.

(** C6 (amended): when a fetch fails with status 401, a reporting hook
    sets no message of its own: its error state stays as it was, which
    for the load started by the last effect run is "no error". The table
    hook, with the default error mapper of the table component, stores
    the message "Your session has expired. Please sign in again." as its
    error. *)
Theorem C6_unauthorized_error {T TData} (e : ApiError)
    (k : Reporting.ReportingHook) (r : Reporting.Hook T) (i : nat) (l : Reporting.LoadCall)
    (h : Hook TData) (j : nat) (a : Attempt) :
  status e = 401 ->
  Reporting.loads r !! i = Some l -> Reporting.finished l = false ->
  attempts h !! j = Some a -> settled a = false ->
  att_mapErrorMessage a = Some defaultMapErrorMessage ->
  Reporting.error (Reporting.state (Reporting.reportSettle k i (inr (ThrownApiError e)) r))
  = Reporting.error (Reporting.state r)
  /\ (forall t n, Js.truthy t = true ->
        let r' := Reporting.reportEffect k (Some t) r in
        Reporting.active r' = Some n ->
        Reporting.error
          (Reporting.state (Reporting.reportSettle k n (inr (ThrownApiError e)) r'))
        = None)
  /\ st_error (state (tableSettle j (inr (ThrownApiError e)) h))
     = Some "Your session has expired. Please sign in again."%string.
Proof.
  intros He Hl Hf Ha Hs Hm. split; [|split].
  - unfold Reporting.reportSettle. rewrite Hl, Hf. cbn.
    unfold Reporting.reportResume. rewrite He. cbn.
    now destruct (Reporting.cancelled l).
  - intros t n Ht r' Hn.
    destruct (reportEffect_load k t r Ht) as (n' & Hn' & Hload & Herr).
    fold r' in Hn', Hload, Herr. rewrite Hn in Hn'. injection Hn' as <-.
    unfold Reporting.reportSettle. rewrite Hload. cbn.
    unfold Reporting.reportResume. rewrite He. cbn. exact Herr.
  - unfold tableSettle. rewrite Ha, Hs. cbn.
    unfold tableCatch. rewrite Hm. cbn. now rewrite He.
Qed.

Lemma C6_unauthorized_error_witness :
  let o := hookOptions TransactionsTable.props (Some "jwt"%string) initialComponentState in
  let r := Reporting.reportEffect Reporting.useTopUsersLeaderboard (Some "jwt"%string)
             (@Reporting.mountReport string) in
  let h := @tableRun string o [Effect o] in
  Reporting.error
    (Reporting.state
       (Reporting.reportSettle Reporting.useTopUsersLeaderboard 0
          (inr (ThrownApiError unauthorized)) r)) = None
  /\ st_error (state (tableSettle 0 (inr (ThrownApiError unauthorized)) h))
     = Some "Your session has expired. Please sign in again."%string.
Proof.
  intros o r h.
  destruct (C6_unauthorized_error unauthorized Reporting.useTopUsersLeaderboard r 0
              {| Reporting.cancelled := false; Reporting.finished := false |}
              h 0
              {| aborted := false; settled := false;
                 att_mapErrorMessage := Some defaultMapErrorMessage;
                 att_request := apiRequest_send "/transactions"
                   (buildDataTablesQueryParams (buildQueryOptions o 0 10))
                   (Some "jwt"%string) |}
              eq_refl eq_refl eq_refl eq_refl eq_refl eq_refl)
    as (Hr & _ & Ht).
  split; [exact Hr|exact Ht].
Defined.

End RequestLifeCycle.

(** ** Session storage *)

Section SessionStorage.
Import AuthStorage.

Lemma loadAuthToken_stored (platform : Platform) (now : Z)
    (localStorage : gmap string string) (token : string) :
  localStorage !! TOKEN_KEY = Some token -> token <> ""%string ->
  loadAuthToken platform now true localStorage
  = if isTokenExpired platform now token
    then (None, delete USER_KEY (delete TOKEN_KEY localStorage))
    else (Some token, localStorage).
Proof.
  intros Hl Ht. unfold loadAuthToken. cbn [negb]. rewrite Hl.
  destruct token; [congruence|reflexivity].
Qed.

(** C8, as stated, fails: a stored token of three parts whose payload is
    not base64-encoded JSON has no decodable expiry, and loadAuthToken
    returns it. *)
Lemma C8_malformed_token_counterexample :
  let token := "header.payload.signature"%string in
  let localStorage : gmap string string := {[ TOKEN_KEY := token ]} in
  decodeJwtExp Browser.platform token = None
  /\ fst (loadAuthToken Browser.platform 1700000000000 true localStorage) = Some token.
Proof. split; vm_compute; reflexivity. Qed.

(** C8 (amended): on session load, a stored token whose expiry claim
    cannot be decoded is not an error and is not removed: it counts as
    not expired, so loadAuthToken returns it as it is and leaves the
    store untouched. *)
Theorem C8_undecodable_token_is_kept (platform : Platform) (now : Z)
    (localStorage : gmap string string) (token : string) :
  localStorage !! TOKEN_KEY = Some token -> token <> ""%string ->
  decodeJwtExp platform token = None ->
  loadAuthToken platform now true localStorage = (Some token, localStorage).
Proof.
  intros Hl Ht Hd. rewrite (loadAuthToken_stored _ _ _ token) by assumption.
  unfold isTokenExpired. now rewrite Hd.
Qed.

Lemma C8_undecodable_token_is_kept_witness :
  let token := "not-a-jwt"%string in
  let localStorage : gmap string string := {[ TOKEN_KEY := token ]} in
  loadAuthToken Browser.platform 1700000000000 true localStorage
  = (Some token, localStorage).
Proof.
  intros token localStorage.
  apply (C8_undecodable_token_is_kept Browser.platform 1700000000000 localStorage token).
  - reflexivity.
  - discriminate.
  - vm_compute. reflexivity.
Defined.

(** Where the decoded expiry is not zero, the token is dropped as soon
    as the expiry is at or before the current time, together with the
    stored user profile. *)
Lemma loadAuthToken_expired (platform : Platform) (now : Z)
    (localStorage : gmap string string) (token : string) (exp : Q) :
  localStorage !! TOKEN_KEY = Some token -> token <> ""%string ->
  decodeJwtExp platform token = Some exp ->
  ~ (exp == 0)%Q -> (exp <= inject_Z (now / 1000))%Q ->
  let (result, after) := loadAuthToken platform now true localStorage in
  result = None /\ after !! TOKEN_KEY = None /\ after !! USER_KEY = None.
Proof.
  intros Hl Ht Hd Hz Hle. rewrite (loadAuthToken_stored _ _ _ token) by assumption.
  unfold isTokenExpired. rewrite Hd.
  destruct (Qeq_bool exp 0) eqn:E; [apply Qeq_bool_iff in E; contradiction|].
  apply Qle_bool_iff in Hle. rewrite Hle.
  split; [reflexivity|]. split.
  - rewrite lookup_delete_ne by discriminate. apply lookup_delete_eq.
  - apply lookup_delete_eq.
Qed.

(** C9 (the code departs from it): a stored token whose payload is
    {"exp":0} decodes to the expiry 0, which is before the current time,
    and loadAuthToken returns the token and removes nothing. The test
    for "no expiry" in isTokenExpired also catches the number 0. *)
Theorem C9_expiry_zero_is_returned :
  let token := "e30.eyJleHAiOjB9.sig"%string in
  let now := 1700000000000 in
  let localStorage : gmap string string :=
    {[ TOKEN_KEY := token; USER_KEY := "alice"%string ]} in
  decodeJwtExp Browser.platform token = Some 0%Q
  /\ (0 <= inject_Z (now / 1000))%Q
  /\ loadAuthToken Browser.platform now true localStorage = (Some token, localStorage).
Proof.
  intros token now localStorage.
  assert (Hd : decodeJwtExp Browser.platform token = Some 0%Q) by (vm_compute; reflexivity).
  split; [exact Hd|]. split; [vm_compute; discriminate|].
  rewrite (loadAuthToken_stored _ _ _ token); [|reflexivity|discriminate].
  unfold isTokenExpired. now rewrite Hd.
Qed.

(** An expiry one second in the past is handled as the claim says. *)
Example expired_token_is_removed :
  let token := "e30.eyJleHAiOjE2OTk5OTk5OTl9.sig"%string in
  let localStorage : gmap string string :=
    {[ TOKEN_KEY := token; USER_KEY := "alice"%string ]} in
  decodeJwtExp Browser.platform token = Some 1699999999%Q
  /\ loadAuthToken Browser.platform 1700000000000 true localStorage = (None, ∅).
Proof.
  intros token localStorage.
  assert (Hd : decodeJwtExp Browser.platform token = Some 1699999999%Q)
    by (vm_compute; reflexivity).
  split; [exact Hd|].
  rewrite (loadAuthToken_stored _ _ _ token); [|reflexivity|discriminate].
  unfold isTokenExpired. rewrite Hd. reflexivity.
Qed.

End SessionStorage.

(** ** Paging calculator: pages and navigation *)

Section PagingProperties.
Import DataTableShell.

Lemma ceil_div_bounds (a b : Z) :
  0 < b -> (ceil_div a b - 1) * b < a <= ceil_div a b * b.
Proof.
  intros Hb. unfold ceil_div.
  pose proof (Z.div_mod (- a) b ltac:(lia)) as E.
  pose proof (Z.mod_pos_bound (- a) b Hb). nia.
Qed.

(** X1: with a positive page size and a non-negative record count there
    is always at least one page, the pages together hold every record,
    and the last page is not empty unless there are no records at all
    (and then there is exactly one page). *)
Theorem paging_totalPages_covers (pageIndex pageSize recordsTotal recordsFiltered : Z) :
  let p := getDataTablePaging pageIndex pageSize recordsTotal recordsFiltered in
  0 < pageSize -> 0 <= totalForDisplay p ->
  1 <= totalPages p
  /\ totalForDisplay p <= totalPages p * pageSize
  /\ (0 < totalForDisplay p -> (totalPages p - 1) * pageSize < totalForDisplay p)
  /\ (totalForDisplay p = 0 -> totalPages p = 1).
Proof.
  intros p Hs Ht. subst p. unfold getDataTablePaging in *. cbn in *.
  set (t := if recordsFiltered =? 0 then recordsTotal else recordsFiltered) in *.
  clearbody t.
  destruct (Z.gtb_spec pageSize 0) as [_|]; [|lia].
  pose proof (ceil_div_bounds t pageSize Hs) as [Hlo Hhi].
  split; [lia|]. split; [nia|]. split; [nia|].
  intros ->. assert (ceil_div 0 pageSize = 0) by (unfold ceil_div; now rewrite Z.div_0_l by lia).
  lia.
Qed.

Lemma paging_totalPages_covers_witness :
  let p := getDataTablePaging 0 10 57 0 in
  (0 < 10 /\ 0 <= totalForDisplay p)
  /\ totalPages p = 6 /\ totalForDisplay p <= totalPages p * 10.
Proof.
  split; [vm_compute; split; congruence|].
  split; [reflexivity|].
  apply (paging_totalPages_covers 0 10 57 0); vm_compute; congruence.
Defined.

Lemma totalPages_ge_1 (pageIndex pageSize recordsTotal recordsFiltered : Z) :
  1 <= totalPages (getDataTablePaging pageIndex pageSize recordsTotal recordsFiltered).
Proof.
  unfold getDataTablePaging. cbn. destruct (pageSize >? 0); lia.
Qed.

(** X2: goToPage never leaves the table: whatever page is asked for, on
    whatever inputs, the index it hands to the setter lies between 0 and
    totalPages - 1; a page between 1 and totalPages is taken as it is. *)
Theorem goToPage_in_range (pageIndex pageSize recordsTotal recordsFiltered page : Z) :
  let p := getDataTablePaging pageIndex pageSize recordsTotal recordsFiltered in
  0 <= goToPage p page <= totalPages p - 1
  /\ (1 <= page <= totalPages p -> goToPage p page = page - 1).
Proof.
  intros p.
  pose proof (totalPages_ge_1 pageIndex pageSize recordsTotal recordsFiltered) as H.
  fold p in H. subst p. unfold getDataTablePaging in *. cbn in *. lia.
Qed.

(** X3: the pages tile the records. On an existing page of a non-empty
    result the range shown starts right after the previous page's range,
    holds between 1 and pageSize records, and on the last page ends at
    the last record. *)
Theorem paging_pages_tile (pageIndex pageSize recordsTotal recordsFiltered : Z) :
  let p := getDataTablePaging pageIndex pageSize recordsTotal recordsFiltered in
  let next := getDataTablePaging (pageIndex + 1) pageSize recordsTotal recordsFiltered in
  0 <= pageIndex -> 0 < pageSize -> 0 < totalForDisplay p ->
  currentPage p <= totalPages p ->
  1 <= currentTo p - currentFrom p + 1 <= pageSize
  /\ (currentPage p < totalPages p -> currentFrom next = currentTo p + 1)
  /\ (currentPage p = totalPages p -> currentTo p = totalForDisplay p)
  /\ (pageIndex = 0 -> currentFrom p = 1).
Proof.
  intros p next Hi Hs Ht Hp. subst p next. unfold getDataTablePaging in *. cbn in *.
  set (t := if recordsFiltered =? 0 then recordsTotal else recordsFiltered) in *.
  clearbody t.
  destruct (Z.gtb_spec pageSize 0) as [_|]; [|lia].
  destruct (Z.eqb_spec t 0) as [|_]; [lia|].
  pose proof (ceil_div_bounds t pageSize Hs) as [Hlo Hhi].
  assert (Hc : 1 <= ceil_div t pageSize) by nia.
  rewrite Z.max_r in Hp by lia. rewrite Z.max_r by lia.
  assert (Hlt : pageIndex * pageSize < t) by nia.
  split; [lia|]. split; [|split].
  - intros Hn. assert (pageIndex * pageSize + pageSize <= t) by nia.
    destruct (Z.eqb_spec t 0); lia.
  - intros Heq. assert (pageIndex * pageSize + pageSize >= t) by nia. lia.
  - intros ->. lia.
Qed.

Lemma paging_pages_tile_witness :
  let p := getDataTablePaging 5 10 57 0 in
  (0 <= 5 /\ 0 < 10 /\ 0 < totalForDisplay p /\ currentPage p <= totalPages p)
  /\ currentFrom p = 51 /\ currentTo p = 57 /\ currentTo p = totalForDisplay p.
Proof.
  split; [vm_compute; repeat split; congruence|].
  split; [reflexivity|]. split; [reflexivity|].
  apply (paging_pages_tile 5 10 57 0); vm_compute; congruence.
Defined.

End PagingProperties.

(** ** Pagination control *)

Section PaginationControl.
Import DataTableShell Pagination.

Lemma safeCurrentPage_in_range (currentPage totalPages : Z) :
  1 <= safeCurrentPage currentPage totalPages <= safeTotalPages totalPages.
Proof.
  unfold safeCurrentPage, safeTotalPages. destruct (Z.gtb_spec totalPages 0); lia.
Qed.

Ltac pager_eval :=
  cbv [addPages map seq Z.to_nat Pos.to_nat Pos.iter_op Nat.add Init.Nat.add
       app pageNumbers List.length Z.of_nat Pos.of_succ_nat Pos.succ].

Ltac pager_cases T :=
  match goal with
  | H : T <= 7, H1 : 1 <= _ <= T |- _ =>
      assert (T = 1 \/ T = 2 \/ T = 3 \/ T = 4 \/ T = 5 \/ T = 6 \/ T = 7) as Hcases by lia;
      destruct Hcases as [->|[->|[->|[->|[->|[->| ->]]]]]]
  end.

(** X4: the page list of the pagination control. It never has more than
    seven items (exactly seven once there are more than seven pages), its
    page numbers are strictly increasing and lie between 1 and the number
    of pages, and the first page, the last page and the current page are
    always among them. *)
Theorem pageItems_shape (currentPage totalPages : Z) :
  let items := pageItems currentPage totalPages in
  let T := safeTotalPages totalPages in
  let C := safeCurrentPage currentPage totalPages in
  (List.length items <= 7)%nat
  /\ (7 < T -> List.length items = 7%nat)
  /\ (T <= 7 -> items = map Page (pageNumbers items)
                /\ Z.of_nat (List.length items) = T)
  /\ Sorted Z.lt (pageNumbers items)
  /\ (forall p, In p (pageNumbers items) -> 1 <= p <= T)
  /\ In 1 (pageNumbers items)
  /\ In T (pageNumbers items)
  /\ In C (pageNumbers items).
Proof.
  intros items T C. subst items.
  pose proof (safeCurrentPage_in_range currentPage totalPages) as HC.
  fold T C in HC. unfold pageItems. fold T C. clearbody T C.
  destruct (Z.leb_spec T 7) as [H7|H7].
  - pager_cases T; pager_eval;
      (split; [lia|]); (split; [lia|]); (split; [intros _; split; reflexivity|]);
      (split; [repeat constructor; lia|]);
      (split; [intros p Hp; repeat (destruct Hp as [<-|Hp]; [lia|]); destruct Hp|]);
      (split; [now left|]); (split; [cbn [In]; tauto|]);
      assert (Hc : C = 1 \/ C = 2 \/ C = 3 \/ C = 4 \/ C = 5 \/ C = 6 \/ C = 7) by lia;
      cbn [In]; intuition lia.
  - destruct (Z.leb_spec C 4) as [H4|H4]; [|destruct (Z.geb_spec C (T - 3)) as [H3|H3]].
    + unfold addPages. replace (5 - 1 + 1) with 5 by lia. pager_eval.
      split; [lia|]. split; [reflexivity|]. split; [lia|].
      split; [repeat constructor; lia|].
      split; [intros p Hp; repeat (destruct Hp as [<-|Hp]; [lia|]); destruct Hp|].
      split; [now left|]. split; [cbn [In]; tauto|].
      assert (Hc : C = 1 \/ C = 2 \/ C = 3 \/ C = 4) by lia. cbn [In]. intuition lia.
    + unfold addPages. replace (T - (T - 4) + 1) with 5 by lia. pager_eval.
      split; [lia|]. split; [reflexivity|]. split; [lia|].
      split; [repeat constructor; lia|].
      split; [intros p Hp; repeat (destruct Hp as [<-|Hp]; [lia|]); destruct Hp|].
      split; [now left|].
      split; [do 5 right; left; lia|].
      assert (Hc : C = T - 4 + 1 \/ C = T - 4 + 2 \/ C = T - 4 + 3 \/ C = T - 4 + 4) by lia.
      cbn [In]. intuition lia.
    + unfold addPages. replace (C + 1 - (C - 1) + 1) with 3 by lia. pager_eval.
      split; [lia|]. split; [reflexivity|]. split; [lia|].
      split; [repeat constructor; lia|].
      split; [intros p Hp; repeat (destruct Hp as [<-|Hp]; [lia|]); destruct Hp|].
      split; [now left|].
      split; [do 4 right; now left|].
      do 2 right. left. lia.
Qed.

(** The compaction examples for ten pages. *)
Example pageItems_ten_pages :
  pageItems 1 10 = [Page 1; Page 2; Page 3; Page 4; Page 5; Ellipsis "end"; Page 10]
  /\ pageItems 5 10
     = [Page 1; Ellipsis "start"; Page 4; Page 5; Page 6; Ellipsis "end"; Page 10]
  /\ pageItems 10 10
     = [Page 1; Ellipsis "start"; Page 6; Page 7; Page 8; Page 9; Page 10].
Proof. repeat split. Qed.

(** X5: paging through the table with the control. Every click that
    does anything lands on an existing page. From an existing page,
    Next and Previous move by one page and stop at the ends, First and
    Last go to the two ends, and a click on a listed page goes there. *)
Theorem navigate_moves (pageIndex pageSize recordsTotal recordsFiltered : Z)
    (c : PagerClick) :
  let p := getDataTablePaging pageIndex pageSize recordsTotal recordsFiltered in
  let go := navigate pageIndex pageSize recordsTotal recordsFiltered in
  (handleClick (currentPage p) (totalPages p) c <> None ->
   0 <= go c <= totalPages p - 1)
  /\ (0 <= pageIndex < totalPages p ->
      go ClickFirst = 0
      /\ go ClickLast = totalPages p - 1
      /\ go ClickPrev = Z.max 0 (pageIndex - 1)
      /\ go ClickNext = Z.min (totalPages p - 1) (pageIndex + 1)
      /\ (forall page, 1 <= page <= totalPages p -> go (ClickPage page) = page - 1)).
Proof.
  intros p go. subst go.
  pose proof (totalPages_ge_1 pageIndex pageSize recordsTotal recordsFiltered) as H1.
  fold p in H1. split.
  - intros Hc. unfold navigate. fold p.
    destruct (handleClick (currentPage p) (totalPages p) c) as [page|]; [|congruence].
    apply goToPage_in_range.
  - intros Hi. unfold navigate. fold p.
    assert (Hcur : currentPage p = pageIndex + 1) by reflexivity.
    assert (Hgo : forall page, goToPage p page = Z.min (Z.max page 1) (totalPages p) - 1)
      by reflexivity.
    cbn [handleClick].
    unfold handleFirst, handlePrev, handleNext, handleLast, handlePageClick,
      canPrev, canNext, safeCurrentPage, safeTotalPages.
    rewrite Hcur. remember (totalPages p) as T eqn:ET. clear ET.
    destruct (Z.gtb_spec T 0); [|lia].
    split; [|split; [|split; [|split; [|intros page Hpage]]]];
      repeat match goal with
             | |- context [?a >? ?b] => destruct (Z.gtb_spec a b)
             | |- context [?a <? ?b] => destruct (Z.ltb_spec a b)
             | |- context [?a =? ?b] => destruct (Z.eqb_spec a b)
             end; cbn [negb]; rewrite ?Hgo; lia.
Qed.

Lemma navigate_moves_witness :
  navigate 2 10 57 0 ClickNext = 3 /\ navigate 5 10 57 0 ClickNext = 5.
Proof.
  split.
  - destruct (navigate_moves 2 10 57 0 ClickNext) as [_ H].
    destruct H as (_ & _ & _ & Hn & _); [vm_compute; split; congruence|exact Hn].
  - destruct (navigate_moves 5 10 57 0 ClickNext) as [_ H].
    destruct H as (_ & _ & _ & Hn & _); [vm_compute; split; congruence|exact Hn].
Defined.

(** X6: with a single page the control is inert: First, Previous, Next
    and Last return early and the only listed page is the highlighted
    one, so no click changes the page index, also when that index lies
    beyond the only page. *)
Theorem navigate_single_page_inert (pageIndex pageSize recordsTotal recordsFiltered : Z)
    (c : PagerClick) :
  let p := getDataTablePaging pageIndex pageSize recordsTotal recordsFiltered in
  totalPages p = 1 ->
  (forall q, c = ClickPage q -> In q (pageNumbers (pageItems (currentPage p) (totalPages p)))) ->
  navigate pageIndex pageSize recordsTotal recordsFiltered c = pageIndex.
Proof.
  intros p HT Hc. unfold navigate. fold p. revert Hc. rewrite HT. intros Hc.
  assert (HS : safeCurrentPage (currentPage p) 1 = 1).
  { pose proof (safeCurrentPage_in_range (currentPage p) 1) as H.
    change (safeTotalPages 1) with 1 in H. lia. }
  destruct c as [| | | |q]; cbn [handleClick];
    unfold handleFirst, handlePrev, handleNext, handleLast, handlePageClick,
      canPrev, canNext; rewrite HS; try reflexivity.
  specialize (Hc q eq_refl). unfold pageItems in Hc. rewrite HS in Hc.
  cbn in Hc. destruct Hc as [<-|[]]. reflexivity.
Qed.

Lemma navigate_single_page_inert_witness :
  let p := getDataTablePaging 5 10 7 0 in
  totalPages p = 1 /\ navigate 5 10 7 0 ClickFirst = 5.
Proof.
  split; [reflexivity|].
  apply (navigate_single_page_inert 5 10 7 0 ClickFirst); [reflexivity|].
  intros q Hq. discriminate Hq.
Defined.

End PaginationControl.

(** ** Query builder: what every query holds *)

Section QueryParameters.
Import DataTableShell QueryShape.

Lemma names_filter_subset (k n : string) (ps : URLSearchParams) :
  In n (map fst (List.filter (fun p => negb (String.eqb (fst p) k)) ps)) ->
  In n (map fst ps).
Proof.
  induction ps as [|[n' v'] r IH]; cbn; [tauto|].
  destruct (String.eqb n' k); cbn; tauto.
Qed.

Lemma names_params_set (k v n : string) (ps : URLSearchParams) :
  In n (map fst (params_set k v ps)) -> n = k \/ In n (map fst ps).
Proof.
  induction ps as [|[n' v'] r IH]; cbn.
  - intros [<-|[]]. now left.
  - destruct (String.eqb_spec n' k) as [->|Hne]; cbn.
    + intros [<-|H]; [now left|]. right. right. eapply names_filter_subset, H.
    + intros [<-|H]; [right; now left|]. destruct (IH H); tauto.
Qed.

Lemma filter_other_names (k : string) (ps : URLSearchParams) :
  ~ In k (map fst ps) ->
  List.filter (fun p => negb (String.eqb (fst p) k)) ps = ps.
Proof.
  induction ps as [|[n v] r IH]; cbn; [reflexivity|]. intros H.
  destruct (String.eqb_spec n k) as [->|_]; cbn; [tauto|].
  rewrite IH; tauto.
Qed.

Lemma params_set_NoDup (k v : string) (ps : URLSearchParams) :
  NoDup (map fst ps) -> NoDup (map fst (params_set k v ps)).
Proof.
  induction ps as [|[n v'] r IH]; cbn; intros H.
  - apply NoDup_singleton.
  - apply NoDup_cons in H as [Hn Hr]. rewrite list_elem_of_In in Hn.
    destruct (String.eqb_spec n k) as [->|Hne]; cbn.
    + rewrite filter_other_names by exact Hn.
      apply NoDup_cons. rewrite list_elem_of_In. auto.
    + apply NoDup_cons. split; [|auto]. rewrite list_elem_of_In.
      intros Hin. apply names_params_set in Hin as [->|Hin]; tauto.
Qed.

Lemma params_set_values (k v : string) (ps : URLSearchParams) :
  v <> ""%string -> Forall (fun p => snd p <> ""%string) ps ->
  Forall (fun p => snd p <> ""%string) (params_set k v ps).
Proof.
  intros Hv. induction ps as [|[n v'] r IH]; cbn; intros H.
  - now constructor.
  - apply Forall_cons in H as [Hh Hr].
    destruct (String.eqb n k); constructor; auto.
    apply List.Forall_forall. intros x Hx. apply filter_In in Hx as [Hx _].
    rewrite List.Forall_forall in Hr. auto.
Qed.

Lemma String_of_number_nonempty (n : Z) : Js.String_of_number n <> ""%string.
Proof.
  unfold Js.String_of_number. destruct (Z.to_int n) as [d|d]; [|discriminate].
  destruct d; discriminate.
Qed.

Lemma truthy_nonempty (s : string) : Js.truthy s = true -> s <> ""%string.
Proof. destruct s; cbn; congruence. Qed.

Lemma params_set_well_formed (k v : string) (ps : URLSearchParams) :
  v <> ""%string -> well_formed ps -> well_formed (params_set k v ps).
Proof.
  intros Hv [H1 H2]. split; [now apply params_set_NoDup|now apply params_set_values].
Qed.

Lemma addFilter_well_formed (ps : URLSearchParams) (e : string * FilterValue) :
  well_formed ps -> well_formed (addFilter ps e).
Proof.
  intros H. destruct e as [key value]. unfold addFilter.
  destruct value; try exact H;
    (match goal with |- context [Js.truthy ?t] => destruct (Js.truthy t) eqn:E end;
     [apply params_set_well_formed; [now apply truthy_nonempty|exact H]|exact H]).
Qed.

Lemma fold_addFilter_well_formed (fs : JsRecord FilterValue) (ps : URLSearchParams) :
  well_formed ps -> well_formed (fold_left addFilter fs ps).
Proof.
  revert ps. induction fs as [|e fs IH]; intros ps H; [exact H|].
  cbn. apply IH. now apply addFilter_well_formed.
Qed.

(** X7: every query the builder emits names each parameter once and has
    no parameter with an empty value, whatever the options: blank search
    terms and blank filter values are left out, never sent empty. *)
Theorem query_parameters_well_formed (o : DataTablesQueryOptions) :
  NoDup (map fst (buildDataTablesQueryParams o))
  /\ Forall (fun p => snd p <> ""%string) (buildDataTablesQueryParams o).
Proof.
  change (well_formed (buildDataTablesQueryParams o)).
  unfold buildDataTablesQueryParams.
  apply params_set_well_formed; [now destruct (sortDir o)|].
  apply params_set_well_formed; [apply String_of_number_nonempty|].
  assert (H0 : well_formed
                 (params_set "length" (Js.String_of_number (length o))
                    (params_set "start" (Js.String_of_number (start o))
                       (params_set "draw" "1" [])))).
  { repeat apply params_set_well_formed; try apply String_of_number_nonempty;
      try discriminate. split; constructor. }
  assert (H1 : well_formed
                 match option_map Js.trim (q_search o) with
                 | Some t =>
                     if Js.truthy t
                     then params_set "search[value]" t
                            (params_set "length" (Js.String_of_number (length o))
                               (params_set "start" (Js.String_of_number (start o))
                                  (params_set "draw" "1" [])))
                     else params_set "length" (Js.String_of_number (length o))
                            (params_set "start" (Js.String_of_number (start o))
                               (params_set "draw" "1" []))
                 | None => params_set "length" (Js.String_of_number (length o))
                             (params_set "start" (Js.String_of_number (start o))
                                (params_set "draw" "1" []))
                 end).
  { destruct (option_map Js.trim (q_search o)) as [t|]; [|exact H0].
    destruct (Js.truthy t) eqn:E; [|exact H0].
    apply params_set_well_formed; [now apply truthy_nonempty|exact H0]. }
  destruct (extraFilters o) as [fs|]; [|exact H1].
  now apply fold_addFilter_well_formed.
Qed.

(** X8: the sort of a query cannot be overridden: whatever the search
    term and the extra filters (even one keyed like a sort parameter),
    the emitted query carries the active sort column and direction. *)
Theorem query_sort_always_sent (o : DataTablesQueryOptions) :
  params_get "order[0][column]" (buildDataTablesQueryParams o)
  = Some (Js.String_of_number (sortColumn o))
  /\ params_get "order[0][dir]" (buildDataTablesQueryParams o)
     = Some (SortDir_to_string (sortDir o)).
Proof.
  unfold buildDataTablesQueryParams. split.
  - rewrite params_get_set_ne by discriminate. apply params_get_set_eq.
  - apply params_get_set_eq.
Qed.

Lemma sets_param_other_key (k key : string) (value : FilterValue) :
  key <> k -> sets_param k (key, value) = false.
Proof.
  intros H. unfold sets_param. cbn. now destruct (String.eqb_spec key k).
Qed.

Lemma existsb_sets_param_other (k : string) (fs : JsRecord FilterValue) :
  ~ In k (map fst fs) -> existsb (sets_param k) fs = false.
Proof.
  induction fs as [|[key value] fs IH]; cbn [existsb map fst In]; [reflexivity|].
  intros H. rewrite sets_param_other_key by tauto. apply IH. tauto.
Qed.

(** X9: what becomes of an extra filter. For filters with distinct
    keys, an entry whose value is not blank is sent under its key with
    the value trimmed; a key none of whose entries has a non-blank value
    is not sent at all. Both hold for every key but the two sort
    parameters (and, for the second, the builder's own parameters). *)
Theorem query_extra_filters (o : DataTablesQueryOptions) (fs : JsRecord FilterValue)
    (k : string) :
  extraFilters o = Some fs ->
  (forall value,
     NoDup (map fst fs) -> In (k, value) fs ->
     sets_param k (k, value) = true ->
     k <> "order[0][column]"%string -> k <> "order[0][dir]"%string ->
     params_get k (buildDataTablesQueryParams o)
     = Some (Js.trim (String_of_value value)))
  /\ (existsb (sets_param k) fs = false -> ~ In k fixed_names ->
      params_get k (buildDataTablesQueryParams o) = None).
Proof.
  intros Hfs. unfold buildDataTablesQueryParams. rewrite Hfs. split.
  - intros value Hnd Hin Hset Hc Hd.
    rewrite !params_get_set_ne by congruence.
    apply in_split in Hin as (l1 & l2 & ->).
    rewrite fold_left_app. cbn [fold_left].
    rewrite map_app in Hnd. cbn in Hnd.
    apply NoDup_app in Hnd as (_ & _ & Hnd). apply NoDup_cons in Hnd as [Hk _].
    rewrite list_elem_of_In in Hk.
    rewrite fold_addFilter_keeps by now apply existsb_sets_param_other.
    unfold sets_param in Hset. cbn in Hset. rewrite String.eqb_refl in Hset.
    unfold addFilter. destruct value; cbn in Hset |- *; try discriminate;
      rewrite Hset; apply params_get_set_eq.
  - intros Hnone Hk. unfold fixed_names in Hk. cbn [In] in Hk.
    assert (Hne : forall n, In n fixed_names -> k <> n).
    { intros n Hn ->. apply Hk. exact Hn. }
    rewrite !params_get_set_ne by (apply Hne; cbn; auto 10).
    rewrite fold_addFilter_keeps by exact Hnone.
    destruct (option_map Js.trim (q_search o)) as [t|]; [destruct (Js.truthy t)|];
      rewrite ?params_get_set_ne by (apply Hne; cbn; auto 10); reflexivity.
Qed.

Lemma query_extra_filters_witness :
  let fs := [("type", FString " DEBIT "); ("minAmount", FNumber 5); ("to", FString "  ")]%string in
  let o := {| start := 0; length := 10; q_search := None; sortColumn := 0;
              sortDir := desc; extraFilters := Some fs |} in
  params_get "type" (buildDataTablesQueryParams o) = Some "DEBIT"%string
  /\ params_get "to" (buildDataTablesQueryParams o) = None.
Proof.
  intros fs o.
  destruct (query_extra_filters o fs "type" eq_refl) as [Hin _].
  destruct (query_extra_filters o fs "to" eq_refl) as [_ Hout].
  split.
  - apply (Hin (FString " DEBIT ")); try discriminate; try reflexivity.
    + repeat constructor; rewrite list_elem_of_In; cbn; intuition discriminate.
    + now left.
  - apply Hout; [reflexivity|]. cbn. intuition discriminate.
Defined.

(** X10: the page window and the search term of a query. Unless an
    extra filter is itself keyed like one of them, the query carries
    the given start and length, and it carries the search term, trimmed,
    exactly when the trimmed term is not empty. *)
Theorem query_window_and_search (o : DataTablesQueryOptions) :
  (forall fs name, extraFilters o = Some fs ->
     In name ["start"; "length"; "search[value]"]%string ->
     existsb (sets_param name) fs = false) ->
  params_get "start" (buildDataTablesQueryParams o)
  = Some (Js.String_of_number (start o))
  /\ params_get "length" (buildDataTablesQueryParams o)
     = Some (Js.String_of_number (length o))
  /\ params_get "search[value]" (buildDataTablesQueryParams o)
     = match q_search o with
       | Some s => if Js.truthy (Js.trim s) then Some (Js.trim s) else None
       | None => None
       end.
Proof.
  intros H. unfold buildDataTablesQueryParams.
  assert (K : forall name ps, In name ["start"; "length"; "search[value]"]%string ->
            params_get name
              match extraFilters o with
              | Some fs => fold_left addFilter fs ps
              | None => ps
              end = params_get name ps).
  { intros name ps Hin. destruct (extraFilters o) as [fs|] eqn:E; [|reflexivity].
    apply fold_addFilter_keeps. now apply (H fs). }
  rewrite !params_get_set_ne by discriminate.
  rewrite !K by (cbn; tauto).
  destruct (q_search o) as [s|]; cbn [option_map]; [destruct (Js.truthy (Js.trim s))|];
    rewrite ?params_get_set_ne by discriminate;
    rewrite ?params_get_set_eq; repeat split; try reflexivity;
    rewrite ?params_get_set_ne by discriminate; rewrite ?params_get_set_eq; reflexivity.
Qed.

Lemma query_window_and_search_witness :
  let o := {| start := 40; length := 10; q_search := Some "  alice "%string;
              sortColumn := 2; sortDir := asc;
              extraFilters := Some [("type", FString "DEBIT")]%string |} in
  params_get "start" (buildDataTablesQueryParams o) = Some "40"%string
  /\ params_get "search[value]" (buildDataTablesQueryParams o) = Some "alice"%string.
Proof.
  intros o.
  assert (H : forall fs name, extraFilters o = Some fs ->
            In name ["start"; "length"; "search[value]"]%string ->
            existsb (sets_param name) fs = false).
  { intros fs name E Hin. injection E as <-.
    cbn in Hin. destruct Hin as [<-|[<-|[<-|[]]]]; reflexivity. }
  destruct (query_window_and_search o H) as (Hs & _ & Hq).
  split; [exact Hs|exact Hq].
Defined.

End QueryParameters.

(** ** Filter state, sort and reset *)

Section FilterState.
Import DataTableShell ServerDataTable TableHandlers.

Lemma record_get_assign {V} (k key : string) (v : V) (r : JsRecord V) :
  record_get k (record_assign key v r)
  = if String.eqb key k then Some v else record_get k r.
Proof.
  destruct (String.eqb_spec key k) as [->|Hne].
  - apply record_get_assign_eq.
  - apply record_get_assign_ne. congruence.
Qed.

Lemma names_record_assign {V} (k n : string) (v : V) (r : JsRecord V) :
  In n (map fst (record_assign k v r)) -> n = k \/ In n (map fst r).
Proof.
  induction r as [|[k' v'] r IH]; cbn.
  - intros [<-|[]]. now left.
  - destruct (String.eqb_spec k' k) as [->|Hne]; cbn; [tauto|].
    intros [<-|H]; [tauto|]. destruct (IH H); tauto.
Qed.

Lemma record_assign_NoDup {V} (k : string) (v : V) (r : JsRecord V) :
  NoDup (map fst r) -> NoDup (map fst (record_assign k v r)).
Proof.
  induction r as [|[k' v'] r IH]; cbn; intros H.
  - apply NoDup_singleton.
  - apply NoDup_cons in H as [Hn Hr]. rewrite list_elem_of_In in Hn.
    destruct (String.eqb_spec k' k) as [->|Hne]; cbn.
    + apply NoDup_cons. rewrite list_elem_of_In. auto.
    + apply NoDup_cons. split; [|auto]. rewrite list_elem_of_In.
      intros Hin. apply names_record_assign in Hin as [->|Hin]; tauto.
Qed.

Lemma assign_faithful (fs : FilterState) (key : string) (ef : JsRecord FilterValue) :
  Js.truthy (trimmedValue fs key) = true -> faithful fs ef ->
  faithful fs (record_assign key (FString (trimmedValue fs key)) ef).
Proof.
  intros Ht [Hnd H]. split; [now apply record_assign_NoDup|].
  intros k v. rewrite record_get_assign.
  destruct (String.eqb_spec key k) as [->|_]; [|apply H].
  intros E. injection E as <-. split; [reflexivity|now apply truthy_iff].
Qed.

Lemma assignRange_faithful (fs : FilterState) (dflt : string) (key : option string)
    (ef : JsRecord FilterValue) :
  faithful fs ef ->
  faithful fs (assignRange key (Js.trim (getter fs (Js.nullish key dflt) tt)) ef).
Proof.
  intros H. unfold assignRange. destruct key as [k|]; [|exact H]. cbn [Js.nullish].
  destruct (Js.truthy k); cbn [andb]; [|exact H].
  destruct (Js.truthy (Js.trim (getter fs k tt))) eqn:E; [|exact H].
  now apply assign_faithful.
Qed.

Lemma filterStep_faithful (fs : FilterState) (c : ServerDataTableColumn)
    (acc : JsRecord FilterValue * list string) :
  faithful fs (fst acc) -> faithful fs (fst (filterStep acc (columnWithState fs c))).
Proof.
  destruct acc as [ef deps]. intros H. unfold filterStep.
  rewrite getConfig_columnWithState.
  destruct (effectiveDefinition c) as [[ph qk|opts qk|p1 p2 mn mx|fk tk]|];
    cbn [buildConfig fst]; try exact H.
  - destruct (Js.truthy _) eqn:E; [|exact H]. now apply assign_faithful.
  - destruct (Js.truthy _) eqn:E; [|exact H]. now apply assign_faithful.
  - now apply assignRange_faithful, assignRange_faithful.
  - now apply assignRange_faithful, assignRange_faithful.
Qed.

(** X11: the derived extraFilters mirror the filter state. Whatever the
    columns and the state, no key occurs twice, and every entry is the
    trimmed, non-blank value the filter state holds under the same key:
    a blank or absent value is never an entry, and no entry carries
    another key's value. *)
Theorem extraFilters_mirror_state (fs : FilterState) (cols : list ServerDataTableColumn) :
  NoDup (map fst (derivedExtraFilters fs cols))
  /\ forall k v, record_get k (derivedExtraFilters fs cols) = Some v ->
       v = FString (trimmedValue fs k) /\ trimmedValue fs k <> ""%string.
Proof.
  change (faithful fs (derivedExtraFilters fs cols)).
  unfold derivedExtraFilters, getFilterStateFromColumns.
  assert (H : faithful fs (fst (([], []) : JsRecord FilterValue * list string))).
  { split; [constructor|]. intros k v E. discriminate E. }
  revert H. generalize (([], []) : JsRecord FilterValue * list string).
  induction cols as [|c cols IH]; intros acc H; [exact H|].
  cbn. apply IH. now apply filterStep_faithful.
Qed.

(** A state all of whose values are blank derives no filter. *)
Lemma blank_state_no_filters (fs : FilterState) (cols : list ServerDataTableColumn) :
  (forall k, trimmedValue fs k = ""%string) -> derivedExtraFilters fs cols = [].
Proof.
  intros Hb.
  destruct (derivedExtraFilters fs cols) as [|[k v] ef] eqn:E; [reflexivity|exfalso].
  destruct (extraFilters_mirror_state fs cols) as [_ H]. rewrite E in H.
  destruct (H k v) as [_ Hne]; [cbn; now rewrite String.eqb_refl|].
  now apply Hne.
Qed.

Lemma resetFilterState_lookup (fs : FilterState) (k : string) :
  resetFilterState fs !! k = (fun _ => ""%string) <$> fs !! k.
Proof.
  unfold resetFilterState. destruct (decide (size fs = 0%nat)) as [H|_].
  - apply map_size_empty_iff in H. subst fs. now rewrite lookup_empty.
  - apply lookup_fmap.
Qed.

Lemma resetFilterState_blank (fs : FilterState) (k : string) :
  trimmedValue (resetFilterState fs) k = ""%string.
Proof.
  unfold trimmedValue, getter. rewrite resetFilterState_lookup.
  now destruct (fs !! k).
Qed.

(** X12: Reset filters. Afterwards the page index is 0, the committed
    search is empty, the filter state has the same keys, each with the
    empty string, the sort is as before, and the query the hook builds
    is the base query of the table: first page, no search term and not
    one filter parameter. *)
Theorem handleResetFilters_clears (props : ServerDataTableProps)
    (authToken : option string) (t : Controller) :
  let t' := handleResetFilters t in
  pageIndex t' = 0
  /\ pageSize t' = pageSize t
  /\ c_search (component t') = ""%string
  /\ dom (c_filterState (component t')) = dom (c_filterState (component t))
  /\ (forall k v, c_filterState (component t') !! k = Some v -> v = ""%string)
  /\ derivedExtraFilters (c_filterState (component t')) (columns props) = []
  /\ currentQuery props authToken t'
     = baseQuery (pageSize t) (c_sortColumn (component t)) (c_sortDir (component t)).
Proof.
  intros t'.
  assert (Hef : derivedExtraFilters (c_filterState (component t')) (columns props) = []).
  { apply blank_state_no_filters. intros k. apply resetFilterState_blank. }
  split; [reflexivity|]. split; [reflexivity|]. split; [reflexivity|].
  split; [|split; [|split; [exact Hef|]]].
  - cbn. unfold resetFilterState. destruct (decide _); [reflexivity|apply dom_fmap_L].
  - intros k v. cbn. rewrite resetFilterState_lookup.
    destruct (c_filterState (component t) !! k); cbn; congruence.
  - unfold currentQuery, hookOptions. cbn [buildQueryOptions].
    rewrite Hef. reflexivity.
Qed.

(** X13: a click on a sortable header. The clicked column becomes the
    sort column and the page index returns to 0; the filters, the search
    and the page size are untouched; a click on the column already
    active flips the direction, a click on another column sorts it
    ascending; and the query built next carries exactly that sort. *)
Theorem handleSort_query (props : ServerDataTableProps) (authToken : option string)
    (columnIndex : Z) (t : Controller) :
  let t' := handleSort columnIndex t in
  let flipped := match c_sortDir (component t) with asc => desc | desc => asc end in
  let dir := if c_sortColumn (component t) =? columnIndex then flipped else asc in
  c_sortColumn (component t') = columnIndex
  /\ c_sortDir (component t') = dir
  /\ pageIndex t' = 0
  /\ pageSize t' = pageSize t
  /\ c_filterState (component t') = c_filterState (component t)
  /\ c_search (component t') = c_search (component t)
  /\ params_get "order[0][column]" (currentQuery props authToken t')
     = Some (Js.String_of_number columnIndex)
  /\ params_get "order[0][dir]" (currentQuery props authToken t')
     = Some (SortDir_to_string dir)
  /\ handleSort columnIndex (handleSort columnIndex t') = t'.
Proof.
  intros t' flipped dir. subst t' flipped dir.
  assert (Hcol : c_sortColumn (component (handleSort columnIndex t)) = columnIndex).
  { unfold handleSort. cbn. destruct (Z.eqb_spec (c_sortColumn (component t)) columnIndex);
      cbn; congruence. }
  assert (Hdir : c_sortDir (component (handleSort columnIndex t))
                 = if c_sortColumn (component t) =? columnIndex
                   then match c_sortDir (component t) with asc => desc | desc => asc end
                   else asc).
  { unfold handleSort. cbn. now destruct (c_sortColumn (component t) =? columnIndex). }
  split; [exact Hcol|]. split; [exact Hdir|].
  split; [reflexivity|]. split; [reflexivity|].
  split; [unfold handleSort; cbn; now destruct (_ =? _)|].
  split; [unfold handleSort; cbn; now destruct (_ =? _)|].
  split; [|split].
  - unfold currentQuery. rewrite (proj1 (query_sort_always_sent _)).
    do 2 f_equal. exact Hcol.
  - unfold currentQuery. rewrite (proj2 (query_sort_always_sent _)).
    do 2 f_equal. exact Hdir.
  - unfold handleSort. cbn.
    destruct (Z.eqb_spec (c_sortColumn (component t)) columnIndex) as [E|E]; cbn;
      rewrite ?E, Z.eqb_refl; cbn; rewrite ?Z.eqb_refl; cbn;
      destruct (c_sortDir (component t)); reflexivity.
Qed.

End FilterState.

(** ** The search effect inside the table component *)

Section RenderEffect.
Import DataTableShell ServerDataTable TableHandlers.

Lemma renderEffect_search (o : DebouncedSearchOptions) (t : Controller) (st : SearchState) :
  snd (renderEffect o (t, st)) = searchEffect o st.
Proof.
  unfold renderEffect, searchEffect.
  now destruct ((Js.length _ >=? minLength o) || (Js.length _ =? 0)).
Qed.

(** X14: in ServerDataTable the search effect runs after every render,
    because the onCommit closure it depends on is created anew by each
    render. While the pending search is empty or long enough, each such
    run calls setPageIndex(0): whatever page a click on the pagination
    control selects, the render that follows puts the table back on
    page index 0. While the pending search is short, the run leaves the
    page alone and rearms the timer with the full delay. *)
Theorem render_resets_page (o : DebouncedSearchOptions) (t : Controller) (st : SearchState) :
  let trimmed := Js.trim (pendingSearch st) in
  (immediate o trimmed ->
     pageIndex (fst (renderEffect o (t, st))) = 0
     /\ c_search (component (fst (renderEffect o (t, st)))) = trimmed
     /\ forall recordsTotal recordsFiltered click,
          pageIndex (fst (clickAndRender o recordsTotal recordsFiltered click (t, st))) = 0)
  /\ (~ immediate o trimmed ->
        fst (renderEffect o (t, st)) = t
        /\ timer (snd (renderEffect o (t, st))) = Some (delayMs o, trimmed)).
Proof.
  intros trimmed. subst trimmed. split.
  - intros Hi. apply immediate_test in Hi.
    assert (E : forall t0, pageIndex (fst (renderEffect o (t0, st))) = 0
                           /\ c_search (component (fst (renderEffect o (t0, st))))
                              = Js.trim (pendingSearch st)).
    { intros t0. unfold renderEffect, clearTimeout. cbn [pendingSearch].
      rewrite Hi. split; reflexivity. }
    split; [apply E|]. split; [apply E|].
    intros rt rf click. unfold clickAndRender. apply E.
  - intros Hd. rewrite <- immediate_test in Hd. apply not_true_is_false in Hd.
    unfold renderEffect, clearTimeout. cbn [pendingSearch]. rewrite Hd.
    split; reflexivity.
Qed.

Lemma render_resets_page_witness :
  let o := defaultSearchOptions in
  let t := {| component := initialComponentState; pageIndex := 0; pageSize := 10 |} in
  Pagination.navigate 0 10 57 0 Pagination.ClickNext = 1
  /\ pageIndex (fst (clickAndRender o 57 0 Pagination.ClickNext (t, mountSearch o))) = 0.
Proof.
  intros o t. split; [reflexivity|].
  destruct (render_resets_page o t (mountSearch o)) as [H _].
  destruct H as (_ & _ & H); [right; reflexivity|].
  apply H.
Defined.

End RenderEffect.

(** ** Debounced search: what a run of events maintains *)

Section DebounceInvariants.
Import DataTableShell SearchInvariants.

Lemma trimEnd_keeps_head (c : ascii) (r : string) :
  Js.is_white_space c = false ->
  Js.trimEnd (String c r) = String c (Js.trimEnd r).
Proof.
  intros H. cbn [Js.trimEnd]. destruct (Js.trimEnd r); [now rewrite H|reflexivity].
Qed.

Lemma trimEnd_idempotent (s : string) : Js.trimEnd (Js.trimEnd s) = Js.trimEnd s.
Proof.
  induction s as [|c r IH]; [reflexivity|]. cbn [Js.trimEnd].
  destruct (Js.trimEnd r) as [|c' r'] eqn:E.
  - destruct (Js.is_white_space c) eqn:W; [reflexivity|].
    cbn [Js.trimEnd]. now rewrite W.
  - cbn [Js.trimEnd] in IH |- *. rewrite IH. reflexivity.
Qed.

Lemma trimStart_head (s : string) :
  Js.trimStart s = ""%string
  \/ exists c r, Js.trimStart s = String c r /\ Js.is_white_space c = false.
Proof.
  induction s as [|c r IH]; [now left|]. cbn [Js.trimStart].
  destruct (Js.is_white_space c) eqn:W; [exact IH|]. right. now exists c, r.
Qed.

(** Trimming twice is trimming once. *)
Lemma trim_idempotent (s : string) : Js.trim (Js.trim s) = Js.trim s.
Proof.
  unfold Js.trim. destruct (trimStart_head s) as [->|(c & r & -> & W)]; [reflexivity|].
  rewrite (trimEnd_keeps_head c r W). cbn [Js.trimStart]. rewrite W.
  rewrite <- (trimEnd_keeps_head c r W). apply trimEnd_idempotent.
Qed.

Lemma searchEffect_settled (o : DebouncedSearchOptions) (st : SearchState) :
  settled_or_due o (searchEffect o st).
Proof.
  destruct (immediate_dec o (Js.trim (pendingSearch st))) as [H|H].
  - rewrite searchEffect_immediate by exact H. reflexivity.
  - rewrite searchEffect_deferred by exact H. cbn. repeat split; [exact H|lia].
Qed.

Lemma settled_tracks (o : DebouncedSearchOptions) (st : SearchState) :
  settled_or_due o st -> timer_tracks_pending o st.
Proof.
  unfold settled_or_due, timer_tracks_pending.
  destruct (timer st) as [[r t]|]; [|trivial]. tauto.
Qed.

Lemma searchStep_settled (o : DebouncedSearchOptions) (st : SearchState) (e : SearchEvent) :
  forward e -> settled_or_due o st -> settled_or_due o (searchStep o st e).
Proof.
  intros He H. destruct e as [v|ms|]; cbn [searchStep].
  - unfold setPendingSearch.
    destruct (String.eqb v (pendingSearch st)); [exact H|apply searchEffect_settled].
  - cbn in He. unfold settled_or_due, elapse in *.
    destruct (timer st) as [[r t]|] eqn:E.
    + destruct H as (-> & Hn & Hr). destruct (r <=? ms); cbn.
      * reflexivity.
      * repeat split; [exact Hn|lia].
    + now rewrite E.
  - unfold reset. destruct (String.eqb_spec (pendingSearch st) "") as [E|_].
    + pose proof (reset_no_timer o st (settled_tracks o st H)) as Hn.
      unfold reset in Hn. rewrite E, String.eqb_refl in Hn. cbn in Hn.
      unfold settled_or_due. cbn. now rewrite Hn.
    + apply searchEffect_settled.
Qed.

Lemma searchRun_settled (o : DebouncedSearchOptions) (es : list SearchEvent) :
  Forall forward es -> settled_or_due o (searchRun o es).
Proof.
  unfold searchRun, mountSearch.
  generalize (searchEffect_settled o
    {| search := initialValue o; pendingSearch := initialValue o;
       timer := None; commits := [] |}).
  generalize (searchEffect o
    {| search := initialValue o; pendingSearch := initialValue o;
       timer := None; commits := [] |}).
  induction es as [|e es IH]; intros st H Hf; cbn; [exact H|].
  apply Forall_cons in Hf as [He Hf]. apply IH; [|exact Hf].
  now apply searchStep_settled.
Qed.

(** X15: the search box settles. After any sequence of keystrokes,
    waits and resets, once delayMs pass without a further event the
    committed search is the trimmed content of the box, nothing remains
    scheduled and the box itself is unchanged. *)
Theorem search_settles (o : DebouncedSearchOptions) (es : list SearchEvent) :
  Forall forward es ->
  let st := searchRun o es in
  let st' := elapse (delayMs o) st in
  search st' = Js.trim (pendingSearch st)
  /\ timer st' = None
  /\ pendingSearch st' = pendingSearch st.
Proof.
  intros Hf st st'. pose proof (searchRun_settled o es Hf) as H. fold st in H.
  subst st'. unfold settled_or_due in H. unfold elapse.
  destruct (timer st) as [[r t]|] eqn:E.
  - destruct H as (-> & _ & Hr).
    destruct (Z.leb_spec r (delayMs o)); [|lia]. cbn. repeat split.
  - rewrite E. repeat split. exact H.
Qed.

Lemma search_settles_witness :
  let o := defaultSearchOptions in
  let es := [TypeText " a"; Wait 1000; TypeText " ab "; Wait 300] in
  Forall forward es
  /\ search (elapse 2500 (searchRun o es)) = "ab"%string.
Proof.
  intros o es.
  assert (Hf : Forall forward es) by (repeat constructor; cbn; lia).
  split; [exact Hf|].
  exact (proj1 (search_settles o es Hf)).
Defined.

Lemma searchEffect_trimmed (o : DebouncedSearchOptions) (st : SearchState) :
  Forall (fun v => Js.trim v = v) (commits st) -> commits_trimmed (searchEffect o st).
Proof.
  intros H. destruct (immediate_dec o (Js.trim (pendingSearch st))) as [Hi|Hi].
  - rewrite searchEffect_immediate by exact Hi. split; [|exact I]. cbn.
    apply Forall_app. split; [exact H|]. repeat constructor. apply trim_idempotent.
  - rewrite searchEffect_deferred by exact Hi. split; [exact H|]. apply trim_idempotent.
Qed.

Lemma searchStep_trimmed (o : DebouncedSearchOptions) (st : SearchState) (e : SearchEvent) :
  commits_trimmed st -> commits_trimmed (searchStep o st e).
Proof.
  intros [Hc Ht]. destruct e as [v|ms|]; cbn [searchStep].
  - unfold setPendingSearch.
    destruct (String.eqb v (pendingSearch st)); [now split|now apply searchEffect_trimmed].
  - unfold elapse, commits_trimmed.
    destruct (timer st) as [[r t]|] eqn:E; [|now rewrite E].
    destruct (r <=? ms); cbn; [|now split].
    split; [|exact I]. apply Forall_app. split; [exact Hc|]. now repeat constructor.
  - assert (Hc' : Forall (fun v => Js.trim v = v) (commits st ++ [""%string])).
    { apply Forall_app. split; [exact Hc|]. now repeat constructor. }
    unfold reset. destruct (String.eqb (pendingSearch st) "").
    + now split.
    + now apply searchEffect_trimmed.
Qed.

(** X16: whatever the events, every value handed to onCommit (and every
    committed search it stands for) is already trimmed: it has no white
    space at either end, so trimming it again changes nothing. *)
Theorem commits_are_trimmed (o : DebouncedSearchOptions) (es : list SearchEvent) :
  Forall (fun v => Js.trim v = v) (commits (searchRun o es)).
Proof.
  assert (H : commits_trimmed (searchRun o es)); [|exact (proj1 H)].
  unfold searchRun, mountSearch.
  assert (H0 : commits_trimmed
                 (searchEffect o {| search := initialValue o; pendingSearch := initialValue o;
                                    timer := None; commits := [] |}))
    by (apply searchEffect_trimmed; constructor).
  revert H0. generalize (searchEffect o
    {| search := initialValue o; pendingSearch := initialValue o;
       timer := None; commits := [] |}).
  induction es as [|e es IH]; intros st H; cbn; [exact H|].
  apply IH. now apply searchStep_trimmed.
Qed.

End DebounceInvariants.

(** ** Reporting hooks: what every run maintains *)

Section ReportingRuns.
Import HttpClient Reporting ReportingRun.

Lemma reportCleanup_lookup {T} (h : Hook T) (j : nat) (l' : LoadCall) :
  loads (reportCleanup h) !! j = Some l' ->
  exists l, loads h !! j = Some l /\ finished l = finished l'
            /\ (cancelled l' = false -> cancelled l = false /\ active h <> Some j).
Proof.
  unfold reportCleanup. destruct (active h) as [i|] eqn:Ea; [|intros H; exists l'; now auto].
  cbn. destruct (loads h !! i) as [l|] eqn:El.
  - destruct (decide (i = j)) as [<-|Hne].
    + rewrite list_lookup_insert_eq by (eapply lookup_lt_Some; eauto).
      intros E. injection E as <-. exists l. cbn. repeat split; congruence.
    + rewrite list_lookup_insert_ne by exact Hne. intros H. exists l'.
      repeat split; congruence.
  - intros H. exists l'. repeat split; congruence.
Qed.

Lemma reportCleanup_all_cancelled {T} (h : Hook T) (j : nat) (l : LoadCall) :
  latest_only h -> loads (reportCleanup h) !! j = Some l -> cancelled l = true.
Proof.
  intros Hl Hj. destruct (cancelled l) eqn:Ec; [reflexivity|exfalso].
  apply reportCleanup_lookup in Hj as (l0 & Hl0 & _ & Hc).
  destruct (Hc Ec) as [Hc0 Hact]. apply Hact. now apply (Hl j l0).
Qed.

Lemma reportCleanup_state {T} (h : Hook T) :
  state (reportCleanup h) = state h /\ active (reportCleanup h) = None
  /\ globalLoading (reportCleanup h) = globalLoading h.
Proof. unfold reportCleanup. destruct (active h) eqn:E; cbn; auto. Qed.

Lemma reportEffect_latest_only {T} (k : ReportingHook) (token : option string) (h : Hook T) :
  latest_only h -> latest_only (reportEffect k token h).
Proof.
  intros Hl. pose proof (reportCleanup_all_cancelled h) as Hc.
  assert (Hnone : @latest_only T
            {| state := {| data := []; loading := false; error := None |};
               loads := loads (reportCleanup h); active := None;
               requests := requests (reportCleanup h);
               globalLoading := globalLoading (reportCleanup h) |}).
  { intros i l Hi. cbn in *. rewrite (Hc i l Hl Hi). split; discriminate. }
  unfold reportEffect. destruct token as [t|]; [|exact Hnone].
  destruct (Js.truthy t); [|exact Hnone].
  intros i l. cbn. intros Hi.
  destruct (lt_eq_lt_dec i (List.length (loads (reportCleanup h)))) as [[Hlt| ->]|Hgt].
  - rewrite lookup_app_l in Hi by exact Hlt. rewrite (Hc i l Hl Hi).
    split; [discriminate|]. intros E. injection E as E. lia.
  - rewrite lookup_app_r, Nat.sub_diag in Hi by lia. injection Hi as <-. now split.
  - rewrite lookup_app_r in Hi by lia.
    destruct (i - List.length (loads (reportCleanup h)))%nat as [|n] eqn:E; [lia|].
    discriminate Hi.
Qed.

Lemma reportSettle_latest_only {T} (k : ReportingHook) (i : nat)
    (outcome : list T + Thrown) (h : Hook T) :
  latest_only h -> latest_only (reportSettle k i outcome h).
Proof.
  intros Hl. unfold reportSettle. destruct (loads h !! i) as [l|] eqn:El; [|exact Hl].
  destruct (finished l); [exact Hl|]. intros j l'. cbn.
  destruct (decide (i = j)) as [<-|Hne].
  - rewrite list_lookup_insert_eq by (eapply lookup_lt_Some; eauto).
    intros E. injection E as <-. cbn. now apply Hl.
  - rewrite list_lookup_insert_ne by exact Hne. apply Hl.
Qed.

Lemma reportRun_latest_only {T} (k : ReportingHook) (es : list (ReportEvent T)) :
  latest_only (reportRun k es).
Proof.
  unfold reportRun.
  assert (H : latest_only (@mountReport T)) by (intros i l Hi; discriminate Hi).
  revert H. generalize (@mountReport T).
  induction es as [|e es IH]; intros h H; cbn; [exact H|]. apply IH.
  destruct e; cbn; [now apply reportEffect_latest_only|now apply reportSettle_latest_only].
Qed.

(** X17: in a reporting hook only the latest load is heard. After any
    sequence of effect runs and settled requests, the result or failure
    of a load other than the one started by the last effect run leaves
    rows, error and loading flag exactly as they are. *)
Theorem reporting_latest_wins {T} (k : ReportingHook) (es : list (ReportEvent T))
    (i : nat) (outcome : list T + Thrown) :
  let h := reportRun k es in
  active h <> Some i ->
  state (reportSettle k i outcome h) = state h.
Proof.
  intros h Hact. destruct (loads h !! i) as [l|] eqn:El.
  - apply (reportSettle_cancelled_discarded k h i l outcome El).
    destruct (cancelled l) eqn:Ec; [reflexivity|].
    destruct Hact. now apply (reportRun_latest_only k es i l).
  - unfold reportSettle. now rewrite El.
Qed.

Lemma reporting_latest_wins_witness :
  let k := useTopTransactionsPerUser in
  let es := [EffectRun (Some "jwt"%string); EffectRun (Some "jwt"%string);
             SettleLoad 1 (inl ["fresh"%string])] in
  active (reportRun k es) <> Some 0%nat
  /\ data (state (reportSettle k 0 (inl ["stale"%string]) (reportRun k es)))
     = ["fresh"%string].
Proof.
  intros k es.
  assert (H : active (reportRun k es) <> Some 0%nat) by (vm_compute; congruence).
  split; [exact H|].
  rewrite (reporting_latest_wins k es 0 (inl ["stale"%string]) H). reflexivity.
Defined.

Lemma reportResume_loading {T} (k : ReportingHook) (l : LoadCall)
    (outcome : list T + Thrown) (s : ReportState T) :
  cancelled l = false -> loading (reportResume k l outcome s) = false.
Proof.
  intros Hc. unfold reportResume. rewrite Hc.
  destruct outcome as [rows|[e|]]; cbn; [reflexivity| |reflexivity].
  now destruct (status e =? 401).
Qed.

Lemma reportStep_loading_tracks {T} (k : ReportingHook) (h : Hook T) (e : ReportEvent T) :
  latest_only h -> loading_tracks h -> loading_tracks (reportStep k h e).
Proof.
  intros Hl Ht. destruct e as [token|i outcome]; cbn [reportStep].
  - assert (Hoff : @loading_tracks T
              {| state := {| data := []; loading := false; error := None |};
                 loads := loads (reportCleanup h); active := None;
                 requests := requests (reportCleanup h);
                 globalLoading := globalLoading (reportCleanup h) |}).
    { split; cbn; [discriminate|]. intros (n & l & E & _). discriminate E. }
    unfold reportEffect. destruct token as [t|]; [|exact Hoff].
    destruct (Js.truthy t); [|exact Hoff].
    split; cbn; [intros _|reflexivity].
    exists (List.length (loads (reportCleanup h))),
      {| cancelled := false; finished := false |}.
    split; [reflexivity|]. split; [|reflexivity].
    now rewrite lookup_app_r, Nat.sub_diag.
  - unfold reportSettle. destruct (loads h !! i) as [l|] eqn:El; [|exact Ht].
    destruct (finished l) eqn:Ef; [exact Ht|].
    assert (Hlt : (i < List.length (loads h))%nat) by (eapply lookup_lt_Some; eauto).
    destruct (cancelled l) eqn:Ec.
    + assert (Hne : active h <> Some i).
      { intros E. apply (Hl i l El) in E. congruence. }
      assert (Hs : reportResume k l outcome (state h) = state h).
      { unfold reportResume. rewrite Ec. now destruct outcome. }
      unfold loading_tracks in *. cbn. rewrite Hs. split.
      * intros Hload. apply Ht in Hload as (n & l' & Ea & Hn & Hf). exists n, l'.
        split; [exact Ea|]. split; [|exact Hf].
        rewrite list_lookup_insert_ne by congruence. exact Hn.
      * intros (n & l' & Ea & Hn & Hf). apply Ht. exists n, l'.
        split; [exact Ea|]. split; [|exact Hf].
        rewrite list_lookup_insert_ne in Hn by congruence. exact Hn.
    + assert (Ha : active h = Some i) by now apply (Hl i l El).
      unfold loading_tracks. cbn. rewrite reportResume_loading by exact Ec.
      split; [discriminate|]. intros (n & l' & Ea & Hn & Hf).
      rewrite Ha in Ea. injection Ea as <-.
      rewrite list_lookup_insert_eq in Hn by exact Hlt. injection Hn as <-.
      discriminate Hf.
Qed.

(** X18: the loading flag of a reporting hook is never stuck. After any
    sequence of effect runs and settled requests it is on exactly when
    the load started by the last effect run exists and has not finished;
    it is off once that load finishes and after an effect run without
    a token. *)
Theorem reporting_loading_flag {T} (k : ReportingHook) (es : list (ReportEvent T)) :
  let h := reportRun k es in
  loading (state h) = true
  <-> exists n l, active h = Some n /\ loads h !! n = Some l /\ finished l = false.
Proof.
  intros h. change (loading_tracks h). subst h. unfold reportRun.
  assert (H : latest_only (@mountReport T) /\ loading_tracks (@mountReport T)).
  { split; [intros i l Hi; discriminate Hi|].
    split; cbn; [discriminate|]. intros (n & l & E & _). discriminate E. }
  revert H. generalize (@mountReport T).
  induction es as [|e es IH]; intros h [Hl Ht]; cbn; [exact Ht|]. apply IH. split.
  - destruct e; cbn; [now apply reportEffect_latest_only|now apply reportSettle_latest_only].
  - now apply reportStep_loading_tracks.
Qed.

Lemma unfinished_insert (l : list LoadCall) (i : nat) (a b : LoadCall) :
  l !! i = Some a ->
  (List.length (List.filter (fun x => negb (finished x)) (<[i := b]> l))
   + (if finished a then 0 else 1)
   = List.length (List.filter (fun x => negb (finished x)) l)
     + (if finished b then 0 else 1))%nat.
Proof.
  revert i. induction l as [|x r IH]; intros [|i] H; try discriminate H.
  - cbn in H. injection H as ->.
    change (<[0%nat := b]> (a :: r)) with (b :: r). cbn [List.filter].
    destruct (finished a), (finished b); cbn [negb List.length]; lia.
  - cbn in H. specialize (IH i H).
    change (<[S i := b]> (x :: r)) with (x :: <[i := b]> r). cbn [List.filter].
    destruct (negb (finished x)); cbn [List.length]; lia.
Qed.

Lemma inFlight_cleanup {T} (h : Hook T) : inFlight (reportCleanup h) = inFlight h.
Proof.
  unfold inFlight, reportCleanup. destruct (active h) as [i|]; [|reflexivity]. cbn.
  destruct (loads h !! i) as [l|] eqn:El; [|reflexivity].
  pose proof (unfinished_insert (loads h) i l
                {| cancelled := true; finished := finished l |} El) as H.
  cbn in H. destruct (finished l); lia.
Qed.

Lemma reportStep_count {T} (k : ReportingHook) (h : Hook T) (e : ReportEvent T) :
  GlobalLoading.countAfter (Z.of_nat (inFlight h)) (stepCalls h e)
  = Z.of_nat (inFlight (reportStep k h e)).
Proof.
  destruct e as [token|i outcome]; cbn [stepCalls reportStep].
  - unfold reportEffect. destruct token as [t|]; cbn [Js.truthy_opt];
      [destruct (Js.truthy t)|]; cbn; unfold inFlight; cbn;
      try (rewrite List.filter_app, length_app; cbn);
      fold (inFlight (reportCleanup h)); rewrite inFlight_cleanup;
      unfold GlobalLoading.startLoading, inFlight; lia.
  - unfold reportSettle. destruct (loads h !! i) as [l|] eqn:El; [|reflexivity].
    destruct (finished l) eqn:Ef; [reflexivity|]. cbn.
    pose proof (unfinished_insert (loads h) i l
                  {| cancelled := cancelled l; finished := true |} El) as H.
    rewrite Ef in H. cbn in H. unfold inFlight. cbn.
    unfold GlobalLoading.stopLoading.
    destruct (Z.gtb_spec (Z.of_nat (List.length (List.filter (fun l0 => negb (finished l0)) (loads h)))) 0);
      lia.
Qed.

Lemma countAfter_app (c : Z) (a b : list GlobalLoading.Call) :
  GlobalLoading.countAfter c (a ++ b)
  = GlobalLoading.countAfter (GlobalLoading.countAfter c a) b.
Proof. unfold GlobalLoading.countAfter. apply fold_left_app. Qed.

(** X19: the global loading bar follows the loads of a reporting hook.
    Feeding the provider the startLoading and stopLoading calls of any
    run of the hook, its count is the number of loads that have not
    finished, cancelled ones included; so the bar shows exactly while
    some request of the hook is still out, and the guard against a
    negative count is never what keeps it right. *)
Theorem global_loading_follows_loads {T} (k : ReportingHook) (es : list (ReportEvent T)) :
  let count := GlobalLoading.countAfter 0 (runCalls k mountReport es) in
  count = Z.of_nat (inFlight (reportRun k es))
  /\ (GlobalLoading.isLoading count = true <-> (0 < inFlight (reportRun k es))%nat).
Proof.
  intros count.
  assert (H : count = Z.of_nat (inFlight (reportRun k es))).
  { subst count. unfold reportRun.
    change 0 with (Z.of_nat (inFlight (@mountReport T))).
    generalize (@mountReport T).
    induction es as [|e es IH]; intros h; cbn [runCalls fold_left]; [reflexivity|].
    rewrite countAfter_app, (reportStep_count k h e). apply IH. }
  split; [exact H|]. rewrite H. unfold GlobalLoading.isLoading.
  destruct (Z.gtb_spec (Z.of_nat (inFlight (reportRun k es))) 0); split;
    intros; try lia; try discriminate; reflexivity.
Qed.

End ReportingRuns.

(** ** Stored session *)

Section StoredSession.
Import AuthStorage AuthSession.

Lemma loadAuthToken_same (platform : Platform) (now : Z) (window : bool)
    (localStorage : gmap string string) (r : option string) :
  loadAuthToken platform now window localStorage = (r, localStorage) ->
  r = None \/ (exists t, r = Some t /\ localStorage !! TOKEN_KEY = Some t
                         /\ t <> ""%string
                         /\ isTokenExpired platform now t = false) ->
  loadAuthToken platform now window localStorage = (r, localStorage)
  /\ (forall k, k <> TOKEN_KEY -> k <> USER_KEY ->
        localStorage !! k = localStorage !! k)
  /\ (forall t, r = Some t ->
        localStorage = localStorage /\ localStorage !! TOKEN_KEY = Some t
        /\ t <> ""%string /\ isTokenExpired platform now t = false)
  /\ (localStorage <> localStorage ->
        r = None /\ localStorage !! TOKEN_KEY = None
        /\ localStorage !! USER_KEY = None).
Proof.
  intros E Hr. split; [exact E|]. split; [reflexivity|].
  split; [|congruence]. intros t0 Et0.
  destruct Hr as [->|(t1 & -> & H1 & H2 & H3)]; [discriminate|].
  injection Et0 as <-. auto.
Qed.

Lemma loadAuthToken_cases (platform : Platform) (now : Z) (window : bool)
    (localStorage : gmap string string) :
  (loadAuthToken platform now window localStorage
   = (None, delete USER_KEY (delete TOKEN_KEY localStorage))
   /\ window = true
   /\ exists t, localStorage !! TOKEN_KEY = Some t /\ t <> ""%string
                /\ isTokenExpired platform now t = true)
  \/ (exists r, loadAuthToken platform now window localStorage = (r, localStorage)
                /\ (r = None
                    \/ exists t, r = Some t /\ localStorage !! TOKEN_KEY = Some t
                                 /\ t <> ""%string
                                 /\ isTokenExpired platform now t = false)).
Proof.
  unfold loadAuthToken. destruct window; cbn [negb]; [|right; exists None; auto].
  destruct (localStorage !! TOKEN_KEY) as [token|]; [|right; exists None; auto].
  destruct (Js.truthy token) eqn:Et; cbn [negb]; [|right; exists None; auto].
  apply truthy_iff in Et.
  destruct (isTokenExpired platform now token) eqn:Ee.
  - left. split; [reflexivity|]. split; [reflexivity|]. now exists token.
  - right. exists (Some token). split; [reflexivity|]. right. now exists token.
Qed.

(** X20: loading the token is idempotent and touches nothing else. A
    second loadAuthToken returns what the first returned and leaves the
    store as the first left it; keys other than the token and the user
    profile are never changed; a returned token is the stored one, not
    empty and not expired, and then the store is untouched; and the
    store is changed only by removing both session keys. *)
Theorem loadAuthToken_idempotent (platform : Platform) (now : Z) (window : bool)
    (localStorage : gmap string string) :
  let result := fst (loadAuthToken platform now window localStorage) in
  let after := snd (loadAuthToken platform now window localStorage) in
  loadAuthToken platform now window after = (result, after)
  /\ (forall k, k <> TOKEN_KEY -> k <> USER_KEY -> after !! k = localStorage !! k)
  /\ (forall t, result = Some t ->
        after = localStorage /\ localStorage !! TOKEN_KEY = Some t
        /\ t <> ""%string /\ isTokenExpired platform now t = false)
  /\ (after <> localStorage ->
        result = None /\ after !! TOKEN_KEY = None /\ after !! USER_KEY = None).
Proof.
  intros result after. subst result after.
  destruct (loadAuthToken_cases platform now window localStorage)
    as [(E & Hw & t & Hl & Ht & He)|(r & E & Hr)]; rewrite E; cbn [fst snd].
  - subst window. unfold loadAuthToken. cbn [negb].
    rewrite (lookup_delete_ne (delete TOKEN_KEY localStorage) USER_KEY TOKEN_KEY)
      by discriminate.
    rewrite (lookup_delete_eq localStorage TOKEN_KEY).
    split; [reflexivity|]. split; [|split].
    + intros k H1 H2.
      rewrite (lookup_delete_ne (delete TOKEN_KEY localStorage) USER_KEY k) by congruence.
      now rewrite (lookup_delete_ne localStorage TOKEN_KEY k) by congruence.
    + intros t0 E0. discriminate E0.
    + intros _. split; [reflexivity|]. split; [reflexivity|]. apply lookup_delete_eq.
  - now apply loadAuthToken_same.
Qed.

(** X21: an expired token stays expired. If isTokenExpired holds at one
    time it holds at every later time, so a token that was dropped on
    load would be dropped on any later load as well. *)
Theorem isTokenExpired_monotone (platform : Platform) (now later : Z) (token : string) :
  now <= later ->
  isTokenExpired platform now token = true ->
  isTokenExpired platform later token = true.
Proof.
  intros Hle. unfold isTokenExpired.
  destruct (decodeJwtExp platform token) as [exp|]; [|discriminate].
  destruct (Qeq_bool exp 0); [discriminate|].
  rewrite !Qle_bool_iff. intros H. eapply Qle_trans; [exact H|].
  rewrite <- Zle_Qle. apply Z.div_le_mono; lia.
Qed.

Lemma isTokenExpired_monotone_witness :
  let token := "e30.eyJleHAiOjE2OTk5OTk5OTl9.sig"%string in
  1700000000000 <= 1800000000000
  /\ isTokenExpired Browser.platform 1800000000000 token = true.
Proof.
  intros token. split; [lia|].
  apply (isTokenExpired_monotone Browser.platform 1700000000000 1800000000000 token);
    [lia|vm_compute; reflexivity].
Defined.

Lemma split_nonempty (sep : ascii) (s : string) : Js.split sep s <> [].
Proof.
  induction s as [|c r IH]; cbn; [discriminate|].
  destruct (Ascii.eqb c sep); [discriminate|].
  now destruct (Js.split sep r).
Qed.

Lemma split_dot_free (h r : string) :
  dot_free h -> Js.split "." (h ++ String "." r) = h :: Js.split "." r.
Proof.
  induction h as [|c h IH]; cbn [dot_free]; intros H.
  - cbn. reflexivity.
  - destruct H as [Hc Hh].
    change (Js.split "." (String c (h ++ String "." r)) = String c h :: Js.split "." r).
    cbn [Js.split]. destruct (Ascii.eqb_spec c "."); [contradiction|].
    now rewrite IH.
Qed.

(** X22: only the middle part of a token is read. decodeJwtExp returns
    nothing for a token without a dot, and for a token of three parts
    its result depends on the second part alone: whatever header and
    signature surround a payload, the decoded expiry is the same (the
    signature is not verified). *)
Theorem decodeJwtExp_payload_only (platform : Platform) (header payload signature : string) :
  dot_free header -> dot_free payload ->
  decodeJwtExp platform header = None
  /\ forall header' signature', dot_free header' ->
       decodeJwtExp platform (header ++ "." ++ payload ++ "." ++ signature)
       = decodeJwtExp platform (header' ++ "." ++ payload ++ "." ++ signature').
Proof.
  intros Hh Hp. split.
  - unfold decodeJwtExp.
    assert (E : Js.split "." header = [header]).
    { clear Hp. induction header as [|c h IH]; [reflexivity|].
      destruct Hh as [Hc Hh]. cbn [Js.split].
      destruct (Ascii.eqb_spec c "."); [contradiction|]. now rewrite IH. }
    now rewrite E.
  - assert (E : forall h s, dot_free h ->
              exists rest, Js.split "." (h ++ "." ++ payload ++ "." ++ s)
                           = h :: payload :: rest).
    { intros h s Hd. exists (Js.split "." s).
      change (h ++ "." ++ payload ++ "." ++ s)%string
        with (h ++ String "." (payload ++ String "." s))%string.
      rewrite (split_dot_free h) by exact Hd. now rewrite (split_dot_free payload). }
    intros header' signature' Hh'.
    destruct (E header signature Hh) as [r1 E1].
    destruct (E header' signature' Hh') as [r2 E2].
    assert (L : forall n, (Z.of_nat (S (S n)) <? 2) = false)
      by (intros n; apply Z.ltb_ge; lia).
    unfold decodeJwtExp. rewrite E1, E2. cbn [List.length lookup list_lookup].
    now rewrite !L.
Qed.

Lemma decodeJwtExp_payload_only_witness :
  decodeJwtExp Browser.platform "e30.eyJleHAiOjE2OTk5OTk5OTl9.sig"
  = decodeJwtExp Browser.platform "forged.eyJleHAiOjE2OTk5OTk5OTl9.anything.at.all".
Proof.
  assert (Hh : dot_free "e30") by (cbn; repeat split; discriminate).
  assert (Hp : dot_free "eyJleHAiOjE2OTk5OTk5OTl9") by (cbn; repeat split; discriminate).
  assert (Hh' : dot_free "forged") by (cbn; repeat split; discriminate).
  exact (proj2 (decodeJwtExp_payload_only Browser.platform
                  "e30" "eyJleHAiOjE2OTk5OTk5OTl9" "sig" Hh Hp)
               "forged"%string "anything.at.all"%string Hh').
Defined.

Lemma loadAuthUser_stored (platform : Platform) (localStorage : gmap string string)
    (stored : string) (v : json) :
  localStorage !! USER_KEY = Some stored -> stored <> ""%string ->
  JSON_parse platform stored = Some v -> v <> JNull ->
  loadAuthUser platform true localStorage = Some v.
Proof.
  intros Hl Hs Hp Hv. unfold loadAuthUser. cbn [negb]. rewrite Hl.
  destruct stored; [congruence|]. cbn [Js.truthy negb]. rewrite Hp.
  now destruct v.
Qed.

(** X23: the session survives a reload, and a logout does not. After
    login with a token that is not empty and not expired, running the
    initialisers of the provider again on the store login left yields
    exactly the logged-in state (same token, same user) and changes
    nothing; after logout they yield the logged-out state, and of the
    store only the two session keys were ever written or removed. *)
Theorem session_round_trip (platform : Platform) (JSON_stringify : AuthUserData -> string)
    (now : Z) (localStorage : gmap string string) (u : AuthUserData) (t : string) :
  t <> ""%string -> isTokenExpired platform now t = false ->
  JSON_stringify u <> ""%string ->
  JSON_parse platform (JSON_stringify u) = Some (user_json u) ->
  let logged := login JSON_stringify u t localStorage in
  let out := logout (snd logged) in
  initAuth platform now (snd logged) = logged
  /\ initAuth platform now (snd out) = out
  /\ (forall k, k <> TOKEN_KEY -> k <> USER_KEY ->
        snd logged !! k = localStorage !! k /\ snd out !! k = localStorage !! k).
Proof.
  intros Ht He Hs Hp logged out. subst logged out. unfold login, logout. cbn [fst snd].
  unfold saveAuthSession, clearAuthSession. cbn [negb].
  set (ls1 := <[USER_KEY:=JSON_stringify u]> (<[TOKEN_KEY:=t]> localStorage)).
  assert (H1 : ls1 !! TOKEN_KEY = Some t).
  { subst ls1. rewrite lookup_insert_ne by discriminate. apply lookup_insert_eq. }
  assert (H2 : ls1 !! USER_KEY = Some (JSON_stringify u)).
  { subst ls1. apply lookup_insert_eq. }
  split; [|split].
  - unfold initAuth. rewrite (loadAuthToken_stored platform now ls1 t H1 Ht), He.
    rewrite (loadAuthUser_stored platform ls1 _ (user_json u) H2 Hs Hp) by discriminate.
    reflexivity.
  - unfold initAuth, loadAuthToken. cbn [negb].
    rewrite lookup_delete_ne by discriminate. rewrite lookup_delete_eq.
    unfold loadAuthUser. cbn [negb]. now rewrite lookup_delete_eq.
  - intros k Hk1 Hk2. subst ls1.
    rewrite !lookup_delete_ne, !lookup_insert_ne by congruence. split; reflexivity.
Qed.

Lemma session_round_trip_witness :
  let u := {| username := "alice" |} in
  let t := "e30.eyJleHAiOjE2OTk5OTk5OTl9.sig"%string in
  let logged := login stringify_user u t ∅ in
  initAuth Browser.platform 1600000000000 (snd logged) = logged.
Proof.
  intros u t logged.
  refine (proj1 (session_round_trip Browser.platform stringify_user 1600000000000 ∅ u t
                   _ _ _ _)).
  - discriminate.
  - vm_compute. reflexivity.
  - discriminate.
  - vm_compute. reflexivity.
Defined.

End StoredSession.

(** ** Error messages *)

Section ErrorMessages.
Import HttpClient Reporting ReportingRun.

Lemma pick_Some (cond : bool) (message : option string) (m : string) :
  pick cond message = Some m -> cond = true /\ message = Some m /\ m <> ""%string.
Proof.
  unfold pick. destruct cond; [|discriminate].
  destruct message as [s|]; cbn; [|discriminate].
  destruct s; cbn; [discriminate|]. intros E. injection E as <-. repeat split. discriminate.
Qed.

(** X24: what mapApiErrorToMessage can return. The result is the
    default message, or else the message configured for the class of
    the error's status (400, 401, 404, 429, 500 and above), and then it
    is not empty: a missing or empty configured message falls back to
    the default. A thrown value that is not an ApiError, and a status
    outside those classes, always give the default. *)
Theorem mapApiErrorToMessage_result (err : Thrown) (o : ApiErrorMessageOptions) :
  let m := mapApiErrorToMessage err o in
  (m = defaultMessage o
   \/ (m <> ""%string
       /\ exists e, err = ThrownApiError e
            /\ ((status e = 400 /\ badRequestMessage o = Some m)
                \/ (status e = 401 /\ unauthorizedMessage o = Some m)
                \/ (status e = 404 /\ notFoundMessage o = Some m)
                \/ (status e = 429 /\ rateLimitMessage o = Some m)
                \/ (500 <= status e /\ serverErrorMessage o = Some m))))
  /\ (defaultMessage o <> ""%string -> m <> ""%string)
  /\ (err = ThrownOther -> m = defaultMessage o)
  /\ (forall e, err = ThrownApiError e ->
        status e <> 400 -> status e <> 401 -> status e <> 404 -> status e <> 429 ->
        status e < 500 -> m = defaultMessage o).
Proof.
  intros m.
  assert (H : m = defaultMessage o
              \/ (m <> ""%string
                  /\ exists e, err = ThrownApiError e
                       /\ ((status e = 400 /\ badRequestMessage o = Some m)
                           \/ (status e = 401 /\ unauthorizedMessage o = Some m)
                           \/ (status e = 404 /\ notFoundMessage o = Some m)
                           \/ (status e = 429 /\ rateLimitMessage o = Some m)
                           \/ (500 <= status e /\ serverErrorMessage o = Some m)))).
  { subst m. unfold mapApiErrorToMessage. destruct err as [e|]; [|now left].
    destruct (pick (status e =? 400) (badRequestMessage o)) as [m|] eqn:E1.
    { apply pick_Some in E1 as (Hc & Hm & Hn). apply Z.eqb_eq in Hc.
      right. split; [exact Hn|]. exists e. auto. }
    destruct (pick (status e =? 401) (unauthorizedMessage o)) as [m|] eqn:E2.
    { apply pick_Some in E2 as (Hc & Hm & Hn). apply Z.eqb_eq in Hc.
      right. split; [exact Hn|]. exists e. auto. }
    destruct (pick (status e =? 404) (notFoundMessage o)) as [m|] eqn:E3.
    { apply pick_Some in E3 as (Hc & Hm & Hn). apply Z.eqb_eq in Hc.
      right. split; [exact Hn|]. exists e. auto 6. }
    destruct (pick (status e =? 429) (rateLimitMessage o)) as [m|] eqn:E4.
    { apply pick_Some in E4 as (Hc & Hm & Hn). apply Z.eqb_eq in Hc.
      right. split; [exact Hn|]. exists e. auto 7. }
    destruct (pick (status e >=? 500) (serverErrorMessage o)) as [m|] eqn:E5.
    { apply pick_Some in E5 as (Hc & Hm & Hn). apply Z.geb_le in Hc.
      right. split; [exact Hn|]. exists e. auto 8. }
    now left. }
  split; [exact H|]. split; [|split].
  - intros Hd. destruct H as [->|[Hn _]]; assumption.
  - intros ->. reflexivity.
  - intros e -> H400 H401 H404 H429 H500.
    destruct H as [H|(_ & e' & E & H)]; [exact H|].
    injection E as <-. lia.
Qed.

(** X25: what a failed load shows in a reporting hook. For each of the
    three hooks, when the latest load (not cancelled, not finished)
    fails, the rows are kept, loading is switched off, and the error is:
    unchanged for status 401, the rate-limit message for 429, the
    server-error message for 500 and above, and the hook's default
    message for every other failure, ApiError or not. *)
Theorem reporting_error_surface {T} (k : ReportingHook) (h : Hook T) (i : nat)
    (l : LoadCall) (err : Thrown) :
  In k hooks ->
  loads h !! i = Some l -> cancelled l = false -> finished l = false ->
  let h' := reportSettle k i (inr err) h in
  data (state h') = data (state h)
  /\ loading (state h') = false
  /\ error (state h')
     = match err with
       | ThrownApiError e =>
           if status e =? 401 then error (state h)
           else if status e =? 429 then rateLimitMessage (r_messages k)
           else if status e >=? 500 then serverErrorMessage (r_messages k)
           else Some (defaultMessage (r_messages k))
       | ThrownOther => Some (defaultMessage (r_messages k))
       end.
Proof.
  intros Hk Hl Hc Hf h'. subst h'. unfold reportSettle. rewrite Hl, Hf. cbn [state].
  unfold reportResume. rewrite Hc.
  assert (Hm : exists d r v, r_messages k = messages d r v
                             /\ r <> ""%string /\ v <> ""%string).
  { destruct Hk as [<-|[<-|[<-|[]]]]; eexists _, _, _;
      (split; [reflexivity|split; discriminate]). }
  destruct Hm as (d & r & v & -> & Hr & Hv).
  destruct r as [|cr r]; [congruence|]. destruct v as [|cv v]; [congruence|].
  destruct err as [e|]; [|repeat split].
  destruct (Z.eqb_spec (status e) 401) as [E401|N401]; [repeat split|].
  cbn [data loading error]. split; [reflexivity|]. split; [reflexivity|].
  unfold mapApiErrorToMessage, messages, pick. cbn.
  destruct (status e =? 400); cbn;
    destruct (Z.eqb_spec (status e) 401); try contradiction; cbn;
    destruct (status e =? 404); cbn;
    destruct (status e =? 429); cbn; try reflexivity;
    destruct (status e >=? 500); reflexivity.
Qed.

Lemma reporting_error_surface_witness :
  let k := useTransactionsVolume in
  let h := reportRun k [EffectRun (Some "jwt"%string)] in
  error (state (reportSettle k 0
                  (inr (ThrownApiError {| status := 503; statusText := "Unavailable";
                                          bodyText := None |}))
                  (h : Hook string)))
  = Some "Server error while loading transactions volume. Please try again later."%string.
Proof.
  intros k h.
  refine (proj2 (proj2 (reporting_error_surface k h 0
                          {| cancelled := false; finished := false |} _ _ _ _ _))).
  - right. left. reflexivity.
  - reflexivity.
  - reflexivity.
  - reflexivity.
Defined.

End ErrorMessages.

(** ** The request of the table component *)

Section TableRequest.
Import HttpClient DataTableShell ServerDataTable.

(** X26: the request a table effect sends. For a table with a non-empty
    endpoint, each effect run appends one attempt and registers it; its
    request goes to the endpoint with the query built from the current
    page window, committed search, sort and derived extra filters; its
    Authorization header is built from the token prop when one is given
    and from the auth context otherwise, so an empty-string token prop
    masks the context token and no header is sent; and while it is out
    the table is loading, its error is cleared and its rows are the ones
    it had. *)
Theorem table_request {TData} (props : ServerDataTableProps) (authToken : option string)
    (c : ComponentState) (h : Hook TData) :
  Js.truthy (p_endpoint props) = true ->
  let h' := tableEffect (hookOptions props authToken c) h in
  let s := state h in
  exists a,
    attempts h' = attempts (tableCleanup h) ++ [a]
    /\ active h' = Some (List.length (attempts h))
    /\ path (att_request a) = p_endpoint props
    /\ query (att_request a)
       = buildDataTablesQueryParams
           {| start := st_pageIndex s * st_pageSize s;
              length := st_pageSize s;
              q_search := Some (c_search c);
              sortColumn := c_sortColumn c;
              sortDir := c_sortDir c;
              extraFilters := Some (derivedExtraFilters (c_filterState c) (columns props)) |}
    /\ authorization (att_request a)
       = buildAuthHeader (match p_token props with Some t => Some t | None => authToken end)
    /\ (p_token props = Some ""%string -> authorization (att_request a) = None)
    /\ st_loading (state h') = true
    /\ st_error (state h') = None
    /\ st_data (state h') = st_data s.
Proof.
  intros He h' s. subst h' s. unfold tableEffect.
  change (endpoint (hookOptions props authToken c)) with (p_endpoint props).
  rewrite He. cbn [negb].
  assert (Hs : state (tableCleanup h) = state h
               /\ List.length (attempts (tableCleanup h)) = List.length (attempts h)).
  { unfold tableCleanup. destruct (active h) as [i|]; [|split; reflexivity]. cbn.
    split; [reflexivity|]. destruct (attempts h !! i); [apply length_insert|reflexivity]. }
  destruct Hs as [Hs Hn]. eexists. split; [reflexivity|].
  cbn [active state attempts att_request path query authorization apiRequest_send
       st_loading st_error st_data]. rewrite Hs, Hn.
  repeat split. intros Hp. cbn. now rewrite Hp.
Qed.

Lemma table_request_witness :
  let props := {| columns := TransactionsTable.columns; p_endpoint := "/transactions";
                  p_token := Some ""%string; p_pageSizeInitial := None;
                  p_mapErrorMessage := None |} in
  let o := hookOptions props (Some "jwt"%string) initialComponentState in
  authorization ∘ att_request <$> attempts (tableEffect o (@mountTable string o)) = [None].
Proof.
  intros props o.
  destruct (table_request props (Some "jwt"%string) initialComponentState
              (@mountTable string o) eq_refl)
    as (a & Ha & _ & _ & _ & _ & Hmask & _).
  fold o in Ha. rewrite Ha. cbn. now rewrite (Hmask eq_refl).
Defined.

End TableRequest.

(** ** Transactions volume: paging and aggregation *)

Section VolumeProperties.
Import TransactionsVolume.

Lemma removelast_cons2 {A} (x : A) (l : list A) :
  l <> [] -> removelast (x :: l) = x :: removelast l.
Proof. destruct l; [congruence|reflexivity]. Qed.

Lemma fetchPages_requests (n : nat) (server : Z -> Settled) (cancelled : Z -> bool)
    (start : Z) (acc : list Tx) :
  let exit := fst (fetchPages (S n) server cancelled start acc) in
  let starts := snd (fetchPages (S n) server cancelled start acc) in
  let last := start + pageSize * Z.of_nat (List.length starts - 1) in
  (1 <= List.length starts <= S n)%nat
  /\ starts = map (fun i => start + pageSize * Z.of_nat i) (seq 0 (List.length starts))
  /\ Forall (fullPage server cancelled) (removelast starts)
  /\ exit = match server last with
            | Rejected err => Caught err
            | Resolved response =>
                if cancelled last then Returned
                else match response with
                     | Nullish => Caught HttpClient.ThrownOther
                     | Value _ => Completed (acc ++ flat_map (page server) starts)
                     end
            end
  /\ ((List.length starts < S n)%nat -> forall rows, exit = Completed rows ->
      Z.of_nat (List.length (page server last)) < pageSize).
Proof.
  revert start acc. induction n as [|n IH]; intros start acc.
  - cbn [fetchPages]. unfold page.
    destruct (server start) as [err|[|data]] eqn:Es.
    + cbn [fst snd List.length seq map removelast Nat.sub].
      rewrite Z.mul_0_r, Z.add_0_r, Es. repeat split; try lia; try constructor;
          try (intros _ rows E; first [discriminate E | assumption]).
    + destruct (cancelled start) eqn:Ec;
        cbn [fst snd List.length seq map removelast Nat.sub];
        rewrite Z.mul_0_r, Z.add_0_r, Es, Ec; repeat split; try lia; try constructor;
          try (intros _ rows E; first [discriminate E | assumption]).
    + destruct (cancelled start) eqn:Ec.
      * cbn [fst snd List.length seq map removelast Nat.sub].
        rewrite Z.mul_0_r, Z.add_0_r, Es, Ec. repeat split; try lia; try constructor;
          try (intros _ rows E; first [discriminate E | assumption]).
      * destruct (Z.ltb_spec (Z.of_nat (List.length (rowsOf data))) pageSize) as [Hlt|Hge];
          cbn [fst snd List.length seq map removelast Nat.sub flat_map];
          rewrite Z.mul_0_r, Z.add_0_r, Es, Ec, ?app_nil_r;
          repeat split; try lia; try constructor;
          try (intros _ rows E; first [discriminate E | assumption]).
  - remember (S n) as m eqn:Em. cbn [fetchPages]. unfold page.
    destruct (server start) as [err|[|data]] eqn:Es.
    + cbn [fst snd List.length seq map removelast Nat.sub].
      rewrite Z.mul_0_r, Z.add_0_r, Es. repeat split; try lia; try constructor;
          try (intros _ rows E; first [discriminate E | assumption]).
    + destruct (cancelled start) eqn:Ec;
        cbn [fst snd List.length seq map removelast Nat.sub];
        rewrite Z.mul_0_r, Z.add_0_r, Es, Ec; repeat split; try lia; try constructor;
          try (intros _ rows E; first [discriminate E | assumption]).
    + destruct (cancelled start) eqn:Ec.
      * cbn [fst snd List.length seq map removelast Nat.sub].
        rewrite Z.mul_0_r, Z.add_0_r, Es, Ec. repeat split; try lia; try constructor;
          try (intros _ rows E; first [discriminate E | assumption]).
      * destruct (Z.ltb_spec (Z.of_nat (List.length (rowsOf data))) pageSize) as [Hlt|Hge].
        { cbn [fst snd List.length seq map removelast Nat.sub flat_map].
          rewrite Z.mul_0_r, Z.add_0_r, Es, Ec, ?app_nil_r.
          repeat split; try lia; try constructor;
          try (intros _ rows E; first [discriminate E | assumption]). }
        subst m. specialize (IH (start + pageSize) (acc ++ rowsOf data)).
        destruct (fetchPages (S n) server cancelled (start + pageSize) (acc ++ rowsOf data))
          as [exit starts] eqn:E.
        cbn [fst snd] in IH |- *. destruct IH as (Hlen & Hst & Hfull & Hexit & Hlast).
        assert (Hne : starts <> []) by (intros ->; cbn in Hlen; lia).
        assert (Hl : start + pageSize * Z.of_nat (List.length (start :: starts) - 1)
                     = start + pageSize + pageSize * Z.of_nat (List.length starts - 1))
          by (cbn [List.length]; unfold pageSize; lia).
        rewrite Hl. fold (page server).
        cbn [List.length flat_map]. split; [lia|]. split; [|split; [|split]].
        -- cbn [seq map]. rewrite Z.mul_0_r, Z.add_0_r. f_equal.
           rewrite Hst at 1. rewrite <- seq_shift, map_map.
           apply map_ext. intros i. lia.
        -- rewrite removelast_cons2 by exact Hne. constructor; [|exact Hfull].
           unfold fullPage, page. rewrite Es. split; [exact Ec|]. split; [eauto|lia].
        -- rewrite Hexit.
           replace (page server start) with (rowsOf data) by (unfold page; now rewrite Es).
           now rewrite <- app_assoc.
        -- intros Hlt rows Hrows. apply (Hlast ltac:(lia) rows Hrows).
Qed.

(** X27: the paging loop of the volume hook. Whatever the endpoint
    answers or fails with, and whenever the effect is cleaned up, the
    loop sends at least one and at most 20 requests, for the starts 0,
    100, 200, ... in this order. Every request before the last resolved,
    with no cleanup seen after it, to at least 100 rows. The last
    request decides how the loop is left: its rejection goes to the catch
    block; a cleanup seen after it makes load return; a null or
    undefined response throws; and otherwise the loop completes with the
    answers put end to end. A loop that completes before the 20th
    request ended on an answer of fewer than 100 rows. *)
Theorem volume_paging_loop (server : Z -> Settled) (cancelled : Z -> bool) :
  let exit := fst (loadPages server cancelled) in
  let starts := snd (loadPages server cancelled) in
  let last := 100 * Z.of_nat (List.length starts - 1) in
  (1 <= List.length starts <= 20)%nat
  /\ starts = map (fun i => 100 * Z.of_nat i) (seq 0 (List.length starts))
  /\ (forall s, In s (removelast starts) ->
        cancelled s = false
        /\ (exists data, server s = Resolved (Value data))
        /\ 100 <= Z.of_nat (List.length (page server s)))
  /\ exit = match server last with
            | Rejected err => Caught err
            | Resolved response =>
                if cancelled last then Returned
                else match response with
                     | Nullish => Caught HttpClient.ThrownOther
                     | Value _ => Completed (flat_map (page server) starts)
                     end
            end
  /\ ((List.length starts < 20)%nat -> forall rows, exit = Completed rows ->
      Z.of_nat (List.length (page server last)) < 100).
Proof.
  intros exit starts last. subst exit starts last. unfold loadPages, maxPages.
  destruct (fetchPages_requests 19 server cancelled 0 []) as (H1 & H2 & H3 & H4 & H5).
  rewrite Z.add_0_l in H4, H5. unfold pageSize in H4, H5.
  split; [exact H1|]. split; [|split; [|split]].
  - rewrite H2 at 1. apply map_ext. intros i. unfold pageSize. lia.
  - intros s Hs. rewrite List.Forall_forall in H3. exact (H3 s Hs).
  - exact H4.
  - exact H5.
Qed.

Lemma pager_page (all : list Tx) (k : nat) :
  page (pager all) (Z.of_nat k) = take 100 (drop k all).
Proof. unfold page, pager, rowsOf. now rewrite Nat2Z.id. Qed.

Lemma fetchPages_pager_step (all : list Tx) (cancelled : Z -> bool) (n k : nat)
    (acc : list Tx) :
  fetchPages (S n) (pager all) cancelled (Z.of_nat k) acc
  = if cancelled (Z.of_nat k) then (Returned, [Z.of_nat k])
    else if Z.of_nat (List.length (take 100 (drop k all))) <? pageSize
         then (Completed (acc ++ take 100 (drop k all)), [Z.of_nat k])
         else let (exit, starts) :=
                fetchPages n (pager all) cancelled (Z.of_nat (k + 100))
                  (acc ++ take 100 (drop k all)) in
              (exit, Z.of_nat k :: starts).
Proof.
  cbn [fetchPages]. unfold pager at 1. unfold rowsOf. rewrite Nat2Z.id.
  change (Z.to_nat pageSize) with 100%nat.
  replace (Z.of_nat k + pageSize) with (Z.of_nat (k + 100)) by (unfold pageSize; lia).
  reflexivity.
Qed.

Lemma fetchPages_pager (all : list Tx) (cancelled : Z -> bool) (n k : nat)
    (acc : list Tx) :
  (fst (fetchPages n (pager all) cancelled (Z.of_nat k) acc)
   = Completed (acc ++ take (100 * n) (drop k all))
   \/ fst (fetchPages n (pager all) cancelled (Z.of_nat k) acc) = Returned)
  /\ ((forall s, cancelled s = false) ->
      fst (fetchPages n (pager all) cancelled (Z.of_nat k) acc)
      = Completed (acc ++ take (100 * n) (drop k all))).
Proof.
  revert k acc. induction n as [|n IH]; intros k acc.
  - cbn [fetchPages fst]. rewrite Nat.mul_0_r, take_0, app_nil_r. split; [now left|easy].
  - rewrite fetchPages_pager_step.
    destruct (cancelled (Z.of_nat k)) eqn:Ec.
    { cbn [fst]. split; [now right|]. intros H. rewrite H in Ec. discriminate Ec. }
    destruct (Z.ltb_spec (Z.of_nat (List.length (take 100 (drop k all)))) pageSize)
      as [Hlt|Hge].
    + cbn [fst]. unfold pageSize in Hlt. rewrite length_take in Hlt.
      assert (Hs : (List.length (drop k all) < 100)%nat) by lia.
      rewrite !take_ge by lia. split; [now left|easy].
    + specialize (IH (k + 100)%nat (acc ++ take 100 (drop k all))).
      destruct (fetchPages n (pager all) cancelled (Z.of_nat (k + 100))
                  (acc ++ take 100 (drop k all))) as [exit starts].
      cbn [fst] in IH |- *.
      assert (E : (acc ++ take 100 (drop k all)) ++ take (100 * n) (drop (k + 100) all)
                  = acc ++ take (100 * S n) (drop k all)).
      { rewrite <- app_assoc. f_equal.
        replace (drop (k + 100) all) with (drop 100 (drop k all))
          by (rewrite drop_drop; f_equal; lia).
        rewrite take_take_drop. f_equal. lia. }
      rewrite E in IH. exact IH.
Qed.

(** X28: the cap of the volume hook. Against an endpoint that pages
    through its rows 100 at a time, the loop collects exactly the first
    2000 rows, in order: everything when there are at most 2000 rows,
    and nothing beyond the 2000th otherwise. A cleanup of the effect
    changes this in one way only: the loop returns with no rows at
    all. *)
Theorem volume_rows_capped (all : list Tx) :
  fst (loadPages (pager all) (fun _ => false)) = Completed (take 2000 all)
  /\ ((List.length all <= 2000)%nat ->
      fst (loadPages (pager all) (fun _ => false)) = Completed all)
  /\ (forall cancelled,
        fst (loadPages (pager all) cancelled) = Completed (take 2000 all)
        \/ fst (loadPages (pager all) cancelled) = Returned).
Proof.
  assert (H : forall cancelled,
             (fst (loadPages (pager all) cancelled) = Completed (take 2000 all)
              \/ fst (loadPages (pager all) cancelled) = Returned)
             /\ ((forall s, cancelled s = false) ->
                 fst (loadPages (pager all) cancelled) = Completed (take 2000 all))).
  { intros cancelled. unfold loadPages, maxPages. change 0 with (Z.of_nat 0).
    exact (fetchPages_pager all cancelled 20 0 []). }
  split; [|split].
  - now apply (H (fun _ => false)).
  - intros Hl. rewrite (proj2 (H (fun _ => false))) by reflexivity.
    f_equal. now apply take_ge.
  - intros cancelled. exact (proj1 (H cancelled)).
Qed.

Section Buckets.
Variable localDate : string -> option (Z * Z * Z).

Lemma counted_cons (typeFilter : TxTypeFilter) (d : string) (tx : Tx) (rows : list Tx) :
  counted localDate typeFilter d (tx :: rows)
  = match bucketKey localDate tx with
    | Some key =>
        if String.eqb key d
        then match contribution typeFilter tx with
             | Some c => c :: counted localDate typeFilter d rows
             | None => counted localDate typeFilter d rows
             end
        else counted localDate typeFilter d rows
    | None => counted localDate typeFilter d rows
    end.
Proof.
  unfold counted. cbn [omap list_omap].
  destruct (bucketKey localDate tx) as [key|]; [|reflexivity].
  destruct (String.eqb key d); [|reflexivity].
  now destruct (contribution typeFilter tx).
Qed.

Lemma extend_cons (prev : option (Z * Z)) (c : Z) (cs : list Z) :
  extend (Some (fst (match prev with Some b => b | None => (0, 0) end) + c,
                snd (match prev with Some b => b | None => (0, 0) end) + 1)) cs
  = extend prev (c :: cs).
Proof.
  unfold extend. destruct cs as [|c' cs]; cbn [fst snd sum fold_right List.length].
  - f_equal. f_equal; lia.
  - f_equal. f_equal; lia.
Qed.

Lemma fold_addTx_lookup (typeFilter : TxTypeFilter) (d : string) (rows : list Tx)
    (buckets : gmap string (Z * Z)) :
  fold_left (addTx localDate typeFilter) rows buckets !! d
  = extend (buckets !! d) (counted localDate typeFilter d rows).
Proof.
  revert buckets. induction rows as [|tx rows IH]; intros buckets; [reflexivity|].
  cbn [fold_left]. rewrite IH, counted_cons. unfold addTx, bucketKey.
  destruct (localDate (createdAt tx)) as [created|]; cbn [option_map]; [|reflexivity].
  destruct (contribution typeFilter tx) as [c|].
  - destruct (String.eqb_spec (formatDateForQuery created) d) as [->|Hne].
    + rewrite lookup_insert_eq. apply extend_cons.
    + now rewrite lookup_insert_ne.
  - now destruct (String.eqb (formatDateForQuery created) d).
Qed.

(** Each bucket holds the sum and the number of the contributions of
    its day, and only days with a counted row have a bucket. *)
Lemma aggregate_lookup (typeFilter : TxTypeFilter) (d : string) (rows : list Tx) :
  aggregate localDate typeFilter rows !! d
  = match counted localDate typeFilter d rows with
    | [] => None
    | cs => Some (sum cs, Z.of_nat (List.length cs))
    end.
Proof.
  unfold aggregate. rewrite fold_addTx_lookup, lookup_empty. unfold extend.
  now destruct (counted localDate typeFilter d rows).
Qed.

#[local] Instance string_le_total : Total string_le.
Proof. intros a b. apply String.leb_total. Qed.

Lemma sortedDates_spec (buckets : gmap string (Z * Z)) :
  Sorted string_le (sortedDates buckets)
  /\ NoDup (sortedDates buckets)
  /\ forall d, In d (sortedDates buckets) <-> is_Some (buckets !! d).
Proof.
  unfold sortedDates. split; [apply Sorted_merge_sort; apply _|]. split.
  - rewrite merge_sort_Permutation. apply NoDup_fst_map_to_list.
  - intros d. rewrite <- list_elem_of_In, merge_sort_Permutation.
    rewrite list_elem_of_fmap. split.
    + intros ([k v] & -> & H). apply elem_of_map_to_list in H. cbn. eauto.
    + intros [v H]. exists (d, v). split; [reflexivity|]. now apply elem_of_map_to_list.
Qed.

Lemma contribution_nonneg (typeFilter : TxTypeFilter) (tx : Tx) (c : Z) :
  typeFilter <> ALL -> contribution typeFilter tx = Some c -> 0 <= c.
Proof.
  unfold contribution. destruct typeFilter; [congruence| |]; intros _;
    destruct (String.eqb (tx_type tx) _); cbn; intros E; try discriminate;
    injection E as <-; lia.
Qed.

Lemma counted_nonneg (typeFilter : TxTypeFilter) (d : string) (rows : list Tx) :
  typeFilter <> ALL -> 0 <= sum (counted localDate typeFilter d rows).
Proof.
  intros Hf. induction rows as [|tx rows IH]; [reflexivity|].
  rewrite counted_cons. destruct (bucketKey localDate tx) as [key|]; [|exact IH].
  destruct (String.eqb key d); [|exact IH].
  destruct (contribution typeFilter tx) as [c|] eqn:E; [|exact IH].
  pose proof (contribution_nonneg typeFilter tx c Hf E). cbn [sum fold_right].
  unfold sum in IH. lia.
Qed.

(** X29: the points of the volume chart. The dates come in ascending
    order with no date twice; a date has a point exactly when some row
    of that local day is counted (valid date, type accepted by the
    filter); the point's amount is the sum of what those rows add
    (credits minus debits under ALL, absolute amounts under DEBIT or
    CREDIT) and its count is their number, at least 1; and under DEBIT
    or CREDIT no amount is negative. *)
Theorem volume_points (typeFilter : TxTypeFilter) (rows : list Tx) :
  let ps := points localDate typeFilter rows in
  Sorted string_le (map date ps)
  /\ NoDup (map date ps)
  /\ (forall d, In d (map date ps) <-> counted localDate typeFilter d rows <> [])
  /\ (forall p, In p ps ->
        totalAmount p = sum (counted localDate typeFilter (date p) rows)
        /\ count p = Z.of_nat (List.length (counted localDate typeFilter (date p) rows))
        /\ 1 <= count p
        /\ (typeFilter <> ALL -> 0 <= totalAmount p)).
Proof.
  intros ps. subst ps. unfold points.
  set (buckets := aggregate localDate typeFilter rows).
  assert (Hd : map date
                 (map (fun d =>
                         {| date := d;
                            totalAmount := fst match buckets !! d with
                                               | Some b => b | None => (0, 0) end;
                            count := snd match buckets !! d with
                                         | Some b => b | None => (0, 0) end |})
                      (sortedDates buckets)) = sortedDates buckets).
  { rewrite map_map. cbn [date]. apply map_id. }
  destruct (sortedDates_spec buckets) as (Hs & Hn & Hin).
  rewrite Hd. split; [exact Hs|]. split; [exact Hn|]. split.
  - intros d. rewrite Hin. subst buckets. rewrite aggregate_lookup.
    destruct (counted localDate typeFilter d rows); split;
      try congruence; intros H; try (destruct H as [? H]; discriminate H); eauto.
  - intros p Hp. apply in_map_iff in Hp as (d & <- & Hdin). cbn [date totalAmount count].
    apply Hin in Hdin. subst buckets. rewrite aggregate_lookup in Hdin |- *.
    pose proof (counted_nonneg typeFilter d rows) as Hnn.
    destruct (counted localDate typeFilter d rows) as [|c cs] eqn:E.
    + destruct Hdin as [? H]. discriminate H.
    + cbn [fst snd]. repeat split; try lia; try exact Hnn. cbn [List.length]. lia.
Qed.

End Buckets.

Lemma volume_paging_loop_witness :
  let tx := {| createdAt := "2024-03-05T10:00:00"; amount := 1; tx_type := "CREDIT" |} in
  let server := pager (repeat tx 150) in
  let cancelled := fun s : Z => 100 <=? s in
  snd (loadPages server cancelled) = [0; 100]
  /\ fst (loadPages server cancelled) = Returned.
Proof.
  intros tx server cancelled. split; [vm_compute; reflexivity|].
  destruct (volume_paging_loop server cancelled) as (_ & _ & _ & Hexit & _).
  rewrite Hexit. vm_compute. reflexivity.
Defined.

Lemma volume_points_witness :
  let localDate := fun s : string =>
    if String.eqb s "2024-03-05T10:00:00" then Some (2024, 2, 5)
    else if String.eqb s "2024-03-04T23:30:00" then Some (2024, 2, 4)
    else None in
  let rows :=
    [ {| createdAt := "2024-03-05T10:00:00"; amount := 50; tx_type := "CREDIT" |};
      {| createdAt := "2024-03-04T23:30:00"; amount := -20; tx_type := "DEBIT" |};
      {| createdAt := "2024-03-05T10:00:00"; amount := 30; tx_type := "DEBIT" |};
      {| createdAt := "not a date"; amount := 7; tx_type := "CREDIT" |};
      {| createdAt := "2024-03-04T23:30:00"; amount := 9; tx_type := "REFUND" |} ] in
  points localDate ALL rows
  = [ {| date := "2024-03-04"; totalAmount := -20; count := 1 |};
      {| date := "2024-03-05"; totalAmount := 20; count := 2 |} ]
  /\ Sorted string_le (map date (points localDate ALL rows))
  /\ NoDup (map date (points localDate ALL rows)).
Proof.
  intros localDate rows. split; [vm_compute; reflexivity|].
  destruct (volume_points localDate ALL rows) as (Hsorted & Hnodup & _).
  split; [exact Hsorted | exact Hnodup].
Defined.

End VolumeProperties.
